(** * whatsapp-web.js AI layer: template parser, threads, assistant, handoff

    A shallow embedding of
      - [src/structures/TemplateParser.js]
      - [src/structures/Thread.js]
      - [src/structures/storage/ThreadStorage.js] (the in-memory adapter)
      - [src/structures/AIAssistant.js]
    followed by the properties of the specification that concern them.

    Conventions.  JavaScript strings are modelled by [string] (code units
    below 128 behave as in JavaScript; [\w], [\s], [toLowerCase] and [trim]
    are the ASCII ones).  JavaScript values that reach the modelled code
    are given by [jsval].  An [async] function whose awaited callees all
    settle is modelled by the function that runs it to completion; an
    exception (or rejected promise) is the [Throw] outcome.  Calls do not
    interleave.  A call that reads the clock takes the time as its
    argument [now] (milliseconds), and the clock stands still while the
    call runs.  Of the code supplied by the user of the library, the
    handlers of the human operator and the registered functions are
    modelled as code that does not reach into the assistant; a
    middleware step may get or create the thread of the chat and add to
    its context, as the steps of the repository's examples do (see
    [middleware]). *)

From Stdlib Require Import ZArith String Ascii List Bool Lia.
From stdpp Require Import base tactics option list strings pretty gmap.

Open Scope string_scope.
Open Scope Z_scope.

(** ** JavaScript values *)

Module Js.

(** The value of a JavaScript [number], as far as the modelled code can
    produce one: an integer, [NaN] or [Infinity]. *)
Inductive jsnum : Type :=
| Fin (z : Z)
| NaN
| Infinity.

(** [JFun name] is the built-in function of that name, which the
    modelled code meets as a property that an object inherits. *)
#[local] Set Warnings "-register-all".
Inductive jsval : Type :=
| JUndefined
| JNull
| JBool (b : bool)
| JNum (n : jsnum)
| JStr (s : string)
| JArr (elems : list jsval)
| JObj (props : list (string * jsval))
| JFun (name : string).

(** [ToBoolean]. *)
Definition truthy (v : jsval) : bool :=
  match v with
  | JUndefined | JNull => false
  | JBool b => b
  | JNum (Fin z) => negb (z =? 0)
  | JNum NaN => false
  | JNum Infinity => true
  | JStr s => negb (String.eqb s EmptyString)
  | JArr _ | JObj _ | JFun _ => true
  end.

(** [a || b]. *)
Definition or_else (a b : jsval) : jsval := if truthy a then a else b.

(** The [typeof] operator. *)
Definition typeof (v : jsval) : string :=
  match v with
  | JUndefined => "undefined"
  | JNull => "object"
  | JBool _ => "boolean"
  | JNum _ => "number"
  | JStr _ => "string"
  | JArr _ | JObj _ => "object"
  | JFun _ => "function"
  end.

Definition isArray (v : jsval) : bool :=
  match v with JArr _ => true | _ => false end.

Definition is_undefined (v : jsval) : bool :=
  match v with JUndefined => true | _ => false end.

Definition is_null (v : jsval) : bool :=
  match v with JNull => true | _ => false end.

(** The double quote character, for messages that contain it. *)
Definition dquote : string := String (ascii_of_nat 34) EmptyString.

(** *** Characters *)

Definition code (c : ascii) : nat := nat_of_ascii c.

Definition between (lo hi : nat) (c : ascii) : bool :=
  (Nat.leb lo (code c) && Nat.leb (code c) hi)%bool.

Definition is_digit (c : ascii) : bool := between 48 57 c.
Definition is_upper (c : ascii) : bool := between 65 90 c.
Definition is_lower (c : ascii) : bool := between 97 122 c.

(** [\w]: letters, digits and the underscore. *)
Definition is_word (c : ascii) : bool :=
  (is_digit c || is_upper c || is_lower c || Nat.eqb (code c) 95)%bool.

(** [\s] and the characters [trim] strips: tab, line feed, vertical tab,
    form feed, carriage return and space. *)
Definition is_space (c : ascii) : bool :=
  (between 9 13 c || Nat.eqb (code c) 32)%bool.

Definition lower_char (c : ascii) : ascii :=
  if is_upper c then ascii_of_nat (code c + 32) else c.

(** *** Strings, as lists of characters where that is easier *)

Definition chars (s : string) : list ascii := list_ascii_of_string s.
Definition str (l : list ascii) : string := string_of_list_ascii l.

(** [String.prototype.toLowerCase]. *)
Definition toLowerCase (s : string) : string := str (map lower_char (chars s)).

Fixpoint trimStart_chars (l : list ascii) : list ascii :=
  match l with
  | c :: l' => if is_space c then trimStart_chars l' else l
  | [] => []
  end.

(** [String.prototype.trim]. *)
Definition trim (s : string) : string :=
  str (rev (trimStart_chars (rev (trimStart_chars (chars s))))).

(** [String.prototype.split] with a one-character separator. *)
Fixpoint split_chars (sep : ascii) (cur : list ascii) (l : list ascii)
  : list (list ascii) :=
  match l with
  | [] => [rev cur]
  | c :: l' =>
      if Ascii.eqb c sep then rev cur :: split_chars sep [] l'
      else split_chars sep (c :: cur) l'
  end.

Definition split (sep : ascii) (s : string) : list string :=
  map str (split_chars sep [] (chars s)).

Fixpoint prefix_chars (p l : list ascii) : bool :=
  match p, l with
  | [], _ => true
  | a :: p', b :: l' => (Ascii.eqb a b && prefix_chars p' l')%bool
  | _ :: _, [] => false
  end.

Fixpoint includes_chars (p l : list ascii) : bool :=
  (prefix_chars p l ||
   match l with
   | [] => false
   | _ :: l' => includes_chars p l'
   end)%bool.

(** [String.prototype.includes]. *)
Definition includes (s sub : string) : bool :=
  includes_chars (chars sub) (chars s).

(** [s.substring(b, e)] for [b <= e]. *)
Definition substring (b e : nat) (l : list ascii) : list ascii :=
  take (e - b) (drop b l).

(** [Array.prototype.join]. *)
Fixpoint join (sep : string) (l : list string) : string :=
  match l with
  | [] => EmptyString
  | [s] => s
  | s :: l' => s ++ sep ++ join sep l'
  end.

(** *** Numbers from strings *)

Definition digit_val (c : ascii) : option Z :=
  if is_digit c then Some (Z.of_nat (code c - 48))
  else if between 97 102 c then Some (Z.of_nat (code c - 87))
  else if between 65 70 c then Some (Z.of_nat (code c - 55))
  else None.

(** The digits of [l] in base [base], most significant first. *)
Fixpoint digits_acc (base : Z) (acc : Z) (l : list ascii) : option Z :=
  match l with
  | [] => Some acc
  | c :: l' =>
      match digit_val c with
      | Some d =>
          if d <? base then digits_acc base (base * acc + d) l' else None
      | None => None
      end
  end.

Definition digits (base : Z) (l : list ascii) : option Z :=
  match l with
  | [] => None
  | _ => digits_acc base 0 l
  end.

(** The least integer that a double rounds to [Infinity]. *)
Definition overflow_bound : Z := 2 ^ 1024 - 2 ^ 970.

Definition finite (z : Z) : jsnum :=
  if overflow_bound <=? z then Infinity else Fin z.

Definition is_exp_mark (c : ascii) : bool :=
  (Ascii.eqb c "e" || Ascii.eqb c "E")%bool.

Fixpoint take_while (p : ascii -> bool) (l : list ascii) : list ascii :=
  match l with
  | c :: l' => if p c then c :: take_while p l' else []
  | [] => []
  end.

Fixpoint drop_while (p : ascii -> bool) (l : list ascii) : list ascii :=
  match l with
  | c :: l' => if p c then drop_while p l' else l
  | [] => []
  end.

(** [DecimalDigits ExponentPart] without a sign in the exponent. *)
Definition decimal_with_exponent (l : list ascii) : option jsnum :=
  let mant := take_while is_digit l in
  match drop_while is_digit l with
  | m :: ex =>
      if is_exp_mark m then
        match digits 10 mant, digits 10 ex with
        | Some a, Some b =>
            if a =? 0 then Some (Fin 0)
            else if 400 <? b then Some Infinity
            else Some (finite (a * 10 ^ b))
        | _, _ => None
        end
      else None
  | [] => None
  end.

Definition radix_prefix (c : ascii) : option Z :=
  if (Ascii.eqb c "x" || Ascii.eqb c "X")%bool then Some 16
  else if (Ascii.eqb c "o" || Ascii.eqb c "O")%bool then Some 8
  else if (Ascii.eqb c "b" || Ascii.eqb c "B")%bool then Some 2
  else None.

(** [Number(s)] on the strings the parser hands it: strings of word
    characters and white space (no sign, no decimal point).  The value of
    a decimal literal is kept exact below the overflow bound; rounding to
    the nearest double is not modelled. *)
Definition Number (s : string) : jsnum :=
  let l := chars (trim s) in
  match l with
  | [] => Fin 0
  | _ =>
      if String.eqb (str l) "Infinity" then Infinity
      else
        match digits 10 l with
        | Some z => finite z
        | None =>
            match decimal_with_exponent l with
            | Some n => n
            | None =>
                match l with
                | z :: p :: ds =>
                    match Ascii.eqb z "0", radix_prefix p with
                    | true, Some base =>
                        match digits base ds with
                        | Some v => finite v
                        | None => NaN
                        end
                    | _, _ => NaN
                    end
                | _ => NaN
                end
            end
        end
  end.

(** [String(v)]. *)
Definition num_to_string (n : jsnum) : string :=
  match n with
  | Fin z => pretty z
  | NaN => "NaN"
  | Infinity => "Infinity"
  end.

Fixpoint to_string (v : jsval) : string :=
  match v with
  | JUndefined => "undefined"
  | JNull => "null"
  | JBool true => "true"
  | JBool false => "false"
  | JNum n => num_to_string n
  | JStr s => s
  | JArr elems =>
      join ","
        (map (fun e => match e with
                       | JUndefined | JNull => EmptyString
                       | _ => to_string e
                       end) elems)
  | JObj _ => "[object Object]"
  | JFun name => "function " ++ name ++ "() { [native code] }"
  end.

(** *** Objects as ordered property lists *)

Fixpoint obj_get {A} (k : string) (o : list (string * A)) : option A :=
  match o with
  | [] => None
  | (k', v) :: o' => if String.eqb k' k then Some v else obj_get k o'
  end.

(** [o[k] = v]: an existing property keeps its place, a new one goes
    last. *)
Fixpoint obj_set {A} (k : string) (v : A) (o : list (string * A))
  : list (string * A) :=
  match o with
  | [] => [(k, v)]
  | (k', v') :: o' =>
      if String.eqb k' k then (k, v) :: o' else (k', v') :: obj_set k v o'
  end.

Fixpoint obj_get_nat {A} (k : nat) (o : list (nat * A)) : option A :=
  match o with
  | [] => None
  | (k', v) :: o' => if Nat.eqb k' k then Some v else obj_get_nat k o'
  end.

(** [o[k]], [undefined] when the property is absent. *)
Definition prop (k : string) (o : list (string * jsval)) : jsval :=
  default JUndefined (obj_get k o).

End Js.

(** ** Regular expressions

    A backtracking matcher with the semantics of the JavaScript engine
    for the constructs the modelled code uses: greedy repetition, ordered
    alternation, capture groups, [^], and leftmost matches. *)

Module Regex.
Import Js.

Inductive regex : Type :=
| Eps
| Bol                              (* ^ *)
| Chr (p : ascii -> bool)          (* a character or a class *)
| Seq (r1 r2 : regex)
| Alt (r1 r2 : regex)              (* r1|r2 *)
| Star (r : regex)                 (* r*, greedy *)
| Group (i : nat) (r : regex).     (* the i-th capture group *)

Definition Plus (r : regex) : regex := Seq r (Star r).
Definition Opt (r : regex) : regex := Alt r Eps.

Definition char (c : ascii) : regex := Chr (Ascii.eqb c).

(** A literal under the [i] flag. *)
Fixpoint lit_ci (l : list ascii) : regex :=
  match l with
  | [] => Eps
  | c :: l' =>
      Seq (Chr (fun x => Ascii.eqb (lower_char x) (lower_char c))) (lit_ci l')
  end.

(** [\w], [\s], [.] and [[^\]]]. *)
Definition word : regex := Chr is_word.
Definition space : regex := Chr is_space.
Definition any : regex :=
  Chr (fun c => negb (Nat.eqb (code c) 10 || Nat.eqb (code c) 13)).
Definition not_rbracket : regex := Chr (fun c => negb (Ascii.eqb c "]")).

(** The recorded groups: group number, start and end offsets, most recent
    first. *)
Definition captures : Type := list (nat * (nat * nat)).

(** [rmatch r pos s caps k]: match [r] against [s], the input from
    offset [pos] on, then continue with [k]; [None] makes the matcher
    backtrack into the previous choice. *)
Fixpoint rmatch {R : Type} (r : regex) (pos : nat) (s : list ascii)
    (caps : captures) (k : nat -> list ascii -> captures -> option R)
  : option R :=
  match r with
  | Eps => k pos s caps
  | Bol => if Nat.eqb pos 0 then k pos s caps else None
  | Chr p =>
      match s with
      | c :: s' => if p c then k (S pos) s' caps else None
      | [] => None
      end
  | Seq r1 r2 =>
      rmatch r1 pos s caps (fun pos' s' caps' => rmatch r2 pos' s' caps' k)
  | Alt r1 r2 =>
      match rmatch r1 pos s caps k with
      | Some x => Some x
      | None => rmatch r2 pos s caps k
      end
  | Star r1 =>
      (fix star (fuel : nat) (pos : nat) (s : list ascii) (caps : captures)
         : option R :=
         match fuel with
         | O => k pos s caps
         | S fuel' =>
             match
               rmatch r1 pos s caps
                 (fun pos' s' caps' =>
                    if Nat.ltb pos pos' then star fuel' pos' s' caps'
                    else None)
             with
             | Some x => Some x
             | None => k pos s caps
             end
         end) (length s) pos s caps
  | Group i r1 =>
      rmatch r1 pos s caps
        (fun pos' s' caps' => k pos' s' ((i, (pos, pos')) :: caps'))
  end.

Definition match_at (r : regex) (pos : nat) (s : list ascii)
  : option (nat * captures) :=
  rmatch r pos s [] (fun e _ caps => Some (e, caps)).

(** One match: start, end, groups. *)
Definition found : Type := (nat * nat * captures)%type.

(** All successive matches of [r] (the [g] flag): [s] is the input from
    offset [pos] on and [skip] counts the characters of the previous match
    still to pass over.  After an empty match the search resumes one
    character further. *)
Fixpoint scan (r : regex) (pos : nat) (s : list ascii) (skip : nat)
  : list found :=
  match skip with
  | S skip' =>
      match s with
      | [] => []
      | _ :: s' => scan r (S pos) s' skip'
      end
  | O =>
      match match_at r pos s with
      | Some (e, caps) =>
          (pos, e, caps) ::
          match s with
          | [] => []
          | _ :: s' => scan r (S pos) s' (e - pos - 1)
          end
      | None =>
          match s with
          | [] => []
          | _ :: s' => scan r (S pos) s' 0
          end
      end
  end.

Definition matches (r : regex) (s : string) : list found :=
  scan r 0 (chars s) 0.

(** [s.match(r)] for [r] without the [g] flag: the leftmost match. *)
Definition exec (r : regex) (s : string) : option found :=
  head (matches r s).

(** [m[i]] for a match [m] of [s]. *)
Definition group (s : string) (m : found) (i : nat) : jsval :=
  match obj_get_nat i (snd m) with
  | Some (b, e) => JStr (str (substring b e (chars s)))
  | None => JUndefined
  end.

(** [s.match(r)] for [r] with the [g] flag: the matched texts. *)
Definition match_g (r : regex) (s : string) : list string :=
  map (fun m : found => str (substring (fst (fst m)) (snd (fst m)) (chars s)))
      (matches r s).

(** [r.test(s)]. *)
Definition test (r : regex) (s : string) : bool :=
  match exec r s with Some _ => true | None => false end.

Fixpoint remove_ranges (ms : list found) (pos : nat) (l : list ascii)
  : list ascii :=
  match l with
  | [] => []
  | c :: l' =>
      if existsb
           (fun m : found =>
              (Nat.leb (fst (fst m)) pos && Nat.ltb pos (snd (fst m)))%bool)
           ms
      then remove_ranges ms (S pos) l'
      else c :: remove_ranges ms (S pos) l'
  end.

(** [s.replace(r, '')] for [r] with the [g] flag. *)
Definition remove_all (r : regex) (s : string) : string :=
  str (remove_ranges (matches r s) 0 (chars s)).

End Regex.

(** ** TemplateParser.js *)

Module TemplateParser.
Import Js Regex.

(** One entry of [template.fields].  [type] is [None] when the definition
    has no [type] property; [pattern] carries the source text of the
    pattern and the expression [new RegExp] makes of it. *)
Record FieldDef : Type := {
  type : option string;
  required : bool;
  pattern : option (string * regex)
}.

(** [fields] lists the properties in the order [Object.entries] gives. *)
Record MessageTemplate : Type := {
  fields : list (string * FieldDef);
  examples : list string
}.

(** A parsed message is an object: [isValid], [errors], and the fields
    that were found. *)
Definition ParsedMessage : Type := list (string * jsval).

(** The second argument of [parseMessage]. *)
Inductive template_arg : Type :=
| ByName (name : string)
| ByDef (template : MessageTemplate).

(** The parser's [_templates] map. *)
Definition templates : Type := gmap string MessageTemplate.

Definition addTemplate (name : string) (template : MessageTemplate)
    (this : templates) : templates :=
  <[name := template]> this.

Definition getTemplate (this : templates) (name : string)
  : option MessageTemplate :=
  this !! name.

(** [!type], for the optional [type] of a field. *)
Definition no_type (t : option string) : bool :=
  match t with
  | None => true
  | Some s => String.eqb s EmptyString
  end.

Definition _convertValueType (value : string) (type : option string) : jsval :=
  if no_type type then JStr value
  else
    match type with
    | Some "number" => JNum (Number value)
    | Some "boolean" => JBool (String.eqb (toLowerCase value) "true")
    | Some "array" => JArr (map (fun v => JStr (trim v)) (split "," value))
    | _ => JStr value
    end.

(** [/^!(\w+)/] *)
Definition commandPattern : regex :=
  Seq Bol (Seq (char "!") (Group 1 (Plus word))).

(** [/(\w+):([\w\s]+)/g] *)
Definition keyValuePattern : regex :=
  Seq (Group 1 (Plus word))
      (Seq (char ":")
           (Group 2 (Plus (Chr (fun c => (is_word c || is_space c)%bool))))).

(** *** Properties of plain objects *)

(** The properties a plain object inherits from [Object.prototype]:
    reading one of them from an object that has no property of its own
    under that name gives a function or an object, never [undefined]. *)
Definition inherited : list string :=
  ["constructor"; "__defineGetter__"; "__defineSetter__"; "hasOwnProperty";
   "__lookupGetter__"; "__lookupSetter__"; "isPrototypeOf";
   "propertyIsEnumerable"; "toString"; "valueOf"; "__proto__";
   "toLocaleString"].

(** What [object[key]] is for a plain object without a property of its
    own under [key]: the function of that name ([Object] for
    [constructor]), the prototype for [__proto__], or [undefined]. *)
Definition inherited_value (key : string) : jsval :=
  if String.eqb key "__proto__" then JObj []
  else if String.eqb key "constructor" then JFun "Object"
  else if existsb (String.eqb key) inherited then JFun key
  else JUndefined.

(** [object[key]], read through the prototype. *)
Definition get_property (key : string) (object : list (string * jsval))
  : jsval :=
  match obj_get key object with
  | Some value => value
  | None => inherited_value key
  end.

(** [!fields[key]], for an object whose own properties are field
    definitions. *)
Definition lacks (fields : list (string * FieldDef)) (key : string) : bool :=
  match obj_get key fields with
  | Some _ => false
  | None => negb (existsb (String.eqb key) inherited)
  end.

(** The array index that a property name spells: a decimal numeral
    without a leading zero, below [2^32 - 1]. *)
Definition array_index (key : string) : option Z :=
  match digits 10 (chars key) with
  | Some n =>
      if (String.eqb (pretty n) key && (n <? 2 ^ 32 - 1))%bool then Some n
      else None
  | None => None
  end.

(** The order in which the properties of an object are listed: array
    indices first, by their value, then the other names as they were
    added. *)
Definition listed_before (key key' : string) : bool :=
  match array_index key, array_index key' with
  | Some n, Some n' => n <? n'
  | Some _, None => true
  | None, _ => false
  end.

(** [object[key] = value] for a property the object does not have. *)
Fixpoint add_property {A} (key : string) (value : A)
    (object : list (string * A)) : list (string * A) :=
  match object with
  | [] => [(key, value)]
  | (key', value') :: rest =>
      if listed_before key key' then (key, value) :: (key', value') :: rest
      else (key', value') :: add_property key value rest
  end.

(** [object[key] = value] on a plain object: a property the object has
    keeps its place, and a new one takes the place its name gives it.
    The name [__proto__] is the prototype, not a property: a string, a
    number or a boolean assigned to it is dropped.  (An array assigned
    to it would become the prototype; that takes a template with a field
    of its own under this name and of type [array], and is not
    followed.) *)
Definition set_property (key : string) (value : jsval)
    (object : list (string * jsval)) : list (string * jsval) :=
  if String.eqb key "__proto__" then object
  else
    match obj_get key object with
    | Some _ => obj_set key value object
    | None => add_property key value object
    end.

(** [template.fields[key]?.type] *)
Definition field_type (template : MessageTemplate) (key : string)
  : option string :=
  match obj_get key (fields template) with
  | Some def => type def
  | None => None
  end.

(** The body of the loop over [keyValuePairs]. *)
Definition parse_pair (template : MessageTemplate) (result : ParsedMessage)
    (pair : string) : ParsedMessage :=
  match split ":" pair with
  | key :: value :: _ =>
      if (truthy (JStr key) && truthy (JStr value))%bool then
        set_property (trim key)
          (_convertValueType (trim value) (field_type template key))
          result
      else result
  | _ => result
  end.

Definition field_errors (parsed : ParsedMessage) (field : string)
    (def : FieldDef) : list string :=
  let v := get_property field parsed in
  (if (required def && (is_undefined v || is_null v))%bool
   then ["Required field " ++ dquote ++ field ++ dquote ++ " is missing"]
   else [])
  ++
  (if (negb (is_undefined v) && negb (no_type (type def)))%bool then
     match type def with
     | Some "number" =>
         if negb (String.eqb (typeof v) "number")
         then ["Field " ++ dquote ++ field ++ dquote ++ " should be a number"]
         else []
     | Some "boolean" =>
         if negb (String.eqb (typeof v) "boolean")
         then ["Field " ++ dquote ++ field ++ dquote ++ " should be a boolean"]
         else []
     | Some "array" =>
         if negb (isArray v)
         then ["Field " ++ dquote ++ field ++ dquote ++ " should be an array"]
         else []
     | _ => []
     end
   else [])
  ++
  (if negb (is_undefined v) then
     match pattern def with
     | Some (source, re) =>
         if (negb (String.eqb source EmptyString) && negb (test re (to_string v)))%bool
         then ["Field " ++ dquote ++ field ++ dquote
               ++ " does not match pattern " ++ source]
         else []
     | None => []
     end
   else []).

Definition validateParsedMessage (parsed : ParsedMessage)
    (template : MessageTemplate) : ParsedMessage :=
  let errors :=
    flat_map
      (fun fd : string * FieldDef => field_errors parsed (fst fd) (snd fd))
      (fields template) in
  let result := obj_set "errors" (JArr (map JStr errors)) parsed in
  obj_set "isValid" (JBool (Nat.eqb (length errors) 0)) result.

(** The part of [parseMessage] after the template has been resolved. *)
Definition parse_with (message : string) (template : MessageTemplate)
  : ParsedMessage :=
  let result := [("isValid", JBool true); ("errors", JArr [])] in
  let result :=
    match exec commandPattern message with
    | Some commandMatch =>
        obj_set "command" (group message commandMatch 1) result
    | None => result
    end in
  let keyValuePairs := match_g keyValuePattern message in
  let result := fold_left (parse_pair template) keyValuePairs result in
  validateParsedMessage result template.

Definition parseMessage (this : templates) (message : string)
    (template : template_arg) : ParsedMessage :=
  match template with
  | ByName name =>
      match getTemplate this name with
      | None =>
          [("isValid", JBool false);
           ("errors",
            JArr [JStr ("Template " ++ dquote ++ name ++ dquote
                        ++ " not found")])]
      | Some templateDef => parse_with message templateDef
      end
  | ByDef template => parse_with message template
  end.

(** *** [generateTemplate] *)

(** The type guessed from a value. *)
Definition guess_type (trimmedValue : string) : string :=
  match Number trimmedValue with
  | NaN =>
      if (String.eqb trimmedValue "true" || String.eqb trimmedValue "false")%bool
      then "boolean" else "string"
  | _ => "number"
  end.

(** The body of the loop over [keyValuePairs]. *)
Definition generate_pair (fields : list (string * FieldDef)) (pair : string)
  : list (string * FieldDef) :=
  match split ":" pair with
  | key :: value :: _ =>
      if (truthy (JStr key) && truthy (JStr value))%bool then
        let trimmedKey := trim key in
        let trimmedValue := trim value in
        if lacks fields trimmedKey then
          add_property trimmedKey
            {| type := Some (guess_type trimmedValue); required := false;
               pattern := None |}
            fields
        else fields
      else fields
  | _ => fields
  end.

(** The body of the loop over [examples]. *)
Definition generate_example (fields : list (string * FieldDef))
    (example : string) : list (string * FieldDef) :=
  let fields :=
    match exec commandPattern example with
    | Some _ =>
        if lacks fields "command" then
          add_property "command"
            {| type := Some "string"; required := true; pattern := None |}
            fields
        else fields
    | None => fields
    end in
  fold_left generate_pair (match_g keyValuePattern example) fields.

Definition generateTemplate (examples : list string) : MessageTemplate :=
  {| fields := fold_left generate_example examples [];
     examples := examples |}.

End TemplateParser.

(** ** Outcomes and the data of the assistant *)

Module Runtime.
Import Js.

(** A thrown [Error] object; [message_of] is its [message]. *)
Inductive js_error : Type :=
| Error (message : string)
| TypeError (message : string).

Definition message_of (e : js_error) : string :=
  match e with
  | Error m | TypeError m => m
  end.

(** How a call ends: it returns a value or throws. *)
Inductive outcome (A : Type) : Type :=
| Return (a : A)
| Throw (e : js_error).
Arguments Return {A} a.
Arguments Throw {A} e.

(** Stateful code over a state [S]. *)
Definition M (S A : Type) : Type := S -> outcome A * S.

Definition ret {S A} (a : A) : M S A := fun s => (Return a, s).
Definition throw {S A} (e : js_error) : M S A := fun s => (Throw e, s).

Definition bind {S A B} (m : M S A) (k : A -> M S B) : M S B :=
  fun s =>
    match m s with
    | (Return a, s') => k a s'
    | (Throw e, s') => (Throw e, s')
    end.

(** [try { m } catch (error) { handler error }] *)
Definition try_catch {S A} (m : M S A) (handler : js_error -> M S A) : M S A :=
  fun s =>
    match m s with
    | (Return a, s') => (Return a, s')
    | (Throw e, s') => handler e s'
    end.

Definition gets {S A} (f : S -> A) : M S A := fun s => (Return (f s), s).
Definition modify {S} (f : S -> S) : M S unit := fun s => (Return tt, f s).

Declare Scope js_scope.
Delimit Scope js_scope with js.
Notation "'let*' x ':=' m 'in' k" := (bind m (fun x => k))
  (at level 10, x name, m at level 100, k at level 200) : js_scope.
Notation "'do' m 'in' k" := (bind m (fun _ => k))
  (at level 10, m at level 100, k at level 200) : js_scope.

(** An entry of a history array, or of the messages sent to the backend:
    [{role, content}], with [name] for a function result. *)
Record Message : Type := {
  role : string;
  name : option string;
  content : jsval
}.

(** The options of [ask] and [processMessage] that the modelled code
    reads.  Each is [JUndefined] when the caller left it out. *)
Record Options : Type := {
  ignoreHandoffState : jsval;
  fallbackResponse : jsval;
  fallbackProvider : jsval;
  handoffOnError : jsval
}.

Definition no_options : Options :=
  {| ignoreHandoffState := JUndefined; fallbackResponse := JUndefined;
     fallbackProvider := JUndefined; handoffOnError := JUndefined |}.

(** An array lives in a store and is referred to by its address: the
    thread and its stored snapshot share the history array. *)
Definition addr : Type := nat.

(** What the storage adapter keeps for a chat. *)
Record ThreadData : Type := {
  td_chatId : string;
  td_context : list (string * jsval);
  td_history : addr;
  td_lastUsed : Z
}.

(** A [Thread] object ([_assistant] and [_provider] are those of the
    assistant it belongs to). *)
Record Thread : Type := {
  chatId : string;
  _context : list (string * jsval);
  _history : addr;
  lastUsed : Z
}.

Record HandoffState : Type := {
  isHumanMode : bool;
  handoffTime : Z;
  reason : string;
  metadata : jsval;
  threadId : string
}.

(** The handoff state as the object it is in JavaScript. *)
Definition handoff_object (h : HandoffState) : list (string * jsval) :=
  [("isHumanMode", JBool (isHumanMode h));
   ("handoffTime", JNum (Fin (handoffTime h)));
   ("reason", JStr (reason h));
   ("metadata", metadata h);
   ("threadId", JStr (threadId h))].

(** The context object handed to the middleware.  [thread] stays [None]
    until [ask] has a thread. *)
Record Context : Type := {
  c_chatId : string;
  c_prompt : string;
  c_options : Options;
  c_response : jsval;
  c_thread : option Thread;
  c_error : jsval
}.

(** A middleware step, [async (context, next) => { ... }], as a program
    made of what the steps of the repository's examples do:
    - [MwRead k]: read the context, and go on with [k context];
    - [MwSetResponse v k], [MwSetError v k]: [context.response = v],
      [context.error = v];
    - [MwUseThread k]: unless [context.thread] is set already, get the
      thread of the chat from [assistant._threads], or from [await
      assistant.createThread(context.chatId)] if there is none, and
      assign it to [context.thread];
    - [MwAddContext key value k]: [context.thread.addContext(key, value)];
    - [MwTry block handler k]:
      [try { block } catch (error) { handler error }], followed by [k];
      the end of the block or of the handler is their [MwReturn];
    - [MwNext k]: [await next()], any number of times in a step;
    - [MwReturn], [MwThrow e]: the step returns, or throws.
    Of the context a step assigns [response], [error] and, by
    [MwUseThread], [thread]; [ask] has the prompt and the options from
    its own arguments, not from the context.  A step does not call
    [ask], [use] or the handoff methods of the assistant, and what it
    does depends on the context alone: a step that keeps a state of its
    own between the requests (a counter, say) is not one program of
    this kind. *)
Inductive middleware : Type :=
| MwReturn
| MwThrow (e : js_error)
| MwRead (k : Context -> middleware)
| MwSetResponse (v : jsval) (k : middleware)
| MwSetError (v : jsval) (k : middleware)
| MwUseThread (k : middleware)
| MwAddContext (key : string) (value : jsval) (k : middleware)
| MwTry (block : middleware) (handler : js_error -> middleware)
        (k : middleware)
| MwNext (k : middleware).

(** One answer of a generation backend to [generateResponse]. *)
Inductive reply : Type :=
| Content (content : jsval)
| FunctionCall (content : jsval) (fname : string) (arguments : string)
| Failure (e : js_error).

(** A registered function, from the text of its JSON arguments: it
    returns, or [JSON.parse] or the function itself throws. *)
Definition registered_function : Type := string -> outcome jsval.

Record Stats : Type := {
  requests : Z;
  errors : Z;
  startTime : Z;
  requestTimes : list Z
}.

(** The human operator's handlers; a handler returns or throws. *)
Record HumanHandlers : Type := {
  onHandoff : option (string -> Thread -> HandoffState -> outcome unit);
  onMessage : option (string -> string -> option HandoffState -> outcome jsval);
  onRelease : option (string -> Thread -> string -> jsval -> outcome unit)
}.

(** The assistant, the in-memory storage adapter it owns, and what
    surrounds them: the store of arrays, the registry of backends
    ([AIProvider.providers]), the answers the backend is going to give,
    a record of the requests it has received, and a record of the
    middleware steps that were started (by position in [_middleware]). *)
Record assistant : Type := {
  config_provider : string;
  memory_ttl : Z;
  memory_maxThreads : Z;
  _storage : gmap string ThreadData;
  _threads : list (string * Thread);
  _functions : gmap string registered_function;
  _middleware : list middleware;
  _stats : Stats;
  _handoffState : list (string * HandoffState);
  _humanHandlers : HumanHandlers;
  arrays : list (list Message);
  providers : list string;
  backend : list reply;
  backend_calls : list (list Message);
  middleware_ran : list nat
}.

Definition set_storage (f : gmap string ThreadData -> gmap string ThreadData)
    (a : assistant) : assistant :=
  {| config_provider := config_provider a; memory_ttl := memory_ttl a;
     memory_maxThreads := memory_maxThreads a; _storage := f (_storage a);
     _threads := _threads a; _functions := _functions a;
     _middleware := _middleware a; _stats := _stats a;
     _handoffState := _handoffState a; _humanHandlers := _humanHandlers a;
     arrays := arrays a; providers := providers a; backend := backend a;
     backend_calls := backend_calls a; middleware_ran := middleware_ran a |}.

Definition set_threads (f : list (string * Thread) -> list (string * Thread))
    (a : assistant) : assistant :=
  {| config_provider := config_provider a; memory_ttl := memory_ttl a;
     memory_maxThreads := memory_maxThreads a; _storage := _storage a;
     _threads := f (_threads a); _functions := _functions a;
     _middleware := _middleware a; _stats := _stats a;
     _handoffState := _handoffState a; _humanHandlers := _humanHandlers a;
     arrays := arrays a; providers := providers a; backend := backend a;
     backend_calls := backend_calls a; middleware_ran := middleware_ran a |}.

Definition set_functions
    (f : gmap string registered_function -> gmap string registered_function)
    (a : assistant) : assistant :=
  {| config_provider := config_provider a; memory_ttl := memory_ttl a;
     memory_maxThreads := memory_maxThreads a; _storage := _storage a;
     _threads := _threads a; _functions := f (_functions a);
     _middleware := _middleware a; _stats := _stats a;
     _handoffState := _handoffState a; _humanHandlers := _humanHandlers a;
     arrays := arrays a; providers := providers a; backend := backend a;
     backend_calls := backend_calls a; middleware_ran := middleware_ran a |}.

Definition set_middleware (f : list middleware -> list middleware)
    (a : assistant) : assistant :=
  {| config_provider := config_provider a; memory_ttl := memory_ttl a;
     memory_maxThreads := memory_maxThreads a; _storage := _storage a;
     _threads := _threads a; _functions := _functions a;
     _middleware := f (_middleware a); _stats := _stats a;
     _handoffState := _handoffState a; _humanHandlers := _humanHandlers a;
     arrays := arrays a; providers := providers a; backend := backend a;
     backend_calls := backend_calls a; middleware_ran := middleware_ran a |}.

Definition set_stats (f : Stats -> Stats) (a : assistant) : assistant :=
  {| config_provider := config_provider a; memory_ttl := memory_ttl a;
     memory_maxThreads := memory_maxThreads a; _storage := _storage a;
     _threads := _threads a; _functions := _functions a;
     _middleware := _middleware a; _stats := f (_stats a);
     _handoffState := _handoffState a; _humanHandlers := _humanHandlers a;
     arrays := arrays a; providers := providers a; backend := backend a;
     backend_calls := backend_calls a; middleware_ran := middleware_ran a |}.

Definition set_handoffState
    (f : list (string * HandoffState) -> list (string * HandoffState))
    (a : assistant) : assistant :=
  {| config_provider := config_provider a; memory_ttl := memory_ttl a;
     memory_maxThreads := memory_maxThreads a; _storage := _storage a;
     _threads := _threads a; _functions := _functions a;
     _middleware := _middleware a; _stats := _stats a;
     _handoffState := f (_handoffState a); _humanHandlers := _humanHandlers a;
     arrays := arrays a; providers := providers a; backend := backend a;
     backend_calls := backend_calls a; middleware_ran := middleware_ran a |}.

Definition set_humanHandlers (f : HumanHandlers -> HumanHandlers)
    (a : assistant) : assistant :=
  {| config_provider := config_provider a; memory_ttl := memory_ttl a;
     memory_maxThreads := memory_maxThreads a; _storage := _storage a;
     _threads := _threads a; _functions := _functions a;
     _middleware := _middleware a; _stats := _stats a;
     _handoffState := _handoffState a; _humanHandlers := f (_humanHandlers a);
     arrays := arrays a; providers := providers a; backend := backend a;
     backend_calls := backend_calls a; middleware_ran := middleware_ran a |}.

Definition set_arrays (f : list (list Message) -> list (list Message))
    (a : assistant) : assistant :=
  {| config_provider := config_provider a; memory_ttl := memory_ttl a;
     memory_maxThreads := memory_maxThreads a; _storage := _storage a;
     _threads := _threads a; _functions := _functions a;
     _middleware := _middleware a; _stats := _stats a;
     _handoffState := _handoffState a; _humanHandlers := _humanHandlers a;
     arrays := f (arrays a); providers := providers a; backend := backend a;
     backend_calls := backend_calls a; middleware_ran := middleware_ran a |}.

(** The backend receives [messages] and is left with the answers [rest]. *)
Definition backend_called (messages : list Message) (rest : list reply)
    (a : assistant) : assistant :=
  {| config_provider := config_provider a; memory_ttl := memory_ttl a;
     memory_maxThreads := memory_maxThreads a; _storage := _storage a;
     _threads := _threads a; _functions := _functions a;
     _middleware := _middleware a; _stats := _stats a;
     _handoffState := _handoffState a; _humanHandlers := _humanHandlers a;
     arrays := arrays a; providers := providers a; backend := rest;
     backend_calls := (backend_calls a ++ [messages])%list;
     middleware_ran := middleware_ran a |}.

(** The middleware step at position [i] starts. *)
Definition middleware_started (i : nat) (a : assistant) : assistant :=
  {| config_provider := config_provider a; memory_ttl := memory_ttl a;
     memory_maxThreads := memory_maxThreads a; _storage := _storage a;
     _threads := _threads a; _functions := _functions a;
     _middleware := _middleware a; _stats := _stats a;
     _handoffState := _handoffState a; _humanHandlers := _humanHandlers a;
     arrays := arrays a; providers := providers a; backend := backend a;
     backend_calls := backend_calls a;
     middleware_ran := (middleware_ran a ++ [i])%list |}.

(** *** The [Map] of the language: insertion-ordered, one entry a key *)

Definition map_get {A} (k : string) (m : list (string * A)) : option A :=
  obj_get k m.

Definition map_has {A} (k : string) (m : list (string * A)) : bool :=
  match obj_get k m with Some _ => true | None => false end.

Definition map_set {A} (k : string) (v : A) (m : list (string * A))
  : list (string * A) :=
  obj_set k v m.

Definition map_delete {A} (k : string) (m : list (string * A))
  : list (string * A) :=
  filter (fun kv => negb (String.eqb (fst kv) k)) m.

Definition map_size {A} (m : list (string * A)) : Z := Z.of_nat (length m).

(** *** The store of arrays *)

(** The array at an address (every address the code uses has been
    allocated). *)
Definition array_at (a : assistant) (l : addr) : list Message :=
  default [] (arrays a !! l).

(** [array.push(m)] *)
Definition push (l : addr) (m : Message) (a : assistant) : assistant :=
  set_arrays (fun arrs => <[l := (array_at a l ++ [m])%list]> arrs) a.

(** A new array with the given elements; its address. *)
Definition alloc (elems : list Message) (a : assistant) : addr * assistant :=
  (length (arrays a), set_arrays (fun arrs => (arrs ++ [elems])%list) a).

(** [array.slice(-n)]: the last [n] elements, as a new list. *)
Definition slice_last (n : nat) (l : list Message) : list Message :=
  drop (length l - n) l.

End Runtime.

(** ** storage/ThreadStorage.js: [MemoryThreadStorage] *)

Module MemoryThreadStorage.
Import Js Runtime.

(** [now] is the value of [Date.now()]. *)
Definition getThread (chatId : string) (now : Z)
  : M assistant (option ThreadData) :=
  fun a =>
    match _storage a !! chatId with
    | None => (Return None, a)
    | Some thread =>
        if (negb (memory_ttl a =? 0)
            && (memory_ttl a * 1000 <? now - td_lastUsed thread))%bool
        then (Return None, set_storage (delete chatId) a)
        else (Return (Some thread), a)
    end.

Definition saveThread (threadData : ThreadData) : M assistant unit :=
  modify (set_storage <[td_chatId threadData := threadData]>).

Definition deleteThread (chatId : string) : M assistant bool :=
  fun a =>
    (Return (bool_decide (is_Some (_storage a !! chatId))),
     set_storage (delete chatId) a).

End MemoryThreadStorage.

(** [AIAssistant.saveThread], which [Thread] calls back. *)
Definition saveThread (thread : Runtime.Thread)
  : Runtime.M Runtime.assistant unit :=
  MemoryThreadStorage.saveThread
    {| Runtime.td_chatId := Runtime.chatId thread;
       Runtime.td_context := Runtime._context thread;
       Runtime.td_history := Runtime._history thread;
       Runtime.td_lastUsed := Runtime.lastUsed thread |}.

(** ** Thread.js

    A method of a thread runs on the thread and the assistant it belongs
    to. *)

Module Thread.
Import Js Runtime.
Local Open Scope js_scope.

Definition on_assistant {A} (m : M assistant A) : M (Thread * assistant) A :=
  fun s =>
    match m (snd s) with
    | (r, a') => (r, (fst s, a'))
    end.

Definition modify_this (f : Thread -> Thread) : M (Thread * assistant) unit :=
  modify (fun s => (f (fst s), snd s)).

Definition this_history : M (Thread * assistant) (list Message) :=
  gets (fun s => array_at (snd s) (_history (fst s))).

Definition provider_registered (a : assistant) (name : string) : bool :=
  existsb (String.eqb name) (providers a).

(** [new Thread(assistant, chatId, data)]; [AIProvider.create] throws
    for a backend that is not registered. *)
Definition constructor (chatId : string) (data : ThreadData) (now : Z)
  : M assistant Thread :=
  fun a =>
    if provider_registered a (config_provider a) then
      (Return {| chatId := chatId;
                 _context := td_context data;
                 _history := td_history data;
                 lastUsed := if td_lastUsed data =? 0 then now
                             else td_lastUsed data |}, a)
    else
      (Throw (Error ("Unsupported AI provider: " ++ config_provider a)), a).

Definition _saveChanges : M (Thread * assistant) unit :=
  let* this := gets fst in
  on_assistant (saveThread this).

Definition addContext (key : string) (value : jsval)
  : M (Thread * assistant) unit :=
  do modify_this (fun t =>
    {| chatId := chatId t; _context := map_set key value (_context t);
       _history := _history t; lastUsed := lastUsed t |}) in
  _saveChanges.

Definition getContext (this : Thread) : list (string * jsval) :=
  _context this.

Definition _handleFunctionCall (a : assistant) (fname arguments : string)
  : outcome jsval :=
  match _functions a !! fname with
  | None => Throw (Error ("Function " ++ fname ++ " not found"))
  | Some fn =>
      match fn arguments with
      | Return v => Return v
      | Throw error => Return (JObj [("error", JStr (message_of error))])
      end
  end.

(** The [catch] block of [_callAI].  A call of the fallback backend
    takes the next answer. *)
Definition recover (error : js_error) (messages : list Message)
    (options : Options) : M assistant jsval :=
  fun a =>
    if truthy (fallbackResponse options) then
      (Return (fallbackResponse options), a)
    else if truthy (fallbackProvider options) then
      if provider_registered a (to_string (fallbackProvider options)) then
        match backend a with
        | Content c :: rest | FunctionCall c _ _ :: rest =>
            (Return c, backend_called messages rest a)
        | Failure _ :: rest => (Throw error, backend_called messages rest a)
        | [] => (Throw error, backend_called messages [] a)
        end
      else (Throw error, a)
    else (Throw error, a).

(** [_callAI], with [script] the answers the backend still has: the
    [while] loop of the source goes round once for each answer that
    asks for a function.  The backend is not part of the modelled code;
    what stands for it is the list of the answers it gives, one for
    each request, and the recursion is on that list.  A backend that
    asks for a function at every request without end, with which the
    loop of the source does not end, is therefore not modelled, and the
    rejection at the end of the list is the model's, not the source's.
    The system prompt and the
    function definitions, which only the backend reads, are left out,
    and a function result is passed on as it is where the source passes
    its JSON text. *)
Fixpoint _callAI_loop (script : list reply) (messages : list Message)
    (options : Options) (a : assistant) : outcome jsval * assistant :=
  match script with
  | [] =>
      recover (Error "The generation backend did not answer") messages options
              (backend_called messages [] a)
  | r :: rest =>
      let a1 := backend_called messages rest a in
      match r with
      | Content c => (Return c, a1)
      | Failure error => recover error messages options a1
      | FunctionCall c fname arguments =>
          match _handleFunctionCall a1 fname arguments with
          | Throw error => recover error messages options a1
          | Return result =>
              _callAI_loop rest
                (messages ++
                 [ {| role := "assistant"; name := None; content := c |};
                   {| role := "function"; name := Some fname;
                      content := result |} ])%list
                options a1
          end
      end
  end.

Definition _callAI (messages : list Message) (options : Options)
  : M assistant jsval :=
  fun a => _callAI_loop (backend a) messages options a.

Definition ask (prompt : string) (options : Options) (now : Z)
  : M (Thread * assistant) jsval :=
  do modify_this (fun t =>
    {| chatId := chatId t; _context := _context t;
       _history := _history t; lastUsed := now |}) in
  let* this := gets fst in
  do on_assistant (modify (push (_history this)
    {| role := "user"; name := None; content := JStr prompt |})) in
  let* messages := this_history in
  let* response := on_assistant (_callAI messages options) in
  do on_assistant (modify (push (_history this)
    {| role := "assistant"; name := None; content := response |})) in
  let* history := this_history in
  do (if Nat.ltb 20 (length history) then
        let* l := on_assistant (fun a =>
                    match alloc (slice_last 20 history) a with
                    | (l, a') => (Return l, a')
                    end) in
        modify_this (fun t =>
          {| chatId := chatId t; _context := _context t;
             _history := l; lastUsed := lastUsed t |})
      else ret tt) in
  do _saveChanges in
  ret response.

End Thread.

(** ** AIAssistant.js *)

Module AIAssistant.
Import Js Regex Runtime.
Local Open Scope js_scope.

(** The options of the constructor that the modelled code reads. *)
Record AssistantOptions : Type := {
  o_provider : option string;
  o_ttl : option Z;
  o_maxThreads : option Z
}.

(** [new AIAssistant(client, options)], at time [now], in a world with
    the given registered backends and backend answers.  An option that
    is missing or falsy gets its default ([x || default]).  The storage
    adapter is the in-memory one; [storageOptions] and the options that
    only the backend reads are left out. *)
Definition constructor (options : AssistantOptions) (now : Z)
    (registry : list string) (answers : list reply) : assistant :=
  {| config_provider :=
       match o_provider options with
       | Some p => if String.eqb p EmptyString then "openai" else p
       | None => "openai"
       end;
     memory_ttl :=
       match o_ttl options with
       | Some t => if t =? 0 then 3600 else t
       | None => 3600
       end;
     memory_maxThreads :=
       match o_maxThreads options with
       | Some n => if n =? 0 then 1000 else n
       | None => 1000
       end;
     _storage := ∅;
     _threads := [];
     _functions := ∅;
     _middleware := [];
     _stats := {| requests := 0; errors := 0; startTime := now;
                  requestTimes := [] |};
     _handoffState := [];
     _humanHandlers := {| onHandoff := None; onMessage := None;
                          onRelease := None |};
     arrays := [];
     providers := registry;
     backend := answers;
     backend_calls := [];
     middleware_ran := [] |}.

Definition use (middleware : middleware) : M assistant unit :=
  modify (set_middleware (fun l => (l ++ [middleware])%list)).

(** *** Threads *)

Definition isInHumanMode (a : assistant) (chatId : string) : bool :=
  (map_has chatId (_handoffState a) &&
   match map_get chatId (_handoffState a) with
   | Some state => isHumanMode state
   | None => false
   end)%bool.

(** A method call on a thread of the working set: the changes the method
    makes to the thread are changes to the object in [_threads]. *)
Definition call_thread {A} (thread : Thread) (m : M (Thread * assistant) A)
  : M assistant (A * Thread) :=
  fun a =>
    match m (thread, a) with
    | (r, (thread', a')) =>
        let a'' :=
          set_threads
            (map (fun kv : string * Thread =>
                    if String.eqb (fst kv) (chatId thread')
                    then (fst kv, thread') else kv)) a' in
        match r with
        | Return x => (Return (x, thread'), a'')
        | Throw e => (Throw e, a'')
        end
    end.

(** [threads.sort((a, b) => a[1].lastUsed - b[1].lastUsed)]: a stable
    sort. *)
Fixpoint insert_by_lastUsed (x : string * Thread)
    (l : list (string * Thread)) : list (string * Thread) :=
  match l with
  | [] => [x]
  | y :: l' =>
      if lastUsed (snd x) <=? lastUsed (snd y) then x :: y :: l'
      else y :: insert_by_lastUsed x l'
  end.

Definition sort_by_lastUsed (l : list (string * Thread))
  : list (string * Thread) :=
  foldr insert_by_lastUsed [] l.

(** The loop of [_cleanupOldThreads] over the sorted entries; destructuring
    the [undefined] that [shift] gives for an empty array throws. *)
Fixpoint evict (threads : list (string * Thread)) : M assistant unit :=
  fun a =>
    if memory_maxThreads a <=? map_size (_threads a) then
      match threads with
      | [] => (Throw (TypeError "undefined is not iterable"), a)
      | (chatId, thread) :: threads' =>
          (do saveThread thread in
           do modify (set_threads (map_delete chatId)) in
           evict threads') a
      end
    else (Return tt, a).

Definition _cleanupOldThreads : M assistant unit :=
  fun a => evict (sort_by_lastUsed (_threads a)) a.

Definition createThread (chatId : string) (now : Z) : M assistant Thread :=
  do (fun a =>
        if memory_maxThreads a <=? map_size (_threads a)
        then _cleanupOldThreads a else (Return tt, a)) in
  let* threadData := MemoryThreadStorage.getThread chatId now in
  let* threadData :=
    match threadData with
    | Some data => ret data
    | None =>
        fun a =>
          match alloc [] a with
          | (l, a') =>
              (Return {| td_chatId := chatId; td_context := [];
                         td_history := l; td_lastUsed := now |}, a')
          end
    end in
  let* thread := Thread.constructor chatId threadData now in
  do modify (set_threads (map_set chatId thread)) in
  ret thread.

Definition registerFunctions (functions : list (string * registered_function))
  : M assistant unit :=
  modify (set_functions (fun m =>
    fold_left (fun m kv => <[fst kv := snd kv]> m) functions m)).

(** [this._threads.get(chatId)], or [createThread] when there is none. *)
Definition thread_for (chatId : string) (now : Z) : M assistant Thread :=
  let* known := gets (fun a => map_get chatId (_threads a)) in
  match known with
  | Some thread => ret thread
  | None => createThread chatId now
  end.

(** *** The middleware chain *)

(** The variables of [_executeMiddleware]: [index] and the context
    object. *)
Record chain_state : Type := {
  index : nat;
  context : Context
}.

Definition set_response (v : jsval) (s : chain_state) : chain_state :=
  {| index := index s;
     context := {| c_chatId := c_chatId (context s);
                   c_prompt := c_prompt (context s);
                   c_options := c_options (context s);
                   c_response := v;
                   c_thread := c_thread (context s);
                   c_error := c_error (context s) |} |}.

Definition set_error (v : jsval) (s : chain_state) : chain_state :=
  {| index := index s;
     context := {| c_chatId := c_chatId (context s);
                   c_prompt := c_prompt (context s);
                   c_options := c_options (context s);
                   c_response := c_response (context s);
                   c_thread := c_thread (context s);
                   c_error := v |} |}.

Definition set_thread (thread : Thread) (s : chain_state) : chain_state :=
  {| index := index s;
     context := {| c_chatId := c_chatId (context s);
                   c_prompt := c_prompt (context s);
                   c_options := c_options (context s);
                   c_response := c_response (context s);
                   c_thread := Some thread;
                   c_error := c_error (context s) |} |}.

(** The body of one step, given what [next] does, on the variables of
    the chain and the assistant. *)
Fixpoint run_step (now : Z) (next : M (chain_state * assistant) unit)
    (step : middleware) (sa : chain_state * assistant) {struct step}
  : outcome unit * (chain_state * assistant) :=
  match step with
  | MwReturn => (Return tt, sa)
  | MwThrow e => (Throw e, sa)
  | MwRead k => run_step now next (k (context (fst sa))) sa
  | MwSetResponse v k => run_step now next k (set_response v (fst sa), snd sa)
  | MwSetError v k => run_step now next k (set_error v (fst sa), snd sa)
  | MwUseThread k =>
      match c_thread (context (fst sa)) with
      | Some _ => run_step now next k sa
      | None =>
          match thread_for (c_chatId (context (fst sa))) now (snd sa) with
          | (Return thread, a') =>
              run_step now next k (set_thread thread (fst sa), a')
          | (Throw e, a') => (Throw e, (fst sa, a'))
          end
      end
  | MwAddContext key value k =>
      match c_thread (context (fst sa)) with
      | Some thread =>
          match call_thread thread (Thread.addContext key value) (snd sa) with
          | (Return changed, a') =>
              run_step now next k (set_thread (snd changed) (fst sa), a')
          | (Throw e, a') => (Throw e, (fst sa, a'))
          end
      | None =>
          (Throw (TypeError
                    "Cannot read properties of null (reading 'addContext')"),
           sa)
      end
  | MwTry block handler k =>
      match run_step now next block sa with
      | (Return _, sa') => run_step now next k sa'
      | (Throw e, sa') =>
          match run_step now next (handler e) sa' with
          | (Return _, sa'') => run_step now next k sa''
          | (Throw e', sa'') => (Throw e', sa'')
          end
      end
  | MwNext k =>
      match next sa with
      | (Return _, sa') => run_step now next k sa'
      | (Throw e, sa') => (Throw e, sa')
      end
  end.

(** The closure [next]: [depth] bounds how deep the calls of [next] may
    nest, which is at most the number of steps, since each call moves
    [index] forward before it runs a step. *)
Fixpoint next (now : Z) (steps : list middleware) (depth : nat)
    (sa : chain_state * assistant)
  : outcome unit * (chain_state * assistant) :=
  match depth with
  | O => (Return tt, sa)
  | S depth' =>
      match steps !! index (fst sa) with
      | Some middleware =>
          run_step now (next now steps depth') middleware
            ({| index := S (index (fst sa)); context := context (fst sa) |},
             middleware_started (index (fst sa)) (snd sa))
      | None => (Return tt, sa)
      end
  end.

(** [_executeMiddleware(context)], at time [now]. *)
Definition _executeMiddleware (context : Context) (now : Z)
  : M assistant Context :=
  fun a =>
    match next now (_middleware a) (length (_middleware a))
               ({| index := 0; context := context |}, a) with
    | (Return _, (s, a')) => (Return (AIAssistant.context s), a')
    | (Throw e, (_, a')) => (Throw e, a')
    end.

(** *** [ask] *)

Definition requests_incremented (s : Stats) : Stats :=
  {| requests := requests s + 1; errors := errors s;
     startTime := startTime s; requestTimes := requestTimes s |}.

Definition errors_incremented (s : Stats) : Stats :=
  {| requests := requests s; errors := errors s + 1;
     startTime := startTime s; requestTimes := requestTimes s |}.

(** [requestTimes.push(requestTime)], then [shift()] above 100 entries. *)
Definition time_recorded (requestTime : Z) (s : Stats) : Stats :=
  let times := (requestTimes s ++ [requestTime])%list in
  {| requests := requests s; errors := errors s;
     startTime := startTime s;
     requestTimes := if Nat.ltb 100 (length times) then tail times
                     else times |}.

Definition human_mode_message : string :=
  "Cannot use AI to respond while in human mode. Use releaseToAI first or set ignoreHandoffState option.".

(** [ask(chatId, prompt, options)] at time [now]; the clock does not
    advance while the call runs. *)
Definition ask (chatId prompt : string) (options : Options) (now : Z)
  : M assistant jsval :=
  fun a =>
    if (isInHumanMode a chatId
        && negb (truthy (ignoreHandoffState options)))%bool
    then (Throw (Error human_mode_message), a)
    else
      (do modify (set_stats requests_incremented) in
       try_catch
         (let* context :=
            _executeMiddleware
              {| c_chatId := chatId; c_prompt := prompt;
                 c_options := options; c_response := JNull;
                 c_thread := None; c_error := JNull |} now in
          if truthy (c_response context) then ret (c_response context)
          else
            let* known := gets (fun a => map_get chatId (_threads a)) in
            let* thread :=
              match c_thread context, known with
              | Some thread, _ => ret thread
              | None, Some thread => ret thread
              | None, None => createThread chatId now
              end in
            let* answer := call_thread thread (Thread.ask prompt options now) in
            do modify (set_stats (time_recorded 0)) in
            ret (fst answer))
         (fun error =>
            do modify (set_stats errors_incremented) in
            if truthy (fallbackResponse options)
            then ret (fallbackResponse options)
            else throw error)) a.

(** *** The handoff state machine *)

Definition registerHumanHandlers (handlers : HumanHandlers)
  : M assistant unit :=
  modify (set_humanHandlers (fun h =>
    {| onHandoff := match onHandoff handlers with
                    | Some f => Some f
                    | None => onHandoff h
                    end;
       onMessage := match onMessage handlers with
                    | Some f => Some f
                    | None => onMessage h
                    end;
       onRelease := match onRelease handlers with
                    | Some f => Some f
                    | None => onRelease h
                    end |})).

(** A handler is awaited inside [try]/[catch]: what it throws is logged
    and dropped. *)
Definition notify (call : HumanHandlers -> option (outcome unit))
  : M assistant unit :=
  fun a =>
    match call (_humanHandlers a) with
    | Some (Return _) | Some (Throw _) | None => (Return tt, a)
    end.

Definition handoffToHuman (chatId reason : string) (metadata : jsval) (now : Z)
  : M assistant bool :=
  let* thread := thread_for chatId now in
  let handoffState :=
    {| isHumanMode := true; handoffTime := now; reason := reason;
       metadata := metadata; threadId := Runtime.chatId thread |} in
  do modify (set_handoffState (map_set chatId handoffState)) in
  let* changed :=
    call_thread thread
      (Thread.addContext "handoffState" (JObj (handoff_object handoffState))) in
  let thread := snd changed in
  do saveThread thread in
  do notify (fun h =>
       match onHandoff h with
       | Some f => Some (f chatId thread handoffState)
       | None => None
       end) in
  ret true.

(** [Object.keys(v).length] *)
Definition keys_count (v : jsval) : nat :=
  match v with
  | JObj props => length props
  | JArr elems => length elems
  | JStr s => String.length s
  | _ => O
  end.

Definition releaseToAI (chatId summary : string) (metadata : jsval) (now : Z)
  : M assistant bool :=
  fun a =>
    if negb (isInHumanMode a chatId) then (Return false, a)
    else
      (let* thread := thread_for chatId now in
       do modify (set_handoffState (map_delete chatId)) in
       let* thread :=
         if truthy (JStr summary) then
           let* changed :=
             call_thread thread
               (Thread.addContext "humanInteractionSummary" (JStr summary)) in
           do modify (push (_history (snd changed))
                {| role := "system"; name := None;
                   content :=
                     JStr ("Human operator summary: " ++ summary) |}) in
           ret (snd changed)
         else ret thread in
       let* thread :=
         if (truthy metadata && Nat.ltb 0 (keys_count metadata))%bool then
           let* changed :=
             call_thread thread
               (Thread.addContext "releaseMetadata" metadata) in
           ret (snd changed)
         else ret thread in
       do saveThread thread in
       do notify (fun h =>
            match onRelease h with
            | Some f => Some (f chatId thread summary metadata)
            | None => None
            end) in
       ret true) a.

(** [{chatId, ...state}] for every entry of the handoff map. *)
Definition getHumanModeChats (a : assistant) : list jsval :=
  map (fun entry : string * HandoffState =>
         JObj (fold_left (fun o kv => obj_set (fst kv) (snd kv) o)
                         (handoff_object (snd entry))
                         [("chatId", JStr (fst entry))]))
      (_handoffState a).

(** *** [processMessage] *)

(** The object [processMessage] returns, by its [type]. *)
Inductive ProcessResult : Type :=
| HumanResult (response handled : jsval) (handoffState : option HandoffState)
| HandoffResult (response : jsval) (handoffState : option HandoffState)
                (error : option string)
| AiResult (response : jsval).

Definition result_type (r : ProcessResult) : string :=
  match r with
  | HumanResult _ _ _ => "human"
  | HandoffResult _ _ _ => "handoff"
  | AiResult _ => "ai"
  end.

Definition result_response (r : ProcessResult) : jsval :=
  match r with
  | HumanResult v _ _ | HandoffResult v _ _ | AiResult v => v
  end.

(** [result?.key] *)
Definition optional_prop (key : string) (result : jsval) : jsval :=
  match result with
  | JObj props => prop key props
  | _ => JUndefined
  end.

(** [/#(handoff|human|agent)\s+(.+)/i] *)
Definition userReasonPattern : regex :=
  Seq (char "#")
      (Seq (Group 1 (Alt (lit_ci (chars "handoff"))
                         (Alt (lit_ci (chars "human"))
                              (lit_ci (chars "agent")))))
           (Seq (Plus space) (Group 2 (Plus any)))).

(** [/\[(handoff|human needed)\s*:?\s*([^\]]+)\]/i] *)
Definition aiReasonPattern : regex :=
  Seq (char "[")
      (Seq (Group 1 (Alt (lit_ci (chars "handoff"))
                         (lit_ci (chars "human needed"))))
           (Seq (Star space)
                (Seq (Opt (char ":"))
                     (Seq (Star space)
                          (Seq (Group 2 (Plus not_rbracket)) (char "]")))))).

(** [/\[(handoff|human needed)[^\]]*\]/gi] *)
Definition aiTagPattern : regex :=
  Seq (char "[")
      (Seq (Group 1 (Alt (lit_ci (chars "handoff"))
                         (lit_ci (chars "human needed"))))
           (Seq (Star not_rbracket) (char "]"))).

Definition transfer_message : string :=
  "I'm transferring you to a human agent who will assist you shortly.".

Definition apology_message : string :=
  "I'm having trouble processing your request. I'm transferring you to a human agent who will assist you shortly.".

Definition current_handoff (chatId : string)
  : M assistant (option HandoffState) :=
  gets (fun a => map_get chatId (_handoffState a)).

(** The [try] block of [processMessage]. *)
Definition process_with_ai (chatId message : string) (options : Options)
    (now : Z) : M assistant ProcessResult :=
  let* response := ask chatId message options now in
  match response with
  | JStr text =>
      if (includes (toLowerCase text) "[handoff]"
          || includes (toLowerCase text) "[human needed]")%bool
      then
        let reason :=
          match exec aiReasonPattern text with
          | Some reasonMatch => to_string (group text reasonMatch 2)
          | None => "AI requested human assistance"
          end in
        let cleanResponse := trim (remove_all aiTagPattern text) in
        do handoffToHuman chatId reason
             (JObj [("triggerMessage", JStr message);
                    ("aiResponse", JStr cleanResponse);
                    ("automatic", JBool true)]) now in
        let* state := current_handoff chatId in
        ret (HandoffResult
               (or_else (JStr cleanResponse) (JStr transfer_message))
               state None)
      else ret (AiResult response)
  | _ => throw (TypeError "response.toLowerCase is not a function")
  end.

Definition processMessage (chatId message : string) (options : Options)
    (now : Z) : M assistant ProcessResult :=
  fun a =>
    if isInHumanMode a chatId then
      let state := map_get chatId (_handoffState a) in
      match onMessage (_humanHandlers a) with
      | Some handler =>
          match handler chatId message state with
          | Return result =>
              (Return (HumanResult
                         (optional_prop "response" result)
                         (or_else (optional_prop "handled" result)
                                  (JBool false))
                         state), a)
          | Throw _ => (Return (HumanResult JNull (JBool false) state), a)
          end
      | None => (Return (HumanResult JNull (JBool false) state), a)
      end
    else if (includes (toLowerCase message) "#handoff"
             || includes (toLowerCase message) "#human"
             || includes (toLowerCase message) "#agent")%bool
    then
      let reason :=
        match exec userReasonPattern message with
        | Some reasonMatch => to_string (group message reasonMatch 2)
        | None => "User requested human assistance"
        end in
      (do handoffToHuman chatId reason
            (JObj [("triggerMessage", JStr message);
                   ("automatic", JBool false)]) now in
       let* state := current_handoff chatId in
       ret (HandoffResult (JStr transfer_message) state None)) a
    else
      try_catch
        (process_with_ai chatId message options now)
        (fun error =>
           if truthy (handoffOnError options) then
             do handoffToHuman chatId "AI processing error"
                  (JObj [("error", JStr (message_of error));
                         ("triggerMessage", JStr message);
                         ("automatic", JBool true)]) now in
             let* state := current_handoff chatId in
             ret (HandoffResult (JStr apology_message) state
                                (Some (message_of error)))
           else throw error) a.

(** *** Helpers that put a question of their own to the assistant

    They ask on the chat [system], with no options, and call a method of
    strings on what comes back. *)

Definition newline : ascii := ascii_of_nat 10.

(** [response.method(...)], where [source] is the text of the
    expression for [response]: only a string has the method. *)
Definition string_method (response : jsval) (source method : string)
  : M assistant string :=
  match response with
  | JStr s => ret s
  | JUndefined =>
      throw (TypeError ("Cannot read properties of undefined (reading '"
                        ++ method ++ "')"))
  | JNull =>
      throw (TypeError ("Cannot read properties of null (reading '"
                        ++ method ++ "')"))
  | _ => throw (TypeError (source ++ "." ++ method ++ " is not a function"))
  end.

(** [getSmartReplies(text, options)], with [maxSuggestions] the value of
    [options.maxSuggestions]. *)
Definition getSmartReplies (text : string) (maxSuggestions : jsval) (now : Z)
  : M assistant (list string) :=
  let prompt :=
    "Generate " ++ to_string (or_else maxSuggestions (JNum (Fin 3)))
    ++ " natural, contextually appropriate responses to this message: "
    ++ dquote ++ text ++ dquote in
  let* response := ask "system" prompt no_options now in
  let* response := string_method response "response" "split" in
  ret (List.filter (fun r => truthy (JStr r))
         (map trim (split newline response))).

Definition detectLanguage (text : string) (now : Z) : M assistant string :=
  let prompt :=
    "What is the ISO language code of this text? Just return the 2-letter code: "
    ++ dquote ++ text ++ dquote in
  let* response := ask "system" prompt no_options now in
  let* response := string_method response "(intermediate value)" "trim" in
  ret (toLowerCase (trim response)).

Definition translate (text targetLang : string) (now : Z)
  : M assistant string :=
  let prompt :=
    "Translate this text to " ++ targetLang ++ ": " ++ dquote ++ text
    ++ dquote in
  let* response := ask "system" prompt no_options now in
  let* response := string_method response "(intermediate value)" "trim" in
  ret (trim response).

End AIAssistant.

(** * Vocabulary of the properties

    The predicates, the derived states and the example values that the
    statements below are written with, grouped as the properties are. *)

Import Js Regex Runtime.

(** ** The command parser *)

Section ParserVocabulary.
Import TemplateParser.

(** The order template of the documentation and of the example
    program. *)
Definition orderTemplate : MessageTemplate :=
  {| fields :=
       [("command", {| type := Some "string"; required := true;
                       pattern := None |});
        ("item", {| type := Some "string"; required := true;
                    pattern := None |});
        ("quantity", {| type := Some "number"; required := true;
                        pattern := None |});
        ("address", {| type := Some "string"; required := false;
                       pattern := None |})];
     examples := [] |}.

Definition order_message : string :=
  "!order item:pizza quantity:2 address:123 Main St".

(** *** Booleans *)

(** The spellings of [true] in upper and lower case letters. *)
Definition spells_true (raw : string) : Prop :=
  exists c1 c2 c3 c4 : ascii,
    raw = String c1 (String c2 (String c3 (String c4 EmptyString)))
    /\ (c1 = "t" \/ c1 = "T")%char /\ (c2 = "r" \/ c2 = "R")%char
    /\ (c3 = "u" \/ c3 = "U")%char /\ (c4 = "e" \/ c4 = "E")%char.

End ParserVocabulary.

(** ** The human-mode guard of [ask] *)

(** A chat with a handoff entry, for the examples. *)
Definition handed_off (chatId : string) (now : Z) : HandoffState :=
  {| isHumanMode := true; handoffTime := now;
     reason := "User requested human assistance";
     metadata := JObj []; threadId := chatId |}.

Definition default_providers : list string :=
  ["openai"; "anthropic"; "google"; "local"].

(** An assistant with default options whose chat [A] a human owns, one
    middleware step registered, and a backend ready to answer. *)
Definition human_owned : assistant :=
  set_middleware (fun _ => [MwNext MwReturn])
    (set_handoffState (fun _ => [("A", handed_off "A" 1000)])
       (AIAssistant.constructor
          {| AIAssistant.o_provider := None; AIAssistant.o_ttl := None;
             AIAssistant.o_maxThreads := None |}
          0 default_providers [Content (JStr "hello")])).

Definition with_fallback : Options :=
  {| ignoreHandoffState := JUndefined;
     fallbackResponse := JStr "Please try again later.";
     fallbackProvider := JUndefined; handoffOnError := JUndefined |}.

(** ** The history bound of a thread *)

(** The assistant [a] with another backend state. *)
Definition with_backend (rest : list reply) (calls : list (list Message))
    (a : assistant) : assistant :=
  {| config_provider := config_provider a; memory_ttl := memory_ttl a;
     memory_maxThreads := memory_maxThreads a; _storage := _storage a;
     _threads := _threads a; _functions := _functions a;
     _middleware := _middleware a; _stats := _stats a;
     _handoffState := _handoffState a; _humanHandlers := _humanHandlers a;
     arrays := arrays a; providers := providers a; backend := rest;
     backend_calls := calls; middleware_ran := middleware_ran a |}.

(** The thread after [ask] has set [lastUsed]. *)
Definition touched (now : Z) (t : Thread) : Thread :=
  {| chatId := chatId t; _context := _context t; _history := _history t;
     lastUsed := now |}.

(** The entries [ask] appends to the history. *)
Definition user_message (prompt : string) : Message :=
  {| role := "user"; name := None; content := JStr prompt |}.

Definition assistant_message (response : jsval) : Message :=
  {| role := "assistant"; name := None; content := response |}.

(** One call in the life of a thread: whatever else happens to the thread
    and the assistant before it ([before]), and the arguments of [ask]. *)
Record ask_call : Type := {
  before : Thread * assistant -> Thread * assistant;
  call_prompt : string;
  call_options : Options;
  call_now : Z
}.

(** A completed call: the thread and the assistant as the call found
    them, the prompt, the answer, and the thread and the assistant as the
    call left them. *)
Record completed_ask : Type := {
  entered : Thread * assistant;
  prompt_of : string;
  answer_of : jsval;
  exited : Thread * assistant
}.

(** The completed calls of a sequence; a call that throws is passed
    over. *)
Fixpoint after_asks (calls : list ask_call) (s : Thread * assistant)
  : list completed_ask :=
  match calls with
  | [] => []
  | c :: calls' =>
      match Thread.ask (call_prompt c) (call_options c) (call_now c)
                       (before c s) with
      | (Return response, s') =>
          {| entered := before c s; prompt_of := call_prompt c;
             answer_of := response; exited := s' |}
          :: after_asks calls' s'
      | (Throw _, s') => after_asks calls' s'
      end
  end.

Definition history_of (s : Thread * assistant) : list Message :=
  array_at (snd s) (_history (fst s)).

(** The history of the thread is an array of the store. *)
Definition allocated (s : Thread * assistant) : Prop :=
  (_history (fst s) < length (arrays (snd s)))%nat.

(** [kept] is what is left of [entries] once entries have been cut from
    the front until no more than [n] are left: the [n] most recent
    ones, or all of them. *)
Definition most_recent (n : nat) (entries kept : list Message) : Prop :=
  exists cut : list Message,
    entries = (cut ++ kept)%list
    /\ length kept = Nat.min n (length entries).

(** A thread whose history has 19 entries, asked twice: the history has
    20 entries after the first call and after the second. *)
Definition long_history : list Message :=
  replicate 19 (assistant_message (JStr "earlier")).

Definition chatty : Thread * assistant :=
  ({| chatId := "A"; _context := []; _history := 0%nat; lastUsed := 1000 |},
   set_arrays (fun _ => [long_history])
     (AIAssistant.constructor
        {| AIAssistant.o_provider := None; AIAssistant.o_ttl := None;
           AIAssistant.o_maxThreads := None |}
        0 default_providers [Content (JStr "one"); Content (JStr "two")])).

Definition plain_call (prompt : string) (now : Z) : ask_call :=
  {| before := fun s => s; call_prompt := prompt;
     call_options := no_options; call_now := now |}.

(** ** Invariants of stateful code *)

(** [m] keeps the invariant [I] whichever way it ends. *)
Definition maintains {S A} (I : S -> Prop) (m : M S A) : Prop :=
  forall s r s', m s = (r, s') -> I s -> I s'.

(** An invariant that looks at the handoff map only. *)
Definition on_handoff (P : list (string * HandoffState) -> Prop)
  : assistant -> Prop :=
  fun a => P (_handoffState a).

(** ** The handoff map *)

(** What holds of the handoff map at all times: one entry a chat, and
    every entry says [isHumanMode]. *)
Definition handoff_ok (l : list (string * HandoffState)) : Prop :=
  NoDup (map fst l) /\ Forall (fun entry => isHumanMode (snd entry) = true) l.

(** *** The states an assistant can be in *)

(** A call of the public interface of the assistant or of one of its
    threads, or a change in the world around it. *)
Inductive operation : Type :=
| OpUse (step : middleware)
| OpRegisterFunctions (functions : list (string * registered_function))
| OpRegisterHumanHandlers (handlers : HumanHandlers)
| OpAsk (chatId prompt : string) (options : Options) (now : Z)
| OpCreateThread (chatId : string) (now : Z)
| OpSaveThread (thread : Thread)
| OpThreadAsk (chatId prompt : string) (options : Options) (now : Z)
| OpThreadAddContext (chatId key : string) (value : jsval)
| OpHandoffToHuman (chatId reason : string) (metadata : jsval) (now : Z)
| OpReleaseToAI (chatId summary : string) (metadata : jsval) (now : Z)
| OpProcessMessage (chatId message : string) (options : Options) (now : Z)
| OpWorld (registry : list string) (answers : list reply).

(** A method call on the thread of [chatId] in the working set. *)
Definition on_thread {A} (chatId : string) (m : M (Thread * assistant) A)
    (a : assistant) : assistant :=
  match map_get chatId (_threads a) with
  | Some thread => snd (AIAssistant.call_thread thread m a)
  | None => a
  end.

(** The world changes: backends are registered, answers are ready. *)
Definition with_world (registry : list string) (answers : list reply)
    (a : assistant) : assistant :=
  {| config_provider := config_provider a; memory_ttl := memory_ttl a;
     memory_maxThreads := memory_maxThreads a; _storage := _storage a;
     _threads := _threads a; _functions := _functions a;
     _middleware := _middleware a; _stats := _stats a;
     _handoffState := _handoffState a; _humanHandlers := _humanHandlers a;
     arrays := arrays a; providers := registry; backend := answers;
     backend_calls := backend_calls a; middleware_ran := middleware_ran a |}.

(** The assistant after an operation, however the operation ends. *)
Definition perform (op : operation) (a : assistant) : assistant :=
  match op with
  | OpUse step => snd (AIAssistant.use step a)
  | OpRegisterFunctions functions =>
      snd (AIAssistant.registerFunctions functions a)
  | OpRegisterHumanHandlers handlers =>
      snd (AIAssistant.registerHumanHandlers handlers a)
  | OpAsk chatId prompt options now =>
      snd (AIAssistant.ask chatId prompt options now a)
  | OpCreateThread chatId now => snd (AIAssistant.createThread chatId now a)
  | OpSaveThread thread => snd (saveThread thread a)
  | OpThreadAsk chatId prompt options now =>
      on_thread chatId (Thread.ask prompt options now) a
  | OpThreadAddContext chatId key value =>
      on_thread chatId (Thread.addContext key value) a
  | OpHandoffToHuman chatId reason metadata now =>
      snd (AIAssistant.handoffToHuman chatId reason metadata now a)
  | OpReleaseToAI chatId summary metadata now =>
      snd (AIAssistant.releaseToAI chatId summary metadata now a)
  | OpProcessMessage chatId message options now =>
      snd (AIAssistant.processMessage chatId message options now a)
  | OpWorld registry answers => with_world registry answers a
  end.

Inductive reachable : assistant -> Prop :=
| reachable_new options now registry answers :
    reachable (AIAssistant.constructor options now registry answers)
| reachable_perform op a :
    reachable a -> reachable (perform op a).

(** The record [getHumanModeChats] makes of an entry. *)
Definition chat_record (entry : string * HandoffState) : jsval :=
  JObj (("chatId", JStr (fst entry)) :: handoff_object (snd entry)).

(** A chat after a handoff, for the example of a reachable state. *)
Definition after_handoff : assistant :=
  perform (OpHandoffToHuman "A" "billing" (JObj []) 2000)
    (AIAssistant.constructor
       {| AIAssistant.o_provider := None; AIAssistant.o_ttl := None;
          AIAssistant.o_maxThreads := None |}
       1000 default_providers []).

(** ** The middleware chain *)

(** Code of a step that uses no thread: it has neither [MwUseThread]
    nor [MwAddContext]. *)
Inductive thread_free : middleware -> Prop :=
| free_return : thread_free MwReturn
| free_throw e : thread_free (MwThrow e)
| free_read k : (forall c, thread_free (k c)) -> thread_free (MwRead k)
| free_response v k : thread_free k -> thread_free (MwSetResponse v k)
| free_error v k : thread_free k -> thread_free (MwSetError v k)
| free_try block handler k :
    thread_free block -> (forall e, thread_free (handler e)) ->
    thread_free k -> thread_free (MwTry block handler k)
| free_next k : thread_free k -> thread_free (MwNext k).

(** Code of a step that does not await [next()]. *)
Inductive calm : middleware -> Prop :=
| calm_return : calm MwReturn
| calm_throw e : calm (MwThrow e)
| calm_read k : (forall c, calm (k c)) -> calm (MwRead k)
| calm_response v k : calm k -> calm (MwSetResponse v k)
| calm_error v k : calm k -> calm (MwSetError v k)
| calm_use k : calm k -> calm (MwUseThread k)
| calm_add key value k : calm k -> calm (MwAddContext key value k)
| calm_try block handler k :
    calm block -> (forall e, calm (handler e)) -> calm k ->
    calm (MwTry block handler k).

(** Calm code that comes to its end whatever happens: it throws, and
    uses the thread, inside [try] blocks only, and its handlers come to
    their end. *)
Inductive settles : middleware -> Prop :=
| settles_return : settles MwReturn
| settles_read k : (forall c, settles (k c)) -> settles (MwRead k)
| settles_response v k : settles k -> settles (MwSetResponse v k)
| settles_error v k : settles k -> settles (MwSetError v k)
| settles_try block handler k :
    calm block -> (forall e, settles (handler e)) -> settles k ->
    settles (MwTry block handler k).

(** Code that reads the context and assigns [context.error], then
    returns: it neither calls [next] nor touches the response or the
    thread. *)
Inductive quiet : middleware -> Prop :=
| quiet_return : quiet MwReturn
| quiet_read k : (forall c, quiet (k c)) -> quiet (MwRead k)
| quiet_error v k : quiet k -> quiet (MwSetError v k).

(** A step that passes control on.  Before it awaits [next()] it may
    read and assign the context, get or create the thread of the chat
    ([MwUseThread]) and run [try] blocks that do not await [next()] and
    whose handlers come to their end; it awaits [next()] once, outside
    of any [try] block; after that it is quiet, and returns. *)
Inductive passes_on : middleware -> Prop :=
| passes_next k : quiet k -> passes_on (MwNext k)
| passes_read k : (forall c, passes_on (k c)) -> passes_on (MwRead k)
| passes_response v k : passes_on k -> passes_on (MwSetResponse v k)
| passes_error v k : passes_on k -> passes_on (MwSetError v k)
| passes_use k : passes_on k -> passes_on (MwUseThread k)
| passes_try block handler k :
    calm block -> (forall e, settles (handler e)) -> passes_on k ->
    passes_on (MwTry block handler k).

(** [stops_with r set step]: the step only reads and assigns the
    context, and returns without calling [next]; when it returns
    [context.response] is [r]; [set] tells whether the response is [r]
    already. *)
Inductive stops_with (r : jsval) : bool -> middleware -> Prop :=
| stops_return : stops_with r true MwReturn
| stops_read set k :
    (forall c, stops_with r set (k c)) -> stops_with r set (MwRead k)
| stops_response set k :
    stops_with r true k -> stops_with r set (MwSetResponse r k)
| stops_other set v k :
    stops_with r false k -> stops_with r set (MwSetResponse v k)
| stops_error set v k :
    stops_with r set k -> stops_with r set (MwSetError v k).

(** An assistant in which [createThread] does not fail: the backend of
    the configuration is registered, [maxThreads] is at least 1 and the
    working set is within that bound. *)
Definition has_room (a : assistant) : Prop :=
  1 <= memory_maxThreads a
  /\ map_size (_threads a) <= memory_maxThreads a
  /\ Thread.provider_registered a (config_provider a) = true.

(** What getting, making and changing threads leaves alone: all of the
    assistant and its surroundings but the storage, the working set
    and the store of arrays. *)
Definition besides_threads (a : assistant) : assistant :=
  set_arrays (fun _ => [])
    (set_threads (fun _ => []) (set_storage (fun _ => ∅) a)).

(** The invariants of the chain: with steps that use threads, in an
    assistant with room for them, all but the threads is as the start
    of the steps alone would leave it; with steps that use no thread,
    so is the whole assistant. *)
Definition with_room (a0 : assistant) (l : list nat) (x : assistant) : Prop :=
  has_room x
  /\ besides_threads x
     = besides_threads (fold_left (fun a i => middleware_started i a) l a0).

Definition only_started (a0 : assistant) (l : list nat) (x : assistant)
  : Prop :=
  x = fold_left (fun a i => middleware_started i a) l a0.

Definition response_of (sa : AIAssistant.chain_state * assistant) : jsval :=
  c_response (AIAssistant.context (fst sa)).

Definition index_of (sa : AIAssistant.chain_state * assistant) : nat :=
  AIAssistant.index (fst sa).

(** The assistant after an [ask] that a middleware step answered: the
    request is counted and the steps [0 .. n-1] are on record. *)
Definition answered_by_middleware (n : nat) (a : assistant) : assistant :=
  fold_left (fun a i => middleware_started i a) (seq 0 n)
            (set_stats AIAssistant.requests_incremented a).

(** An assistant with three steps registered: one that logs around
    [next()], a filter that answers by itself, and a third step. *)
Definition logging_step : middleware :=
  MwRead (fun _ => MwNext (MwRead (fun _ => MwReturn))).
Definition filter_step : middleware :=
  MwSetResponse (JStr "I can't process that request.") MwReturn.

(** The step of the repository's example that enriches the context: it
    gets or creates the thread of the chat and puts it in
    [context.thread], adds what it finds out about the user to the
    context of the thread inside a [try] block (the lookup of the
    contact may fail), and awaits [next()]. *)
Definition enrichment_step (contact : outcome jsval) (time : string)
  : middleware :=
  MwUseThread
    (MwTry
       (match contact with
        | Return user =>
            MwAddContext "user" user
              (MwAddContext "currentTime" (JStr time) MwReturn)
        | Throw error => MwThrow error
        end)
       (fun _ => MwReturn)
       (MwNext MwReturn)).

Definition filtered : assistant :=
  set_middleware
    (fun _ => [logging_step; filter_step; MwThrow (Error "never run")])
    (AIAssistant.constructor
       {| AIAssistant.o_provider := None; AIAssistant.o_ttl := None;
          AIAssistant.o_maxThreads := None |}
       0 default_providers [Content (JStr "hello")]).

(** The assistant [filtered] with other steps. *)
Definition with_steps (steps : list middleware) : assistant :=
  set_middleware (fun _ => steps) filtered.

(** What the step that enriches the context finds out about the
    user. *)
Definition known_contact : outcome jsval :=
  Return (JObj [("name", JStr "User"); ("isGroup", JBool false)]).


(** ** Release to the AI *)

Definition with_context (context : list (string * jsval)) (t : Thread)
  : Thread :=
  {| chatId := chatId t; _context := context; _history := _history t;
     lastUsed := lastUsed t |}.

(** What [saveThread] stores for a thread. *)
Definition snapshot (t : Thread) : ThreadData :=
  {| td_chatId := chatId t; td_context := _context t;
     td_history := _history t; td_lastUsed := lastUsed t |}.

(** The working set after a method call changed the thread [t]. *)
Definition refreshed (t : Thread) (l : list (string * Thread))
  : list (string * Thread) :=
  map (fun kv : string * Thread =>
         if String.eqb (fst kv) (chatId t) then (fst kv, t) else kv) l.

Definition system_message (summary : string) : Message :=
  {| role := "system"; name := None;
     content := JStr ("Human operator summary: " ++ summary) |}.

(** The context of a thread after a release with the given summary and
    metadata. *)
Definition released_context (summary : string) (metadata : jsval)
    (context : list (string * jsval)) : list (string * jsval) :=
  let context :=
    if truthy (JStr summary)
    then map_set "humanInteractionSummary" (JStr summary) context
    else context in
  if (truthy metadata && Nat.ltb 0 (AIAssistant.keys_count metadata))%bool
  then map_set "releaseMetadata" metadata context
  else context.

(** The assistant after a release in human mode, given the thread [t]
    of the chat and the assistant [a1] once that thread is at hand. *)
Definition released (k summary : string) (metadata : jsval) (t : Thread)
    (a1 : assistant) : assistant :=
  let a2 := set_handoffState (map_delete k) a1 in
  let t1 :=
    if truthy (JStr summary)
    then with_context (map_set "humanInteractionSummary" (JStr summary)
                               (_context t)) t
    else t in
  let a3 :=
    if truthy (JStr summary)
    then push (_history t1) (system_message summary)
           (set_threads (refreshed t1)
              (set_storage <[chatId t := snapshot t1]> a2))
    else a2 in
  let more :=
    (truthy metadata && Nat.ltb 0 (AIAssistant.keys_count metadata))%bool in
  let t2 :=
    if more
    then with_context (map_set "releaseMetadata" metadata (_context t1)) t1
    else t1 in
  let a4 :=
    if more
    then set_threads (refreshed t2) (set_storage <[chatId t := snapshot t2]> a3)
    else a3 in
  set_storage <[chatId t := snapshot t2]> a4.

(** The thread of chat [A] in [after_handoff]. *)
Definition thread_A : Thread :=
  {| chatId := "A";
     _context :=
       [("handoffState",
         JObj (handoff_object
                 {| isHumanMode := true; handoffTime := 2000;
                    reason := "billing"; metadata := JObj [];
                    threadId := "A" |}))];
     _history := 0%nat;
     lastUsed := 2000 |}.

Definition fresh_assistant : assistant :=
  AIAssistant.constructor
    {| AIAssistant.o_provider := None; AIAssistant.o_ttl := None;
       AIAssistant.o_maxThreads := None |}
    1000 default_providers [].

(** ** Errors at the dispatcher *)

Definition handoff_state (reason : string) (metadata : jsval) (now : Z)
    (t : Thread) : HandoffState :=
  {| isHumanMode := true; handoffTime := now; reason := reason;
     metadata := metadata; threadId := chatId t |}.

(** The assistant after a handoff, given the thread [t] of the chat and
    the assistant [a1] once that thread is at hand. *)
Definition handed_over (k reason : string) (metadata : jsval) (now : Z)
    (t : Thread) (a1 : assistant) : assistant :=
  let state := handoff_state reason metadata now t in
  let t' := with_context
              (map_set "handoffState" (JObj (handoff_object state)) (_context t))
              t in
  set_storage <[chatId t := snapshot t']>
    (set_threads (refreshed t')
       (set_storage <[chatId t := snapshot t']>
          (set_handoffState (map_set k state) a1))).

Definition error_metadata (e : js_error) (message : string) : jsval :=
  JObj [("error", JStr (message_of e)); ("triggerMessage", JStr message);
        ("automatic", JBool true)].

Definition has_handoff_tag (message : string) : bool :=
  (includes (toLowerCase message) "#handoff"
   || includes (toLowerCase message) "#human"
   || includes (toLowerCase message) "#agent")%bool.

(** An assistant whose backend fails, and the option that asks for a
    handoff on errors. *)
Definition failing : assistant :=
  AIAssistant.constructor
    {| AIAssistant.o_provider := None; AIAssistant.o_ttl := None;
       AIAssistant.o_maxThreads := None |}
    1000 default_providers [Failure (Error "503 Service Unavailable")].

Definition handoff_on_error : Options :=
  {| ignoreHandoffState := JUndefined; fallbackResponse := JUndefined;
     fallbackProvider := JUndefined; handoffOnError := JBool true |}.

(** The thread of chat [A] after the failed call, and the assistant. *)
Definition failed_thread : Thread :=
  {| chatId := "A"; _context := []; _history := 0%nat; lastUsed := 2000 |}.

Definition after_failure : assistant :=
  snd (AIAssistant.process_with_ai "A" "hello" handoff_on_error 2000 failing).

(** ** Eviction and reload *)

(** The test of the storage adapter: is a snapshot last used at
    [lastUsed] too old at time [now]? *)
Definition expired (a : assistant) (now lastUsed : Z) : bool :=
  (negb (memory_ttl a =? 0) && (memory_ttl a * 1000 <? now - lastUsed))%bool.

(** The thread the constructor makes of stored data. *)
Definition thread_of (k : string) (d : ThreadData) (now : Z) : Thread :=
  {| chatId := k; _context := td_context d; _history := td_history d;
     lastUsed := if td_lastUsed d =? 0 then now else td_lastUsed d |}.

(** The assistant after the thread [t] under key [k] was persisted and
    dropped from the working set. *)
Definition evicted (k : string) (t : Thread) (a : assistant) : assistant :=
  set_threads (map_delete k) (set_storage <[chatId t := snapshot t]> a).

(** What [createThread] never changes. *)
Definition setup (a : assistant)
  : string * Z * Z * list string * list (list Message) * list reply :=
  (config_provider a, memory_ttl a, memory_maxThreads a, providers a,
   backend_calls a, backend a).

(** Every array of [a] is in [a1], with the same elements. *)
Definition arrays_kept (a a1 : assistant) : Prop :=
  (length (arrays a) <= length (arrays a1))%nat
  /\ forall l, (l < length (arrays a))%nat -> array_at a1 l = array_at a l.

(** [createThread] after the working set has been cleaned up. *)
Definition load (k : string) (now : Z) : M assistant Thread :=
  bind (MemoryThreadStorage.getThread k now) (fun threadData =>
  bind (match threadData with
        | Some data => ret data
        | None =>
            fun a =>
              match alloc [] a with
              | (l, a') =>
                  (Return {| td_chatId := k; td_context := [];
                             td_history := l; td_lastUsed := now |}, a')
              end
        end) (fun threadData =>
  bind (Thread.constructor k threadData now) (fun thread =>
  bind (modify (set_threads (map_set k thread))) (fun _ =>
  ret thread)))).

Definition first_context (chatId prompt : string) (options : Options)
  : Context :=
  {| c_chatId := chatId; c_prompt := prompt; c_options := options;
     c_response := JNull; c_thread := None; c_error := JNull |}.

Definition guarded (a : assistant) (chatId : string) (options : Options)
  : bool :=
  (AIAssistant.isInHumanMode a chatId
   && negb (truthy (ignoreHandoffState options)))%bool.

(** An assistant with room for one thread, after chat [A] asked once at
    time 2000; the TTL is the default, 3600 seconds. *)
Definition one_slot : assistant :=
  AIAssistant.constructor
    {| AIAssistant.o_provider := None; AIAssistant.o_ttl := None;
       AIAssistant.o_maxThreads := Some 1 |}
    1000 default_providers [Content (JStr "hi"); Content (JStr "there")].

Definition talked : assistant :=
  snd (AIAssistant.ask "A" "hello" no_options 2000 one_slot).

Definition talked_thread : Thread :=
  {| chatId := "A"; _context := []; _history := 0%nat; lastUsed := 2000 |}.

Definition talked_history : list Message :=
  [user_message "hello"; assistant_message (JStr "hi")].

(** An assistant with room for two threads: [A], created first and
    used last at 3000, and [C], used last at 2000. *)
Definition two_slots : assistant :=
  set_threads
    (fun _ =>
       [("A", {| chatId := "A"; _context := []; _history := 0%nat;
                 lastUsed := 3000 |});
        ("C", {| chatId := "C"; _context := []; _history := 1%nat;
                 lastUsed := 2000 |})])
    (set_arrays (fun _ => [[]; []])
       (AIAssistant.constructor
          {| AIAssistant.o_provider := None; AIAssistant.o_ttl := None;
             AIAssistant.o_maxThreads := Some 2 |}
          1000 default_providers [])).

(** ** The storage adapter *)

(** The assistant after [saveThread] of the storage adapter. *)
Definition stored (d : ThreadData) (a : assistant) : assistant :=
  snd (MemoryThreadStorage.saveThread d a).

(** A snapshot of chat [A], last used at time 5000, and an assistant
    with the default options that has it in storage. *)
Definition kept_snapshot : ThreadData :=
  {| td_chatId := "A"; td_context := [("topic", JStr "billing")];
     td_history := 0%nat; td_lastUsed := 5000 |}.

Definition with_snapshot : assistant :=
  set_arrays (fun _ => [[]]) (stored kept_snapshot fresh_assistant).

(** ** Threads *)

(** A registered function for the examples: it answers with its
    arguments. *)
Definition echo_function : registered_function :=
  fun arguments => Return (JStr arguments).

(** The function that a call of [fname] runs after
    [registerFunctions(functions)], if [fname] is among the names
    registered: the last entry of that name. *)
Definition registered_as (fname : string)
    (functions : list (string * registered_function))
  : option registered_function :=
  obj_get fname (rev functions).

(** What [_handleFunctionCall] makes of the outcome of a registered
    function. *)
Definition function_result (r : outcome jsval) : outcome jsval :=
  match r with
  | Return v => Return v
  | Throw error => Return (JObj [("error", JStr (message_of error))])
  end.

(** An answer of the backend that asks for a function. *)
Definition asks_for_function (r : reply) : bool :=
  match r with
  | FunctionCall _ _ _ => true
  | _ => false
  end.

(** Every function that the answers ask for is registered. *)
Definition all_registered (a : assistant) (answers : list reply) : bool :=
  forallb (fun r => match r with
                    | FunctionCall _ fname _ =>
                        bool_decide (is_Some (_functions a !! fname))
                    | _ => true
                    end) answers.

(** An assistant whose backend asks for a function that is not
    registered, and would then answer. *)
Definition unknown_function_call : assistant :=
  with_world default_providers
    [FunctionCall JNull "lookupOrder" "{}";
     Content (JStr "Your order is on its way.")] fresh_assistant.

(** A thread with two entries in its history, in the working set and
    in the storage of an assistant whose backend fails. *)
Definition failing_thread : Thread * assistant :=
  ({| chatId := "A"; _context := []; _history := 0%nat; lastUsed := 1000 |},
   set_threads
     (fun _ => [("A", {| chatId := "A"; _context := []; _history := 0%nat;
                         lastUsed := 1000 |})])
     (set_storage
        (fun _ => {[ "A" := {| td_chatId := "A"; td_context := [];
                               td_history := 0%nat; td_lastUsed := 1000 |} ]})
        (set_arrays
           (fun _ => [[user_message "hello"; assistant_message (JStr "hi")]])
           failing))).

(** ** The statistics *)

(** What holds of the counters at all times: every error and every
    recorded time belongs to a request of its own, and at most 100 times
    are kept. *)
Definition stats_ok (s : Stats) : Prop :=
  0 <= errors s
  /\ errors s + Z.of_nat (length (requestTimes s)) <= requests s
  /\ (length (requestTimes s) <= 100)%nat.

(** An assistant after three calls of [ask]: one answered, one that
    failed, one refused by the human-mode guard. *)
Definition three_asks : assistant :=
  perform (OpAsk "A" "third" no_options 4000)
    (perform (OpHandoffToHuman "A" "billing" (JObj []) 3500)
       (perform (OpAsk "A" "second" no_options 3000)
          (perform (OpAsk "A" "first" no_options 2000)
             (AIAssistant.constructor
                {| AIAssistant.o_provider := None; AIAssistant.o_ttl := None;
                   AIAssistant.o_maxThreads := None |}
                1000 default_providers
                [Content (JStr "hi");
                 Failure (Error "503 Service Unavailable")])))).

(** ** The working set *)

(** What holds of the working set at all times: it has room for
    [maxThreads] threads at most, one a chat, and the thread kept for a
    chat is the thread of that chat. *)
Definition working_set_ok (a : assistant) : Prop :=
  map_size (_threads a) <= Z.max 0 (memory_maxThreads a)
  /\ NoDup (map fst (_threads a))
  /\ Forall (fun kv : string * Thread => chatId (snd kv) = fst kv) (_threads a).

(** An assistant with room for two threads after three chats asked. *)
Definition three_chats : assistant :=
  perform (OpAsk "C" "hello" no_options 4000)
    (perform (OpAsk "B" "hello" no_options 3000)
       (perform (OpAsk "A" "hello" no_options 2000)
          (AIAssistant.constructor
             {| AIAssistant.o_provider := None; AIAssistant.o_ttl := None;
                AIAssistant.o_maxThreads := Some 2 |}
             1000 default_providers
             [Content (JStr "one"); Content (JStr "two");
              Content (JStr "three")]))).

(** An assistant made with a negative [maxThreads]. *)
Definition no_room : assistant :=
  AIAssistant.constructor
    {| AIAssistant.o_provider := None; AIAssistant.o_ttl := None;
       AIAssistant.o_maxThreads := Some (-1) |}
    1000 default_providers [Content (JStr "hi")].

(** ** Handoff and release *)

(** A handler of the human operator that always fails. *)
Definition failing_handlers : HumanHandlers :=
  {| onHandoff := Some (fun _ _ _ => Throw (Error "pager is down"));
     onMessage := Some (fun _ _ _ => Throw (Error "pager is down"));
     onRelease := Some (fun _ _ _ _ => Throw (Error "pager is down")) |}.

(** An assistant whose backend answers, with the failing handlers
    registered. *)
Definition with_pager : assistant :=
  perform (OpRegisterHumanHandlers failing_handlers)
    (AIAssistant.constructor
       {| AIAssistant.o_provider := None; AIAssistant.o_ttl := None;
          AIAssistant.o_maxThreads := None |}
       1000 default_providers [Content (JStr "hi")]).

(** An assistant whose configured backend is not registered. *)
Definition no_backend : assistant :=
  AIAssistant.constructor
    {| AIAssistant.o_provider := Some "mistral"; AIAssistant.o_ttl := None;
       AIAssistant.o_maxThreads := None |}
    1000 default_providers [].

(** ** The dispatcher *)

(** What the middleware and the backend have seen, and the counters. *)
Definition ai_activity (a : assistant)
  : Stats * list reply * list (list Message) * list nat :=
  (_stats a, backend a, backend_calls a, middleware_ran a).

(** The reason [processMessage] gives for a handoff the user asked for. *)
Definition user_reason (message : string) : string :=
  match exec AIAssistant.userReasonPattern message with
  | Some reasonMatch => to_string (group message reasonMatch 2)
  | None => "User requested human assistance"
  end.

(** An assistant with chat [A] handed off and chat [B] in a
    conversation with the AI. *)
Definition two_chats : assistant :=
  perform (OpAsk "B" "hello" no_options 2500)
    (perform (OpHandoffToHuman "A" "billing" (JObj []) 2000) with_pager).

(** ** Middleware steps that pass on, and steps that throw *)

(** [throws_with e step]: the step throws [e] without calling [next];
    it may read and assign the context before. *)
Inductive throws_with (e : js_error) : middleware -> Prop :=
| throws_throw : throws_with e (MwThrow e)
| throws_read k : (forall c, throws_with e (k c)) -> throws_with e (MwRead k)
| throws_response v k : throws_with e k -> throws_with e (MwSetResponse v k)
| throws_error v k : throws_with e k -> throws_with e (MwSetError v k).

(** A step that rejects the request, as a validation step would. *)
Definition rejecting_step : middleware :=
  MwRead (fun _ => MwThrow (Error "prompt is too long")).

(** ** Templates made from examples *)

Section GeneratedVocabulary.
Import TemplateParser.

(** What holds of every field definition that [generateTemplate] makes:
    it has one of three types and no pattern, is not required unless it
    is the [command] field of type [string], and does not bear the name
    of a property every object inherits. *)
Definition generated_field (field : string * FieldDef) : Prop :=
  pattern (snd field) = None
  /\ In (type (snd field)) [Some "string"; Some "number"; Some "boolean"]
  /\ (required (snd field) = true ->
      fst field = "command" /\ type (snd field) = Some "string")
  /\ ~ In (fst field) inherited.

(** The invariant of the two loops of [generateTemplate]. *)
Definition generated (l : list (string * FieldDef)) : Prop :=
  Forall generated_field l /\ NoDup (map fst l).

(** Two examples of one command; the second gives [quantity] a value
    that is no number, and [size], which the first does not have. *)
Definition order_examples : list string :=
  ["!order item:pizza, quantity:2"; "!order quantity:two, size:large"].

End GeneratedVocabulary.

(** ** Helpers that ask on the chat [system] *)

(** An assistant whose backend answers with three lines, the second of
    them blank. *)
Definition three_lines : assistant :=
  AIAssistant.constructor
    {| AIAssistant.o_provider := None; AIAssistant.o_ttl := None;
       AIAssistant.o_maxThreads := None |}
    1000 default_providers
    [Content (JStr (" Sure!  "
                    ++ String AIAssistant.newline
                         (String AIAssistant.newline
                            ("  On my way " ++
                             String AIAssistant.newline "   "))))].

(** A string that [trim] leaves as it is. *)
Definition trimmed (s : string) : Prop := trim s = s.

(** A list of characters that does not begin with white space. *)
Definition starts_black (l : list ascii) : Prop :=
  match l with
  | [] => True
  | c :: _ => is_space c = false
  end.

(** ** What a regular expression matches *)

(** [spells r w]: the expression [r] can match the text [w] (where in
    the input the text stands, which [^] looks at, is left out). *)
Inductive spells : regex -> list ascii -> Prop :=
| spells_eps : spells Eps []
| spells_bol : spells Bol []
| spells_chr p c : p c = true -> spells (Chr p) [c]
| spells_seq r1 r2 w1 w2 :
    spells r1 w1 -> spells r2 w2 -> spells (Seq r1 r2) (w1 ++ w2)
| spells_alt_l r1 r2 w : spells r1 w -> spells (Alt r1 r2) w
| spells_alt_r r1 r2 w : spells r2 w -> spells (Alt r1 r2) w
| spells_star_nil r : spells (Star r) []
| spells_star_cons r w1 w2 :
    spells r w1 -> spells (Star r) w2 -> spells (Star r) (w1 ++ w2)
| spells_group i r w : spells r w -> spells (Group i r) w.

(** The shape of a text that [keyValuePattern] matches: a key made of
    word characters, a colon, and a value made of word characters and
    white space; neither is empty. *)
Definition key_value (pair key value : string) : Prop :=
  pair = key ++ ":" ++ value
  /\ key <> EmptyString /\ value <> EmptyString
  /\ Forall (fun c => is_word c = true) (chars key)
  /\ Forall (fun c => (is_word c || is_space c)%bool = true) (chars value).

(** ** What the parser makes of a message *)

Section ParsedVocabulary.
Import TemplateParser.

(** The object that [parseMessage] hands to [validateParsedMessage]
    ([parse_with_parsed] below): [isValid], [errors], the command and
    the converted fields. *)
Definition parsed (message : string) (template : MessageTemplate)
  : ParsedMessage :=
  fold_left (parse_pair template) (match_g keyValuePattern message)
    (match exec commandPattern message with
     | Some commandMatch =>
         obj_set "command" (group message commandMatch 1)
           [("isValid", JBool true); ("errors", JArr [])]
     | None => [("isValid", JBool true); ("errors", JArr [])]
     end).

(** A field definition, and a template, with the types left out. *)
Definition without_type (def : FieldDef) : FieldDef :=
  {| type := None; required := required def; pattern := pattern def |}.

Definition without_types (template : MessageTemplate) : MessageTemplate :=
  {| fields := map (fun field : string * FieldDef =>
                      (fst field, without_type (snd field)))
                   (fields template);
     examples := examples template |}.

(** The names [parseMessage] itself gives to properties of the result. *)
Definition reserved : list string := ["isValid"; "errors"; "command"].

(** A template with a number, a flag and a list. *)
Definition typed_template : MessageTemplate :=
  {| fields :=
       [("quantity", {| type := Some "number"; required := true;
                        pattern := None |});
        ("urgent", {| type := Some "boolean"; required := false;
                      pattern := None |});
        ("tags", {| type := Some "array"; required := false;
                    pattern := None |})];
     examples := [] |}.

End ParsedVocabulary.

(** ** Examples against the template made from them *)

Section AcceptedVocabulary.
Import TemplateParser.

(** Where a generated field comes from: the [command] that an example
    begins with, or a pair of an example. *)
Definition from_examples (exs : list string) (field : string * FieldDef)
  : Prop :=
  (fst field = "command" /\ required (snd field) = true
   /\ exists ex, In ex exs /\ is_Some (exec commandPattern ex))
  \/ (required (snd field) = false
      /\ exists ex pair value,
           In ex exs /\ In pair (match_g keyValuePattern ex)
           /\ key_value pair (fst field) value).

(** No pair of the examples has a key that [parseMessage] uses itself. *)
Definition plain_keys (exs : list string) : Prop :=
  forall ex pair key value,
    In ex exs -> In pair (match_g keyValuePattern ex) ->
    key_value pair key value -> ~ In key reserved.

(** Three orders; a quantity that is no number in the third. *)
Definition orders : list string :=
  ["!order item:pizza, quantity:2"; "!order item:cake, gift:true";
   "!order quantity:many"].

End AcceptedVocabulary.

(** * Properties *)

(** ** The command parser *)

Section Parser.
Import TemplateParser.

(** The value class of the key-value pattern contains white space, so a
    value runs on through the next key, up to its colon. *)
Example order_pairs :
  match_g keyValuePattern order_message
  = ["item:pizza quantity"; "address:123 Main St"].
Proof. vm_compute. reflexivity. Qed.

(** C2 (the code departs from the claim).  On the order message of the
    specification the parser does not return a valid order with
    [item = "pizza"] and [quantity = 2]: the first pair it finds is
    [item:pizza quantity], so [item] is ["pizza quantity"], [quantity]
    is never set, and the result is invalid with one error, that the
    required field [quantity] is missing. *)
Theorem parseMessage_order_message :
  parseMessage ∅ order_message (ByDef orderTemplate)
  = [("isValid", JBool false);
     ("errors",
      JArr [JStr ("Required field " ++ dquote ++ "quantity" ++ dquote
                  ++ " is missing")]);
     ("command", JStr "order");
     ("item", JStr "pizza quantity");
     ("address", JStr "123 Main St")].
Proof. vm_compute. reflexivity. Qed.

(** With one pair in the message the parser does what the documentation
    shows. *)
Example parseMessage_single_pair :
  parseMessage ∅ "!order quantity:2" (ByDef orderTemplate)
  = [("isValid", JBool false);
     ("errors",
      JArr [JStr ("Required field " ++ dquote ++ "item" ++ dquote
                  ++ " is missing")]);
     ("command", JStr "order");
     ("quantity", JNum (Fin 2))].
Proof. vm_compute. reflexivity. Qed.

(** *** Booleans *)

Lemma lower_char_cases (c : ascii) :
  (lower_char c = "t" <-> c = "t" \/ c = "T")%char
  /\ (lower_char c = "r" <-> c = "r" \/ c = "R")%char
  /\ (lower_char c = "u" <-> c = "u" \/ c = "U")%char
  /\ (lower_char c = "e" <-> c = "e" \/ c = "E")%char.
Proof.
  destruct c as [[] [] [] [] [] [] [] []]; vm_compute;
    repeat split; intros; try tauto; try discriminate;
    repeat match goal with H : _ \/ _ |- _ => destruct H end;
    discriminate.
Qed.

Lemma toLowerCase_true (raw : string) :
  toLowerCase raw = "true" <-> spells_true raw.
Proof.
  unfold toLowerCase, spells_true, chars, str. split.
  - destruct raw as [|c1 [|c2 [|c3 [|c4 [|c5 r]]]]]; simpl; try discriminate.
    intros H. injection H as H1 H2 H3 H4.
    exists c1, c2, c3, c4. split; [reflexivity|].
    pose proof (lower_char_cases c1). pose proof (lower_char_cases c2).
    pose proof (lower_char_cases c3). pose proof (lower_char_cases c4).
    tauto.
  - intros (c1 & c2 & c3 & c4 & -> & H1 & H2 & H3 & H4). simpl.
    pose proof (lower_char_cases c1). pose proof (lower_char_cases c2).
    pose proof (lower_char_cases c3). pose proof (lower_char_cases c4).
    assert (lower_char c1 = "t"%char) as -> by tauto.
    assert (lower_char c2 = "r"%char) as -> by tauto.
    assert (lower_char c3 = "u"%char) as -> by tauto.
    assert (lower_char c4 = "e"%char) as -> by tauto.
    reflexivity.
Qed.

(** C6, as amended.  For a field of type boolean the conversion yields a
    boolean, and it yields [true] exactly when the raw string spells
    [true] in any mix of upper and lower case: the comparison is made
    after [toLowerCase]. *)
Theorem convertValueType_boolean (raw : string) :
  exists b : bool,
    _convertValueType raw (Some "boolean") = JBool b
    /\ (b = true <-> spells_true raw).
Proof.
  exists (String.eqb (toLowerCase raw) "true"). split; [reflexivity|].
  rewrite String.eqb_eq. apply toLowerCase_true.
Qed.

(** C6, as stated, fails: the raw string [TRUE] is not the string
    [true], and it is converted to [true], also when it comes from a
    message. *)
Lemma upper_case_TRUE_converts_to_true :
  "TRUE" <> "true"
  /\ _convertValueType "TRUE" (Some "boolean") = JBool true
  /\ prop "urgent"
       (parseMessage ∅ "urgent:TRUE"
          (ByDef {| fields := [("urgent", {| type := Some "boolean";
                                             required := true;
                                             pattern := None |})];
                    examples := [] |}))
     = JBool true.
Proof. split; [discriminate|]. split; vm_compute; reflexivity. Qed.

End Parser.

(** ** The human-mode guard of [ask] *)

Lemma ask_guard (a : assistant) (chatId prompt : string) (options : Options)
    (now : Z) :
  AIAssistant.isInHumanMode a chatId = true ->
  truthy (ignoreHandoffState options) = false ->
  AIAssistant.ask chatId prompt options now a
  = (Throw (Error AIAssistant.human_mode_message), a).
Proof.
  intros Hmode Hopt. unfold AIAssistant.ask.
  rewrite Hmode, Hopt. reflexivity.
Qed.

(** C1.  For a chat in human mode, [ask] without the opt-out
    [ignoreHandoffState] throws the human-mode error and leaves the
    assistant and its surroundings exactly as they were: no request is
    counted, no middleware step starts, no thread is created or changed,
    nothing is stored, and the backend receives no request. *)
Theorem ask_in_human_mode_throws (a : assistant) (chatId prompt : string)
    (options : Options) (now : Z) :
  AIAssistant.isInHumanMode a chatId = true ->
  truthy (ignoreHandoffState options) = false ->
  exists a' : assistant,
    AIAssistant.ask chatId prompt options now a
    = (Throw (Error AIAssistant.human_mode_message), a')
    /\ a' = a
    /\ middleware_ran a' = middleware_ran a
    /\ _threads a' = _threads a
    /\ arrays a' = arrays a
    /\ _storage a' = _storage a
    /\ backend_calls a' = backend_calls a
    /\ backend a' = backend a.
Proof.
  intros Hmode Hopt. exists a.
  rewrite (ask_guard a chatId prompt options now Hmode Hopt).
  repeat split; reflexivity.
Qed.

Lemma ask_in_human_mode_throws_witness :
  AIAssistant.isInHumanMode human_owned "A" = true
  /\ truthy (ignoreHandoffState no_options) = false
  /\ exists a' : assistant,
       AIAssistant.ask "A" "hi" no_options 2000 human_owned
       = (Throw (Error AIAssistant.human_mode_message), a')
       /\ a' = human_owned
       /\ middleware_ran a' = middleware_ran human_owned
       /\ _threads a' = _threads human_owned
       /\ arrays a' = arrays human_owned
       /\ _storage a' = _storage human_owned
       /\ backend_calls a' = backend_calls human_owned
       /\ backend a' = backend human_owned.
Proof.
  split; [reflexivity|]. split; [reflexivity|].
  apply (ask_in_human_mode_throws human_owned "A" "hi" no_options 2000);
    reflexivity.
Defined.

(** With the opt-out the same call goes through to the backend. *)
Example ask_with_opt_out :
  fst (AIAssistant.ask "A" "hi"
         {| ignoreHandoffState := JBool true; fallbackResponse := JUndefined;
            fallbackProvider := JUndefined; handoffOnError := JUndefined |}
         2000 human_owned)
  = Return (JStr "hello").
Proof. vm_compute. reflexivity. Qed.

(** C9.  A fallback response does not mask the human-mode error: for a
    chat in human mode and options with a [fallbackResponse] but without
    the opt-out, [ask] throws the human-mode error, it does not return
    the fallback response, and the error counter, which the recovery
    path increments, is unchanged. *)
Theorem ask_in_human_mode_ignores_fallback (a : assistant)
    (chatId prompt : string) (options : Options) (now : Z) :
  AIAssistant.isInHumanMode a chatId = true ->
  truthy (ignoreHandoffState options) = false ->
  truthy (fallbackResponse options) = true ->
  AIAssistant.ask chatId prompt options now a
  = (Throw (Error AIAssistant.human_mode_message), a)
  /\ fst (AIAssistant.ask chatId prompt options now a)
     <> Return (fallbackResponse options)
  /\ errors (_stats (snd (AIAssistant.ask chatId prompt options now a)))
     = errors (_stats a).
Proof.
  intros Hmode Hopt _.
  rewrite (ask_guard a chatId prompt options now Hmode Hopt).
  split; [reflexivity|]. split; [discriminate | reflexivity].
Qed.

Lemma ask_in_human_mode_ignores_fallback_witness :
  AIAssistant.isInHumanMode human_owned "A" = true
  /\ truthy (ignoreHandoffState with_fallback) = false
  /\ truthy (fallbackResponse with_fallback) = true
  /\ AIAssistant.ask "A" "hi" with_fallback 2000 human_owned
     = (Throw (Error AIAssistant.human_mode_message), human_owned).
Proof.
  split; [reflexivity|]. split; [reflexivity|]. split; [reflexivity|].
  destruct (ask_in_human_mode_ignores_fallback human_owned "A" "hi"
              with_fallback 2000) as [H _]; [reflexivity ..| exact H].
Defined.

(** In AI mode the recovery path is the one that answers when the
    backend fails. *)
Example ask_fallback_in_ai_mode :
  fst (AIAssistant.ask "B" "hi" with_fallback 2000
         (set_middleware (fun _ => [MwThrow (Error "blocked")]) human_owned))
  = Return (JStr "Please try again later.").
Proof. vm_compute. reflexivity. Qed.

(** ** The history bound of a thread *)

Lemma with_backend_id (a : assistant) :
  with_backend (backend a) (backend_calls a) a = a.
Proof. destruct a; reflexivity. Qed.

Lemma recover_frame error messages options (a : assistant) :
  exists rest more,
    snd (Thread.recover error messages options a)
    = with_backend rest (backend_calls a ++ more) a.
Proof.
  unfold Thread.recover.
  destruct (truthy (fallbackResponse options)).
  { exists (backend a), []. rewrite app_nil_r. symmetry. apply with_backend_id. }
  destruct (truthy (fallbackProvider options)).
  2:{ exists (backend a), []. rewrite app_nil_r. symmetry. apply with_backend_id. }
  destruct (Thread.provider_registered a _).
  2:{ exists (backend a), []. rewrite app_nil_r. symmetry. apply with_backend_id. }
  destruct (backend a) as [|[c|c f x|e] rest]; simpl.
  - exists [], [messages]. reflexivity.
  - exists rest, [messages]. reflexivity.
  - exists rest, [messages]. reflexivity.
  - exists rest, [messages]. reflexivity.
Qed.

(** [_callAI] only consumes backend answers: everything else is as
    before, and the first request the backend receives carries the
    messages [_callAI] was given. *)
Lemma callAI_loop_frame script messages options (a : assistant) :
  exists rest more,
    snd (Thread._callAI_loop script messages options a)
    = with_backend rest (backend_calls a ++ messages :: more) a.
Proof.
  revert messages a. induction script as [|r script IH]; intros messages a.
  - simpl.
    destruct (recover_frame (Error "The generation backend did not answer")
                messages options (backend_called messages [] a))
      as (rest & more & ->).
    exists rest, more. simpl. rewrite <- app_assoc. reflexivity.
  - simpl. destruct r as [c|c f x|e].
    + exists script, []. reflexivity.
    + destruct (Thread._handleFunctionCall _ f x) as [v|e].
      * match goal with |- context [Thread._callAI_loop script ?m options ?b] =>
          destruct (IH m b) as (rest & more & ->) end.
        simpl. eexists rest, (_ :: more). rewrite <- app_assoc. reflexivity.
      * destruct (recover_frame e messages options
                    (backend_called messages script a)) as (rest & more & ->).
        exists rest, more. simpl. rewrite <- app_assoc. reflexivity.
    + destruct (recover_frame e messages options
                  (backend_called messages script a)) as (rest & more & ->).
      exists rest, more. simpl. rewrite <- app_assoc. reflexivity.
Qed.

Lemma callAI_frame messages options (a : assistant) :
  exists rest more,
    snd (Thread._callAI messages options a)
    = with_backend rest (backend_calls a ++ messages :: more) a.
Proof. apply callAI_loop_frame. Qed.

Lemma slice_last_length (n : nat) (l : list Message) :
  length (slice_last n l) = Nat.min n (length l).
Proof. unfold slice_last. rewrite length_drop. lia. Qed.

Lemma array_at_push_same (a : assistant) (l : addr) (m : Message) :
  (l < length (arrays a))%nat ->
  array_at (push l m a) l = (array_at a l ++ [m])%list.
Proof.
  intros Hl. unfold array_at at 1, push. simpl.
  rewrite list_lookup_insert_eq by exact Hl. reflexivity.
Qed.

Lemma array_at_push_dangling (a : assistant) (l : addr) (m : Message) :
  (length (arrays a) <= l)%nat -> array_at (push l m a) l = [].
Proof.
  intros Hl. unfold array_at, push. simpl.
  rewrite list_insert_ge by exact Hl.
  rewrite lookup_ge_None_2 by exact Hl. reflexivity.
Qed.

Lemma array_at_dangling (a : assistant) (l : addr) :
  (length (arrays a) <= l)%nat -> array_at a l = [].
Proof.
  intros Hl. unfold array_at. rewrite lookup_ge_None_2 by exact Hl.
  reflexivity.
Qed.

Lemma arrays_push_length (a : assistant) (l : addr) (m : Message) :
  length (arrays (push l m a)) = length (arrays a).
Proof. unfold push. simpl. apply length_insert. Qed.

Lemma Thread_ask_unfold prompt options now (this : Thread) (a : assistant) :
  Thread.ask prompt options now (this, a)
  = let a1 := push (_history this) (user_message prompt) a in
    match Thread._callAI (array_at a1 (_history this)) options a1 with
    | (Throw e, a2) => (Throw e, (touched now this, a2))
    | (Return response, a2) =>
        let a3 := push (_history this) (assistant_message response) a2 in
        let history := array_at a3 (_history this) in
        if Nat.ltb 20 (length history) then
          let this' := {| chatId := chatId this; _context := _context this;
                          _history := length (arrays a3); lastUsed := now |} in
          (Return response,
           (this', snd (saveThread this'
                          (set_arrays (fun arrs => (arrs ++ [slice_last 20 history])%list) a3))))
        else
          (Return response, (touched now this, snd (saveThread (touched now this) a3)))
    end.
Proof.
  unfold Thread.ask, bind, Thread.modify_this, modify, gets, Thread.on_assistant,
    Thread.this_history, Thread._saveChanges, ret. simpl.
  destruct (Thread._callAI _ options _) as [[response|e] a2]; simpl; [|reflexivity].
  destruct (Nat.ltb 20 _); reflexivity.
Qed.

Lemma array_at_with_backend rest calls (a : assistant) l :
  array_at (with_backend rest calls a) l = array_at a l.
Proof. reflexivity. Qed.

Lemma slice_last_short (n : nat) (l : list Message) :
  (length l <= n)%nat -> slice_last n l = l.
Proof. intros H. unfold slice_last. replace (length l - n)%nat with 0%nat by lia. reflexivity. Qed.

Lemma Thread_ask_returns prompt options now (this this' : Thread)
    (a a' : assistant) (response : jsval) :
  Thread.ask prompt options now (this, a) = (Return response, (this', a')) ->
  (length (array_at a' (_history this')) <= 20)%nat
  /\ ((_history this < length (arrays a))%nat ->
      array_at a' (_history this')
      = slice_last 20
          (array_at a (_history this)
           ++ [user_message prompt; assistant_message response])%list).
Proof.
  rewrite Thread_ask_unfold. cbv zeta.
  destruct (callAI_frame
              (array_at (push (_history this) (user_message prompt) a) (_history this))
              options (push (_history this) (user_message prompt) a))
    as (rest & more & Hframe).
  destruct (Thread._callAI _ options _) as [[r|e] a2]; [|discriminate].
  simpl in Hframe. subst a2.
  set (a1 := push (_history this) (user_message prompt) a) in *.
  set (a2 := with_backend rest _ a1) in *.
  set (a3 := push (_history this) (assistant_message r) a2) in *.
  assert (Hlen3 : length (arrays a3) = length (arrays a)).
  { unfold a3. rewrite arrays_push_length. unfold a2, a1.
    cbn [arrays with_backend]. apply arrays_push_length. }
  assert (Hcontent : (_history this < length (arrays a))%nat ->
            array_at a3 (_history this)
            = (array_at a (_history this)
               ++ [user_message prompt; assistant_message r])%list).
  { intros Hl. unfold a3. rewrite array_at_push_same.
    - unfold a2. rewrite array_at_with_backend. unfold a1.
      rewrite array_at_push_same by exact Hl. rewrite <- app_assoc. reflexivity.
    - unfold a2, a1. cbn [arrays with_backend]. rewrite arrays_push_length. exact Hl. }
  destruct (Nat.ltb 20 (length (array_at a3 (_history this)))) eqn:Hlong.
  - intros H. injection H as <- <- <-. simpl.
    apply Nat.ltb_lt in Hlong.
    assert (Hnew : array_at
              (set_storage
                 <[chatId this := {| td_chatId := chatId this; td_context := _context this;
                                     td_history := length (arrays a3); td_lastUsed := now |}]>
                 (set_arrays (fun arrs => (arrs ++ [slice_last 20 (array_at a3 (_history this))])%list) a3))
              (length (arrays a3))
            = slice_last 20 (array_at a3 (_history this))).
    { unfold array_at at 1. simpl. rewrite lookup_app_r by lia.
      rewrite Nat.sub_diag. reflexivity. }
    unfold saveThread, MemoryThreadStorage.saveThread, modify. simpl.
    simpl in Hnew. rewrite Hnew. split.
    + rewrite slice_last_length. lia.
    + intros Hl. rewrite (Hcontent Hl). reflexivity.
  - intros H. injection H as <- <- <-. simpl.
    apply Nat.ltb_ge in Hlong.
    unfold saveThread, MemoryThreadStorage.saveThread, modify. simpl.
    change (array_at (set_storage _ a3) (_history this)) with (array_at a3 (_history this)).
    split; [exact Hlong|].
    intros Hl. rewrite <- (Hcontent Hl). symmetry. apply slice_last_short. exact Hlong.
Qed.

Lemma Thread_ask_allocated prompt options now (this this' : Thread)
    (a a' : assistant) (response : jsval) :
  Thread.ask prompt options now (this, a) = (Return response, (this', a')) ->
  allocated (this, a) -> allocated (this', a').
Proof.
  unfold allocated. cbn [fst snd].
  rewrite Thread_ask_unfold. cbv zeta.
  destruct (callAI_frame
              (array_at (push (_history this) (user_message prompt) a) (_history this))
              options (push (_history this) (user_message prompt) a))
    as (rest & more & Hframe).
  destruct (Thread._callAI _ options _) as [[r|e] a2]; [|discriminate].
  simpl in Hframe. subst a2.
  set (a3 := push (_history this) (assistant_message r) _).
  assert (Hlen3 : length (arrays a3) = length (arrays a)).
  { unfold a3. rewrite arrays_push_length. cbn [arrays with_backend].
    apply arrays_push_length. }
  destruct (Nat.ltb 20 _); intros H Hl; injection H as <- <- <-;
    unfold saveThread, MemoryThreadStorage.saveThread, modify;
    cbn [snd arrays set_storage set_arrays _history touched].
  - rewrite length_app, Hlen3, !length_insert. cbn [length]. lia.
  - rewrite Hlen3. exact Hl.
Qed.

Lemma most_recent_slice_last (n : nat) (entries : list Message) :
  most_recent n entries (slice_last n entries).
Proof.
  exists (take (length entries - n) entries). split.
  - unfold slice_last. symmetry. apply take_drop.
  - apply slice_last_length.
Qed.

(** C3.  Whatever the thread and the assistant are at the start, and
    whatever happens between the calls, after each completed call of
    [Thread.ask] the history of the thread has at most 20 entries; and
    they are the most recent ones: the history that the call found,
    followed by the prompt and the answer, with entries cut from the
    front until 20 are left (none is cut while there are no more than
    20).  The history is then again an array of the store. *)
Theorem Thread_ask_history_bound (calls : list ask_call)
    (s : Thread * assistant) :
  Forall (fun c =>
            (length (history_of (exited c)) <= 20)%nat
            /\ (allocated (entered c) ->
                most_recent 20
                  (history_of (entered c)
                   ++ [user_message (prompt_of c);
                       assistant_message (answer_of c)])%list
                  (history_of (exited c))
                /\ allocated (exited c)))
         (after_asks calls s).
Proof.
  revert s. induction calls as [|c calls IH]; intros s; simpl.
  - constructor.
  - destruct (Thread.ask _ _ _ (before c s)) as [[response|e] [this' a']] eqn:Hask.
    + constructor; [|apply IH].
      destruct (before c s) as [this a]. cbn [entered exited prompt_of answer_of].
      destruct (Thread_ask_returns _ _ _ _ _ _ _ _ Hask) as [Hlen Hcontent].
      split; [exact Hlen|]. intros Halloc. split.
      * unfold history_of. cbn [fst snd]. rewrite (Hcontent Halloc).
        apply most_recent_slice_last.
      * apply (Thread_ask_allocated _ _ _ _ _ _ _ _ Hask Halloc).
    + apply IH.
Qed.

Lemma Thread_ask_history_bound_witness :
  allocated chatty
  /\ map (fun c => length (history_of (exited c)))
         (after_asks [plain_call "first" 2000; plain_call "second" 3000] chatty)
     = [20%nat; 20%nat]
  /\ Forall (fun c =>
               most_recent 20
                 (history_of (entered c)
                  ++ [user_message (prompt_of c);
                      assistant_message (answer_of c)])%list
                 (history_of (exited c)))
            (after_asks [plain_call "first" 2000; plain_call "second" 3000]
               chatty).
Proof.
  split; [vm_compute; lia|]. split; [vm_compute; reflexivity|].
  assert (Hall : Forall (fun c => allocated (entered c))
                   (after_asks [plain_call "first" 2000;
                                plain_call "second" 3000] chatty)).
  { vm_compute. repeat constructor. }
  pose proof (Thread_ask_history_bound
                [plain_call "first" 2000; plain_call "second" 3000] chatty)
    as Hbound.
  rewrite List.Forall_forall in *. intros c Hc.
  apply (Hbound c Hc), (Hall c Hc).
Defined.

Example two_asks_keep_twenty :
  forall c, last (after_asks [plain_call "first" 2000;
                              plain_call "second" 3000] chatty) = Some c ->
    drop 16 (history_of (exited c))
    = [user_message "first"; assistant_message (JStr "one");
       user_message "second"; assistant_message (JStr "two")].
Proof.
  intros c Hc. vm_compute in Hc. injection Hc as <-. vm_compute. reflexivity.
Qed.

(** ** Invariants of stateful code *)

Section Maintains.
Context {S : Type} (I : S -> Prop).

Lemma maintains_ret {A} (x : A) : maintains I (ret x).
Proof. intros s r s' [= <- <-] H. exact H. Qed.

Lemma maintains_throw {A} e : maintains I (@throw S A e).
Proof. intros s r s' [= <- <-] H. exact H. Qed.

Lemma maintains_gets {A} (f : S -> A) : maintains I (gets f).
Proof. intros s r s' [= <- <-] H. exact H. Qed.

Lemma maintains_modify (g : S -> S) :
  (forall s, I s -> I (g s)) -> maintains I (modify g).
Proof. intros Hg s r s' [= <- <-] H. apply Hg, H. Qed.

Lemma maintains_bind {A B} (m : M S A) (k : A -> M S B) :
  maintains I m -> (forall x, maintains I (k x)) -> maintains I (bind m k).
Proof.
  intros Hm Hk s r s' Hrun H. unfold bind in Hrun.
  destruct (m s) as [[x|e] s1] eqn:Hms.
  - eapply Hk; [exact Hrun|]. eapply Hm; eauto.
  - injection Hrun as <- <-. eapply Hm; eauto.
Qed.

Lemma maintains_try_catch {A} (m : M S A) (h : js_error -> M S A) :
  maintains I m -> (forall e, maintains I (h e)) -> maintains I (try_catch m h).
Proof.
  intros Hm Hh s r s' Hrun H. unfold try_catch in Hrun.
  destruct (m s) as [[x|e] s1] eqn:Hms.
  - injection Hrun as <- <-. eapply Hm; eauto.
  - eapply Hh; [exact Hrun|]. eapply Hm; eauto.
Qed.

Lemma maintains_if {A} (b : bool) (m1 m2 : M S A) :
  maintains I m1 -> maintains I m2 -> maintains I (if b then m1 else m2).
Proof. destruct b; auto. Qed.

Lemma maintains_cond {A} (c : S -> bool) (m1 m2 : M S A) :
  maintains I m1 -> maintains I m2 ->
  maintains I (fun s => if c s then m1 s else m2 s).
Proof.
  intros H1 H2 s r s' Hrun. destruct (c s); [eapply H1|eapply H2]; eauto.
Qed.

End Maintains.

(** Code that changes the storage, the working set and the store of
    arrays only keeps an invariant that these changes keep. *)
Section MemoryFrame.
Context (I : assistant -> Prop).
Hypothesis keeps_storage : forall f a, I a -> I (set_storage f a).
Hypothesis keeps_threads : forall f a, I a -> I (set_threads f a).
Hypothesis keeps_arrays : forall f a, I a -> I (set_arrays f a).

Lemma memory_saveThread t : maintains I (saveThread t).
Proof. apply maintains_modify. intros a H. apply keeps_storage, H. Qed.

Lemma memory_evict ts : maintains I (AIAssistant.evict ts).
Proof.
  induction ts as [|[k t] ts IH]; intros a r a' Hrun H; simpl in Hrun.
  - destruct (_ <=? _); injection Hrun as <- <-; exact H.
  - destruct (_ <=? _); [|injection Hrun as <- <-; exact H].
    revert Hrun H. revert a r a'.
    change (maintains I (bind (saveThread t) (fun _ =>
              bind (modify (set_threads (map_delete k)))
                   (fun _ => AIAssistant.evict ts)))).
    apply maintains_bind; [apply memory_saveThread|]. intros _.
    apply maintains_bind; [|intros _; exact IH].
    apply maintains_modify. intros a H. apply keeps_threads, H.
Qed.

Lemma memory_createThread k now : maintains I (AIAssistant.createThread k now).
Proof.
  unfold AIAssistant.createThread.
  apply maintains_bind.
  { apply (maintains_cond I
             (fun a => memory_maxThreads a <=? map_size (_threads a))).
    - intros a r a' Hrun. eapply memory_evict. exact Hrun.
    - apply maintains_ret. }
  intros _. apply maintains_bind.
  { intros a r a' Hrun H. unfold MemoryThreadStorage.getThread in Hrun.
    destruct (_storage a !! k); [|injection Hrun as <- <-; exact H].
    destruct (_ && _)%bool; injection Hrun as <- <-;
      [apply keeps_storage|]; exact H. }
  intros d. apply maintains_bind.
  { destruct d; [apply maintains_ret|].
    intros a r a' [= <- <-] H. apply keeps_arrays, H. }
  intros d'. apply maintains_bind.
  { intros a r a' Hrun H. unfold Thread.constructor in Hrun.
    destruct (Thread.provider_registered _ _); injection Hrun as <- <-; exact H. }
  intros t. apply maintains_bind; [|intros _; apply maintains_ret].
  apply maintains_modify. intros a H. apply keeps_threads, H.
Qed.

End MemoryFrame.

(** A run of the middleware chain keeps an invariant that the start of
    a step keeps and that getting the thread of a chat and adding to
    its context keep; for steps that use no thread ([free]) the start
    of a step is all there is to keep. *)
Section Chain.
Context (I : assistant -> Prop) (free : bool).
Let K : AIAssistant.chain_state * assistant -> Prop := fun sa => I (snd sa).

Hypothesis keeps_started : forall i a, I a -> I (middleware_started i a).
Hypothesis gets_thread :
  free = false -> forall k now, maintains I (AIAssistant.thread_for k now).
Hypothesis adds_context :
  free = false ->
  forall t key value,
    maintains I (AIAssistant.call_thread t (Thread.addContext key value)).

Lemma chain_run_step now nx step :
  (free = true -> thread_free step) ->
  maintains K nx -> maintains K (AIAssistant.run_step now nx step).
Proof.
  intros Hfree Hnx.
  induction step as [|e|k IH|v k IH|v k IH|k IH|key value k IH
                     |block IHb handler IHh k IHk|k IH];
    intros sa r sa' Hrun H; cbn [AIAssistant.run_step] in Hrun.
  - injection Hrun as <- <-. exact H.
  - injection Hrun as <- <-. exact H.
  - eapply IH; [|exact Hrun|exact H].
    intros Hf. specialize (Hfree Hf). inversion Hfree; subst. auto.
  - eapply IH; [|exact Hrun|exact H].
    intros Hf. specialize (Hfree Hf). inversion Hfree; subst. assumption.
  - eapply IH; [|exact Hrun|exact H].
    intros Hf. specialize (Hfree Hf). inversion Hfree; subst. assumption.
  - destruct free eqn:Hf; [specialize (Hfree eq_refl); inversion Hfree|].
    destruct (c_thread _).
    + eapply IH; [discriminate|exact Hrun|exact H].
    + destruct (AIAssistant.thread_for _ now (snd sa)) as [[t|e] a1] eqn:Hget.
      * eapply IH; [discriminate|exact Hrun|].
        eapply (gets_thread eq_refl); [exact Hget|exact H].
      * injection Hrun as <- <-.
        eapply (gets_thread eq_refl); [exact Hget|exact H].
  - destruct free eqn:Hf; [specialize (Hfree eq_refl); inversion Hfree|].
    destruct (c_thread _) as [t|]; [|injection Hrun as <- <-; exact H].
    destruct (AIAssistant.call_thread t _ (snd sa)) as [[c|e] a1] eqn:Hadd.
    + eapply IH; [discriminate|exact Hrun|].
      eapply (adds_context eq_refl); [exact Hadd|exact H].
    + injection Hrun as <- <-.
      eapply (adds_context eq_refl); [exact Hadd|exact H].
  - assert (Hb : free = true -> thread_free block)
      by (intros Hf; specialize (Hfree Hf); inversion Hfree; assumption).
    assert (Hh : forall e, free = true -> thread_free (handler e))
      by (intros e Hf; specialize (Hfree Hf); inversion Hfree; auto).
    assert (Hk : free = true -> thread_free k)
      by (intros Hf; specialize (Hfree Hf); inversion Hfree; assumption).
    destruct (AIAssistant.run_step now nx block sa) as [[[]|e] sa1] eqn:Hblock.
    + eapply IHk; [exact Hk|exact Hrun|].
      eapply IHb; [exact Hb|exact Hblock|exact H].
    + assert (H1 : K sa1) by (eapply IHb; [exact Hb|exact Hblock|exact H]).
      destruct (AIAssistant.run_step now nx (handler e) sa1)
        as [[[]|e'] sa2] eqn:Hhandler.
      * eapply IHk; [exact Hk|exact Hrun|].
        eapply IHh; [apply Hh|exact Hhandler|exact H1].
      * injection Hrun as <- <-.
        eapply IHh; [apply Hh|exact Hhandler|exact H1].
  - assert (Hk : free = true -> thread_free k)
      by (intros Hf; specialize (Hfree Hf); inversion Hfree; assumption).
    destruct (nx sa) as [[[]|e] sa1] eqn:Hn.
    + eapply IH; [exact Hk|exact Hrun|]. eapply Hnx; [exact Hn|exact H].
    + injection Hrun as <- <-. eapply Hnx; [exact Hn|exact H].
Qed.

Lemma chain_next now steps depth :
  (free = true -> Forall thread_free steps) ->
  maintains K (AIAssistant.next now steps depth).
Proof.
  intros Hfree.
  induction depth as [|d IH]; intros sa r sa' Hrun H; simpl in Hrun.
  - injection Hrun as <- <-. exact H.
  - destruct (steps !! AIAssistant.index (fst sa)) as [m|] eqn:Hm.
    + eapply chain_run_step; [|exact IH|exact Hrun|].
      * intros Hf. specialize (Hfree Hf). rewrite Forall_lookup in Hfree.
        exact (Hfree _ _ Hm).
      * apply keeps_started, H.
    + injection Hrun as <- <-. exact H.
Qed.

Lemma chain_executeMiddleware c now (a a' : assistant) (r : outcome Context) :
  (free = true -> Forall thread_free (_middleware a)) ->
  AIAssistant._executeMiddleware c now a = (r, a') -> I a -> I a'.
Proof.
  intros Hfree Hrun H. unfold AIAssistant._executeMiddleware in Hrun.
  destruct (AIAssistant.next now _ _ _) as [r0 [s a1]] eqn:Hnext.
  assert (H1 : K (s, a1))
    by (eapply chain_next; [exact Hfree|exact Hnext|exact H]).
  destruct r0; injection Hrun as <- <-; exact H1.
Qed.

End Chain.

Section Frame.
Context (P : list (string * HandoffState) -> Prop).
Let I := on_handoff P.
Let J : Thread * assistant -> Prop := fun s => I (snd s).

Lemma maintains_on_assistant {A} (m : M assistant A) :
  maintains I m -> maintains J (Thread.on_assistant m).
Proof.
  intros Hm [t a] r [t' a'] Hrun H. unfold Thread.on_assistant in Hrun. simpl in *.
  destruct (m a) as [r0 a0] eqn:Hma. injection Hrun as <- <- <-.
  eapply Hm; eauto.
Qed.

Lemma maintains_modify_this f : maintains J (Thread.modify_this f).
Proof. intros [t a] r s' [= <- <-] H. exact H. Qed.

Lemma maintains_saveThread t : maintains I (saveThread t).
Proof. apply memory_saveThread. intros f a H. exact H. Qed.

Lemma maintains_saveChanges : maintains J Thread._saveChanges.
Proof.
  apply maintains_bind; [apply maintains_gets|].
  intros t. apply maintains_on_assistant, maintains_saveThread.
Qed.

Lemma maintains_addContext k v : maintains J (Thread.addContext k v).
Proof.
  apply maintains_bind; [apply maintains_modify_this|].
  intros _. apply maintains_saveChanges.
Qed.

Lemma maintains_recover e ms o : maintains I (Thread.recover e ms o).
Proof.
  intros a r a' Hrun H.
  destruct (recover_frame e ms o a) as (rest & more & Hf).
  rewrite Hrun in Hf. simpl in Hf. subst a'. exact H.
Qed.

Lemma maintains_callAI ms o : maintains I (Thread._callAI ms o).
Proof.
  intros a r a' Hrun H.
  destruct (callAI_frame ms o a) as (rest & more & Hf).
  rewrite Hrun in Hf. simpl in Hf. subst a'. exact H.
Qed.

Lemma maintains_Thread_ask p o now : maintains J (Thread.ask p o now).
Proof.
  unfold Thread.ask.
  apply maintains_bind; [apply maintains_modify_this|]. intros _.
  apply maintains_bind; [apply maintains_gets|]. intros this.
  apply maintains_bind.
  { apply maintains_on_assistant, maintains_modify. intros a H. exact H. }
  intros _. apply maintains_bind; [apply maintains_gets|]. intros ms.
  apply maintains_bind; [apply maintains_on_assistant, maintains_callAI|].
  intros response. apply maintains_bind.
  { apply maintains_on_assistant, maintains_modify. intros a H. exact H. }
  intros _. apply maintains_bind; [apply maintains_gets|]. intros h.
  apply maintains_bind.
  { apply maintains_if; [|apply maintains_ret].
    apply maintains_bind; [|intros l; apply maintains_modify_this].
    apply maintains_on_assistant. intros a r a' [= <- <-] H. exact H. }
  intros _. apply maintains_bind; [apply maintains_saveChanges|].
  intros _. apply maintains_ret.
Qed.

Lemma maintains_call_thread {A} t (m : M (Thread * assistant) A) :
  maintains J m -> maintains I (AIAssistant.call_thread t m).
Proof.
  intros Hm a r a' Hrun H. unfold AIAssistant.call_thread in Hrun.
  destruct (m (t, a)) as [r0 [t' a0]] eqn:Hma.
  assert (I a0) by (eapply (Hm (t, a) r0 (t', a0)); eauto).
  destruct r0; injection Hrun as <- <-; assumption.
Qed.

Lemma maintains_evict ts : maintains I (AIAssistant.evict ts).
Proof. apply memory_evict; intros f a H; exact H. Qed.

Lemma maintains_createThread k now : maintains I (AIAssistant.createThread k now).
Proof. apply memory_createThread; intros f a H; exact H. Qed.

Lemma maintains_executeMiddleware c now :
  maintains I (AIAssistant._executeMiddleware c now).
Proof.
  intros a r a' Hrun H.
  eapply (chain_executeMiddleware I false); [| | |discriminate|exact Hrun|exact H].
  - intros i a0 H0. exact H0.
  - intros _ k now0. apply maintains_bind; [apply maintains_gets|].
    intros [t|]; [apply maintains_ret|apply maintains_createThread].
  - intros _ t key value. apply maintains_call_thread, maintains_addContext.
Qed.

Lemma maintains_ask k p o now : maintains I (AIAssistant.ask k p o now).
Proof.
  unfold AIAssistant.ask.
  apply (maintains_cond I (fun a => (AIAssistant.isInHumanMode a k && negb (truthy (ignoreHandoffState o)))%bool)).
  { apply maintains_throw. }
  apply maintains_bind.
  { apply maintains_modify. intros a H. exact H. }
  intros _. apply maintains_try_catch.
  - apply maintains_bind; [apply maintains_executeMiddleware|]. intros c.
    apply maintains_if; [apply maintains_ret|].
    apply maintains_bind; [apply maintains_gets|]. intros known.
    apply maintains_bind.
    { destruct (c_thread c); [apply maintains_ret|].
      destruct known; [apply maintains_ret|apply maintains_createThread]. }
    intros t. apply maintains_bind.
    { apply maintains_call_thread, maintains_Thread_ask. }
    intros ans. apply maintains_bind; [|intros _; apply maintains_ret].
    apply maintains_modify. intros a H. exact H.
  - intros e. apply maintains_bind.
    { apply maintains_modify. intros a H. exact H. }
    intros _. apply maintains_if; [apply maintains_ret|apply maintains_throw].
Qed.

End Frame.

(** ** The handoff map *)

Lemma obj_get_In {A} (k : string) (l : list (string * A)) (v : A) :
  obj_get k l = Some v -> In (k, v) l.
Proof.
  induction l as [|[k' v'] l IH]; simpl; [discriminate|].
  destruct (String.eqb_spec k' k) as [->|Hne].
  - intros [= ->]. left. reflexivity.
  - intros H. right. apply IH, H.
Qed.

Lemma obj_get_keys {A} (k : string) (l : list (string * A)) :
  is_Some (obj_get k l) <-> In k (map fst l).
Proof.
  induction l as [|[k' v'] l IH]; simpl.
  - split; [intros [x Hx]; discriminate | intros []].
  - destruct (String.eqb_spec k' k) as [->|Hne].
    + split; [intros _; left; reflexivity | intros _; eexists; reflexivity].
    + rewrite IH. split; [intros H; right; exact H|].
      intros [H|H]; [contradiction|exact H].
Qed.

Lemma keys_obj_set {A} (k : string) (v : A) (l : list (string * A)) (x : string) :
  In x (map fst (obj_set k v l)) <-> x = k \/ In x (map fst l).
Proof.
  induction l as [|[k' v'] l IH]; simpl.
  - intuition.
  - destruct (String.eqb_spec k' k) as [->|Hne]; simpl.
    + intuition.
    + rewrite IH. intuition.
Qed.

Lemma NoDup_obj_set {A} (k : string) (v : A) (l : list (string * A)) :
  NoDup (map fst l) -> NoDup (map fst (obj_set k v l)).
Proof.
  induction l as [|[k' v'] l IH]; simpl; intros Hnd.
  - apply NoDup_cons. split; [apply not_elem_of_nil|constructor].
  - apply NoDup_cons in Hnd as [Hnotin Hnd].
    destruct (String.eqb_spec k' k) as [->|Hne]; simpl.
    + apply NoDup_cons. split; assumption.
    + apply NoDup_cons. split; [|apply IH, Hnd].
      rewrite list_elem_of_In, keys_obj_set.
      rewrite list_elem_of_In in Hnotin. intros [H|H]; [congruence|contradiction].
Qed.

Lemma Forall_obj_set {A} (P : string * A -> Prop) (k : string) (v : A)
    (l : list (string * A)) :
  P (k, v) -> Forall P l -> Forall P (obj_set k v l).
Proof.
  intros Hv. induction 1 as [|[k' v'] l Hx Hl IH]; simpl.
  - constructor; [exact Hv|constructor].
  - destruct (String.eqb k' k); constructor; assumption.
Qed.

Lemma map_delete_cons {A} (k : string) (kv : string * A) (l : list (string * A)) :
  map_delete k (kv :: l)
  = if String.eqb (fst kv) k then map_delete k l else kv :: map_delete k l.
Proof.
  unfold map_delete. rewrite filter_cons.
  case_decide as H; destruct (String.eqb (fst kv) k); simpl in H;
    try reflexivity; [destruct H | destruct H; exact Logic.I].
Qed.

Lemma keys_map_delete {A} (k : string) (l : list (string * A)) (x : string) :
  In x (map fst (map_delete k l)) <-> x <> k /\ In x (map fst l).
Proof.
  induction l as [|[k' v'] l IH].
  - simpl. intuition.
  - rewrite map_delete_cons. simpl.
    destruct (String.eqb_spec k' k) as [->|Hne]; simpl; rewrite IH.
    + intuition. congruence.
    + intuition. congruence.
Qed.

Lemma NoDup_map_delete {A} (k : string) (l : list (string * A)) :
  NoDup (map fst l) -> NoDup (map fst (map_delete k l)).
Proof.
  induction l as [|[k' v'] l IH]; intros Hnd.
  - exact Hnd.
  - rewrite map_delete_cons. simpl in *.
    apply NoDup_cons in Hnd as [Hnotin Hnd].
    destruct (String.eqb k' k); [apply IH, Hnd|]. simpl.
    apply NoDup_cons. split; [|apply IH, Hnd].
    rewrite list_elem_of_In, keys_map_delete.
    rewrite list_elem_of_In in Hnotin. tauto.
Qed.

Lemma Forall_map_delete {A} (P : string * A -> Prop) (k : string)
    (l : list (string * A)) :
  Forall P l -> Forall P (map_delete k l).
Proof.
  induction 1 as [|kv l Hx Hl IH].
  - constructor.
  - rewrite map_delete_cons. destruct (String.eqb (fst kv) k);
      [exact IH | constructor; assumption].
Qed.

Lemma obj_get_map_delete {A} (k : string) (l : list (string * A)) :
  obj_get k (map_delete k l) = None.
Proof.
  destruct (obj_get k (map_delete k l)) eqn:H; [|reflexivity].
  assert (Hin : In k (map fst (map_delete k l))).
  { apply obj_get_keys. eexists. exact H. }
  apply keys_map_delete in Hin. tauto.
Qed.

Lemma obj_get_obj_set {A} (k : string) (v : A) (l : list (string * A)) :
  obj_get k (obj_set k v l) = Some v.
Proof.
  induction l as [|[k' v'] l IH]; simpl.
  - rewrite String.eqb_refl. reflexivity.
  - destruct (String.eqb_spec k' k) as [->|Hne]; simpl.
    + rewrite String.eqb_refl. reflexivity.
    + destruct (String.eqb_spec k' k); [contradiction|exact IH].
Qed.

Lemma handoff_ok_set k (v : HandoffState) l :
  isHumanMode v = true -> handoff_ok l -> handoff_ok (map_set k v l).
Proof.
  intros Hv [Hnd Hall]. split.
  - apply NoDup_obj_set, Hnd.
  - apply Forall_obj_set; assumption.
Qed.

Lemma handoff_ok_delete k l : handoff_ok l -> handoff_ok (map_delete k l).
Proof.
  intros [Hnd Hall]. split.
  - apply NoDup_map_delete, Hnd.
  - apply Forall_map_delete, Hall.
Qed.

Lemma maintains_notify I call : maintains I (AIAssistant.notify call).
Proof.
  intros a r a' Hrun H. unfold AIAssistant.notify in Hrun.
  destruct (call _) as [[|]|]; injection Hrun as <- <-; exact H.
Qed.

Lemma maintains_thread_for P k now :
  maintains (on_handoff P) (AIAssistant.thread_for k now).
Proof.
  apply maintains_bind; [apply maintains_gets|].
  intros [t|]; [apply maintains_ret|apply maintains_createThread].
Qed.

Lemma maintains_handoffToHuman k reason md now :
  maintains (on_handoff handoff_ok) (AIAssistant.handoffToHuman k reason md now).
Proof.
  unfold AIAssistant.handoffToHuman.
  apply maintains_bind; [apply maintains_thread_for|]. intros t.
  apply maintains_bind.
  { apply maintains_modify. intros a H. apply handoff_ok_set; [reflexivity|exact H]. }
  intros _. apply maintains_bind.
  { apply maintains_call_thread, maintains_addContext. }
  intros c. apply maintains_bind; [apply maintains_saveThread|].
  intros _. apply maintains_bind; [apply maintains_notify|].
  intros _. apply maintains_ret.
Qed.

Lemma maintains_push I l m :
  (forall a, I a -> I (push l m a)) -> maintains I (modify (push l m)).
Proof. apply maintains_modify. Qed.

Lemma maintains_releaseToAI k summary md now :
  maintains (on_handoff handoff_ok) (AIAssistant.releaseToAI k summary md now).
Proof.
  unfold AIAssistant.releaseToAI.
  apply (maintains_cond _ (fun a => negb (AIAssistant.isInHumanMode a k))).
  { apply maintains_ret. }
  apply maintains_bind; [apply maintains_thread_for|]. intros t.
  apply maintains_bind.
  { apply maintains_modify. intros a H. apply handoff_ok_delete, H. }
  intros _. apply maintains_bind.
  { apply maintains_if; [|apply maintains_ret].
    apply maintains_bind; [apply maintains_call_thread, maintains_addContext|].
    intros c. apply maintains_bind; [|intros _; apply maintains_ret].
    apply maintains_modify. intros a H. exact H. }
  intros t'. apply maintains_bind.
  { apply maintains_if; [|apply maintains_ret].
    apply maintains_bind; [apply maintains_call_thread, maintains_addContext|].
    intros c. apply maintains_ret. }
  intros t''. apply maintains_bind; [apply maintains_saveThread|].
  intros _. apply maintains_bind; [apply maintains_notify|].
  intros _. apply maintains_ret.
Qed.

Lemma maintains_process_with_ai k m o now :
  maintains (on_handoff handoff_ok) (AIAssistant.process_with_ai k m o now).
Proof.
  unfold AIAssistant.process_with_ai.
  apply maintains_bind; [apply maintains_ask|]. intros response.
  destruct response; try apply maintains_throw.
  apply maintains_if; [|apply maintains_ret].
  apply maintains_bind; [apply maintains_handoffToHuman|]. intros _.
  apply maintains_bind; [apply maintains_gets|]. intros st. apply maintains_ret.
Qed.

Lemma maintains_processMessage k m o now :
  maintains (on_handoff handoff_ok) (AIAssistant.processMessage k m o now).
Proof.
  unfold AIAssistant.processMessage.
  apply (maintains_cond _ (fun a => AIAssistant.isInHumanMode a k)).
  { intros a r a' Hrun H.
    destruct (onMessage _) as [h|]; [|injection Hrun as <- <-; exact H].
    destruct (h _ _ _); injection Hrun as <- <-; exact H. }
  apply (maintains_cond _ (fun _ =>
           (includes (toLowerCase m) "#handoff"
            || includes (toLowerCase m) "#human"
            || includes (toLowerCase m) "#agent")%bool)).
  - apply maintains_bind; [apply maintains_handoffToHuman|]. intros _.
    apply maintains_bind; [apply maintains_gets|]. intros st. apply maintains_ret.
  - apply maintains_try_catch; [apply maintains_process_with_ai|].
    intros e. apply maintains_if; [|apply maintains_throw].
    apply maintains_bind; [apply maintains_handoffToHuman|]. intros _.
    apply maintains_bind; [apply maintains_gets|]. intros st. apply maintains_ret.
Qed.

(** *** The states an assistant can be in *)

Lemma maintains_snd {S A} (I : S -> Prop) (m : M S A) (s : S) :
  maintains I m -> I s -> I (snd (m s)).
Proof. intros Hm H. destruct (m s) as [r s'] eqn:E. eapply Hm; eauto. Qed.

Lemma perform_handoff_ok op a :
  handoff_ok (_handoffState a) -> handoff_ok (_handoffState (perform op a)).
Proof.
  intros H. change (on_handoff handoff_ok (perform op a)).
  change (on_handoff handoff_ok a) in H.
  destruct op; simpl.
  - exact H.
  - exact H.
  - exact H.
  - apply maintains_snd; [apply maintains_ask|exact H].
  - apply maintains_snd; [apply maintains_createThread|exact H].
  - exact H.
  - unfold on_thread. destruct (map_get _ _); [|exact H].
    apply maintains_snd; [|exact H].
    apply maintains_call_thread, maintains_Thread_ask.
  - unfold on_thread. destruct (map_get _ _); [|exact H].
    apply maintains_snd; [|exact H].
    apply maintains_call_thread, maintains_addContext.
  - apply maintains_snd; [apply maintains_handoffToHuman|exact H].
  - apply maintains_snd; [apply maintains_releaseToAI|exact H].
  - apply maintains_snd; [apply maintains_processMessage|exact H].
  - exact H.
Qed.

Lemma reachable_handoff_ok a : reachable a -> handoff_ok (_handoffState a).
Proof.
  induction 1 as [options now registry answers|op a Ha IH].
  - split; constructor.
  - apply perform_handoff_ok, IH.
Qed.

(** C10.  In every state the assistant can reach, every entry of the
    handoff map has [isHumanMode] true and no chat has two entries; so
    [isInHumanMode] holds of a chat exactly when the map has an entry
    for it, and [getHumanModeChats] returns, in the order of the map,
    one record for each entry, made of the chat's id and the fields of
    its handoff state. *)
Theorem handoff_map_invariant (a : assistant) :
  reachable a ->
  Forall (fun entry => isHumanMode (snd entry) = true) (_handoffState a)
  /\ NoDup (map fst (_handoffState a))
  /\ (forall chatId,
        AIAssistant.isInHumanMode a chatId = true
        <-> is_Some (map_get chatId (_handoffState a)))
  /\ (forall chatId,
        AIAssistant.isInHumanMode a chatId = true
        <-> In chatId (map fst (_handoffState a)))
  /\ AIAssistant.getHumanModeChats a = map chat_record (_handoffState a).
Proof.
  intros Hreach. destruct (reachable_handoff_ok a Hreach) as [Hnd Hall].
  assert (Hmode : forall chatId,
            AIAssistant.isInHumanMode a chatId = true
            <-> is_Some (map_get chatId (_handoffState a))).
  { intros chatId. unfold AIAssistant.isInHumanMode, map_has, map_get.
    destruct (obj_get chatId (_handoffState a)) as [state|] eqn:Hget; simpl.
    - split; [intros _; eexists; reflexivity|]. intros _.
      apply obj_get_In in Hget.
      rewrite List.Forall_forall in Hall. exact (Hall _ Hget).
    - split; [discriminate|]. intros [x Hx]. discriminate. }
  split; [exact Hall|]. split; [exact Hnd|]. split; [exact Hmode|].
  split.
  - intros chatId. rewrite Hmode. apply obj_get_keys.
  - unfold AIAssistant.getHumanModeChats. apply map_ext.
    intros [chatId state]. reflexivity.
Qed.

Lemma handoff_map_invariant_witness :
  reachable after_handoff
  /\ AIAssistant.isInHumanMode after_handoff "A" = true
  /\ AIAssistant.getHumanModeChats after_handoff
     = map chat_record (_handoffState after_handoff).
Proof.
  assert (Hreach : reachable after_handoff).
  { apply reachable_perform, reachable_new. }
  split; [exact Hreach|]. split; [vm_compute; reflexivity|].
  apply (handoff_map_invariant after_handoff Hreach).
Defined.

(** ** The middleware chain *)

(** *** What a step does, by its shape *)

Lemma quiet_run now nx step sa :
  quiet step ->
  exists sa', AIAssistant.run_step now nx step sa = (Return tt, sa')
              /\ index_of sa' = index_of sa
              /\ response_of sa' = response_of sa
              /\ snd sa' = snd sa.
Proof.
  intros Hq. revert sa.
  induction Hq as [|k Hk IH|v k Hk IH]; intros sa; cbn [AIAssistant.run_step].
  - exists sa. repeat split.
  - apply IH.
  - destruct (IH (AIAssistant.set_error v (fst sa), snd sa))
      as (sa' & Hrun & Hi & Hr & Ha).
    exists sa'. repeat split; assumption.
Qed.



Lemma stops_thread_free r set step : stops_with r set step -> thread_free step.
Proof. induction 1; constructor; assumption. Qed.

Lemma throws_thread_free e step : throws_with e step -> thread_free step.
Proof. induction 1; constructor; assumption. Qed.

Lemma quiet_thread_free step : quiet step -> thread_free step.
Proof. induction 1; constructor; assumption. Qed.

(** The chain under an invariant [I l] of the assistant, where [l]
    lists the steps started so far.  Getting the thread of a chat and
    adding to its context keep the invariant, and under it getting the
    thread does not fail; for steps that use no thread ([free]) nothing
    is asked of the invariant but that the start of a step keeps it. *)
Section ChainRun.
Context (I : list nat -> assistant -> Prop) (free : bool).

Hypothesis keeps_started :
  forall l i a, I l a -> I (l ++ [i])%list (middleware_started i a).
Hypothesis gets_thread :
  free = false ->
  forall l k now, maintains (I l) (AIAssistant.thread_for k now).
Hypothesis adds_context :
  free = false ->
  forall l t key value,
    maintains (I l) (AIAssistant.call_thread t (Thread.addContext key value)).
Hypothesis thread_at_hand :
  free = false ->
  forall l k now a, I l a ->
    exists t a', AIAssistant.thread_for k now a = (Return t, a').

Lemma calm_run l now nx step sa :
  calm step -> (free = true -> thread_free step) -> I l (snd sa) ->
  exists r sa', AIAssistant.run_step now nx step sa = (r, sa')
                /\ index_of sa' = index_of sa /\ I l (snd sa').
Proof.
  intros Hc. revert sa.
  induction Hc as [|e|k Hk IH|v k Hk IH|v k Hk IH|k Hk IH|key value k Hk IH
                   |block handler k Hb IHb Hh IHh Hk IHk];
    intros sa Hfree HI; cbn [AIAssistant.run_step].
  - exists (Return tt), sa. repeat split. exact HI.
  - exists (Throw e), sa. repeat split. exact HI.
  - apply IH; [|exact HI].
    intros Hf. specialize (Hfree Hf). inversion Hfree; subst. auto.
  - destruct (IH (AIAssistant.set_response v (fst sa), snd sa))
      as (r & sa' & Hrun & Hi & HI'); [|exact HI|].
    { intros Hf. specialize (Hfree Hf). inversion Hfree; assumption. }
    exists r, sa'. repeat split; assumption.
  - destruct (IH (AIAssistant.set_error v (fst sa), snd sa))
      as (r & sa' & Hrun & Hi & HI'); [|exact HI|].
    { intros Hf. specialize (Hfree Hf). inversion Hfree; assumption. }
    exists r, sa'. repeat split; assumption.
  - destruct free eqn:Hf; [specialize (Hfree eq_refl); inversion Hfree|].
    destruct (c_thread _).
    + apply IH; [discriminate|exact HI].
    + destruct (AIAssistant.thread_for _ now (snd sa)) as [[t|e] a1] eqn:Hget.
      * destruct (IH (AIAssistant.set_thread t (fst sa), a1))
          as (r & sa' & Hrun & Hi & HI'); [discriminate| |].
        { eapply (gets_thread eq_refl); [exact Hget|exact HI]. }
        exists r, sa'. repeat split; assumption.
      * exists (Throw e), (fst sa, a1). repeat split.
        eapply (gets_thread eq_refl); [exact Hget|exact HI].
  - destruct free eqn:Hf; [specialize (Hfree eq_refl); inversion Hfree|].
    destruct (c_thread _) as [t|].
    + destruct (AIAssistant.call_thread t _ (snd sa)) as [[c|e] a1] eqn:Hadd.
      * destruct (IH (AIAssistant.set_thread (snd c) (fst sa), a1))
          as (r & sa' & Hrun & Hi & HI'); [discriminate| |].
        { eapply (adds_context eq_refl); [exact Hadd|exact HI]. }
        exists r, sa'. repeat split; assumption.
      * exists (Throw e), (fst sa, a1). repeat split.
        eapply (adds_context eq_refl); [exact Hadd|exact HI].
    + eexists _, sa. repeat split. exact HI.
  - assert (Hfb : free = true -> thread_free block)
      by (intros Hf; specialize (Hfree Hf); inversion Hfree; assumption).
    assert (Hfh : forall e, free = true -> thread_free (handler e))
      by (intros e Hf; specialize (Hfree Hf); inversion Hfree; auto).
    assert (Hfk : free = true -> thread_free k)
      by (intros Hf; specialize (Hfree Hf); inversion Hfree; assumption).
    destruct (IHb sa Hfb HI) as (r1 & sa1 & Hrun1 & Hi1 & HI1).
    rewrite Hrun1. destruct r1 as [[]|e].
    + destruct (IHk sa1 Hfk HI1) as (r & sa' & Hrun & Hi & HI').
      exists r, sa'. split; [exact Hrun|]. split; [congruence|exact HI'].
    + destruct (IHh e sa1 (Hfh e) HI1) as (r2 & sa2 & Hrun2 & Hi2 & HI2).
      rewrite Hrun2. destruct r2 as [[]|e2].
      * destruct (IHk sa2 Hfk HI2) as (r & sa' & Hrun & Hi & HI').
        exists r, sa'. split; [exact Hrun|]. split; [congruence|exact HI'].
      * exists (Throw e2), sa2. split; [reflexivity|].
        split; [congruence|exact HI2].
Qed.

Lemma settles_run l now nx step sa :
  settles step -> (free = true -> thread_free step) -> I l (snd sa) ->
  exists sa', AIAssistant.run_step now nx step sa = (Return tt, sa')
              /\ index_of sa' = index_of sa /\ I l (snd sa').
Proof.
  intros Hs. revert sa.
  induction Hs as [|k Hk IH|v k Hk IH|v k Hk IH
                   |block handler k Hb Hh IHh Hk IHk];
    intros sa Hfree HI; cbn [AIAssistant.run_step].
  - exists sa. repeat split. exact HI.
  - apply IH; [|exact HI].
    intros Hf. specialize (Hfree Hf). inversion Hfree; subst. auto.
  - destruct (IH (AIAssistant.set_response v (fst sa), snd sa))
      as (sa' & Hrun & Hi & HI'); [|exact HI|].
    { intros Hf. specialize (Hfree Hf). inversion Hfree; assumption. }
    exists sa'. repeat split; assumption.
  - destruct (IH (AIAssistant.set_error v (fst sa), snd sa))
      as (sa' & Hrun & Hi & HI'); [|exact HI|].
    { intros Hf. specialize (Hfree Hf). inversion Hfree; assumption. }
    exists sa'. repeat split; assumption.
  - assert (Hfb : free = true -> thread_free block)
      by (intros Hf; specialize (Hfree Hf); inversion Hfree; assumption).
    assert (Hfh : forall e, free = true -> thread_free (handler e))
      by (intros e Hf; specialize (Hfree Hf); inversion Hfree; auto).
    assert (Hfk : free = true -> thread_free k)
      by (intros Hf; specialize (Hfree Hf); inversion Hfree; assumption).
    destruct (calm_run l now nx block sa Hb Hfb HI)
      as (r1 & sa1 & Hrun1 & Hi1 & HI1).
    rewrite Hrun1. destruct r1 as [[]|e].
    + destruct (IHk sa1 Hfk HI1) as (sa' & Hrun & Hi & HI').
      exists sa'. split; [exact Hrun|]. split; [congruence|exact HI'].
    + destruct (IHh e sa1 (Hfh e) HI1) as (sa2 & Hrun2 & Hi2 & HI2).
      rewrite Hrun2.
      destruct (IHk sa2 Hfk HI2) as (sa' & Hrun & Hi & HI').
      exists sa'. split; [exact Hrun|]. split; [congruence|exact HI'].
Qed.

(** A step that passes on ends as [next] ends, if [next] returns and
    also if it throws. *)
Lemma passes_on_run (Q : AIAssistant.chain_state * assistant -> Prop)
    (r : outcome unit) l now nx step sa :
  passes_on step -> (free = true -> thread_free step) -> I l (snd sa) ->
  (forall sa1, index_of sa1 = index_of sa -> I l (snd sa1) ->
     exists sa2, nx sa1 = (r, sa2) /\ Q sa2) ->
  (forall sa2 sa3, Q sa2 -> index_of sa3 = index_of sa2 ->
     response_of sa3 = response_of sa2 -> snd sa3 = snd sa2 -> Q sa3) ->
  exists sa', AIAssistant.run_step now nx step sa = (r, sa') /\ Q sa'.
Proof.
  intros Hp. revert sa.
  induction Hp as [k Hk|k Hk IH|v k Hk IH|v k Hk IH|k Hk IH
                   |block handler k Hb Hh Hk IH];
    intros sa Hfree HI Hnx HQ; cbn [AIAssistant.run_step].
  - destruct (Hnx sa eq_refl HI) as (sa2 & -> & Hq2).
    destruct r as [[]|e]; [|exists sa2; split; [reflexivity|exact Hq2]].
    destruct (quiet_run now nx k sa2 Hk) as (sa3 & Hrun & Hi & Hr & Ha).
    exists sa3. split; [exact Hrun|]. eapply HQ; eauto.
  - apply IH; [|exact HI|exact Hnx|exact HQ].
    intros Hf. specialize (Hfree Hf). inversion Hfree; subst. auto.
  - apply IH; [|exact HI|exact Hnx|exact HQ].
    intros Hf. specialize (Hfree Hf). inversion Hfree; assumption.
  - apply IH; [|exact HI|exact Hnx|exact HQ].
    intros Hf. specialize (Hfree Hf). inversion Hfree; assumption.
  - destruct free eqn:Hf; [specialize (Hfree eq_refl); inversion Hfree|].
    destruct (c_thread _).
    + apply IH; [discriminate|exact HI|exact Hnx|exact HQ].
    + destruct (thread_at_hand eq_refl l
                  (c_chatId (AIAssistant.context (fst sa))) now (snd sa) HI)
        as (t & a1 & Hget).
      rewrite Hget.
      apply IH; [discriminate| |exact Hnx|exact HQ].
      eapply (gets_thread eq_refl); [exact Hget|exact HI].
  - assert (Hfb : free = true -> thread_free block)
      by (intros Hf; specialize (Hfree Hf); inversion Hfree; assumption).
    assert (Hfh : forall e, free = true -> thread_free (handler e))
      by (intros e Hf; specialize (Hfree Hf); inversion Hfree; auto).
    assert (Hfk : free = true -> thread_free k)
      by (intros Hf; specialize (Hfree Hf); inversion Hfree; assumption).
    destruct (calm_run l now nx block sa Hb Hfb HI)
      as (r1 & sa1 & Hrun1 & Hi1 & HI1).
    rewrite Hrun1. destruct r1 as [[]|e].
    + apply IH; [exact Hfk|exact HI1| |exact HQ].
      intros sa2 Hi2. apply Hnx. congruence.
    + destruct (settles_run l now nx (handler e) sa1 (Hh e) (Hfh e) HI1)
        as (sa2 & Hrun2 & Hi2 & HI2).
      rewrite Hrun2.
      apply IH; [exact Hfk|exact HI2| |exact HQ].
      intros sa3 Hi3. apply Hnx. congruence.
Qed.


(** A chain of steps that all pass on: started at position [i], [next]
    runs the steps from [i] on, in order, and returns. *)
Lemma next_passes_all now (steps : list middleware) :
  Forall passes_on steps -> (free = true -> Forall thread_free steps) ->
  forall j i depth l sa,
    (i + j = length steps)%nat -> (j <= depth)%nat -> index_of sa = i ->
    I l (snd sa) ->
    exists sa',
      AIAssistant.next now steps depth sa = (Return tt, sa')
      /\ index_of sa' = length steps
      /\ I (l ++ seq i j)%list (snd sa').
Proof.
  intros Hall Hfree.
  induction j as [|j IH]; intros i depth l sa Hij Hdepth Hi HI.
  - exists sa. cbn [seq]. rewrite app_nil_r.
    split; [|split; [lia|exact HI]].
    destruct depth as [|d]; [reflexivity|]. cbn [AIAssistant.next].
    unfold index_of in Hi. rewrite lookup_ge_None_2 by lia. reflexivity.
  - destruct depth as [|d]; [lia|]. cbn [AIAssistant.next].
    assert (Hlt : (i < length steps)%nat) by lia.
    destruct (lookup_lt_is_Some_2 steps i Hlt) as [p Hp].
    unfold index_of in Hi. rewrite Hi, Hp.
    assert (Hon : passes_on p).
    { rewrite Forall_lookup in Hall. exact (Hall i p Hp). }
    assert (Hfp : free = true -> thread_free p).
    { intros Hf. specialize (Hfree Hf). rewrite Forall_lookup in Hfree.
      exact (Hfree i p Hp). }
    apply (passes_on_run
             (fun sa' => index_of sa' = length steps
                         /\ I (l ++ seq i (S j))%list (snd sa'))
             (Return tt) (l ++ [i])%list); [exact Hon|exact Hfp| | |].
    + cbn [snd]. apply keeps_started, HI.
    + intros sa1 Hidx HI1. unfold index_of in Hidx.
      cbn [fst AIAssistant.index] in Hidx.
      destruct (IH (S i) d (l ++ [i])%list sa1)
        as (sa2 & Hrun & H1 & H2);
        [lia|lia|unfold index_of; lia|exact HI1|].
      exists sa2. split; [exact Hrun|]. split; [exact H1|].
      rewrite <- app_assoc in H2. exact H2.
    + intros sa2 sa3 (H1 & H2) Hidx Hresp Hsame.
      split; [congruence|rewrite Hsame; exact H2].
Qed.

End ChainRun.

(** *** The depth bound of [next] is enough *)

Lemma run_step_index now nx step sa r sa' :
  (forall sa1 r1 sa1', nx sa1 = (r1, sa1') ->
     (index_of sa1 <= index_of sa1')%nat) ->
  AIAssistant.run_step now nx step sa = (r, sa') ->
  (index_of sa <= index_of sa')%nat.
Proof.
  intros Hnx. revert sa r sa'.
  induction step as [|e|k IH|v k IH|v k IH|k IH|key value k IH
                     |block IHb handler IHh k IHk|k IH];
    intros sa r sa' Hrun; cbn [AIAssistant.run_step] in Hrun.
  - injection Hrun as <- <-. lia.
  - injection Hrun as <- <-. lia.
  - eapply IH, Hrun.
  - apply IH in Hrun. exact Hrun.
  - apply IH in Hrun. exact Hrun.
  - destruct (c_thread _); [apply IH in Hrun; exact Hrun|].
    destruct (AIAssistant.thread_for _ now (snd sa)) as [[t|e] a1].
    + apply IH in Hrun. exact Hrun.
    + injection Hrun as <- <-. unfold index_of. simpl. lia.
  - destruct (c_thread _) as [t|]; [|injection Hrun as <- <-; lia].
    destruct (AIAssistant.call_thread t _ (snd sa)) as [[c|e] a1].
    + apply IH in Hrun. exact Hrun.
    + injection Hrun as <- <-. unfold index_of. simpl. lia.
  - destruct (AIAssistant.run_step now nx block sa) as [[[]|e] sa1] eqn:Hb.
    + apply IHb in Hb. apply IHk in Hrun. lia.
    + apply IHb in Hb.
      destruct (AIAssistant.run_step now nx (handler e) sa1)
        as [[[]|e'] sa2] eqn:Hh.
      * apply IHh in Hh. apply IHk in Hrun. lia.
      * apply IHh in Hh. injection Hrun as <- <-. lia.
  - destruct (nx sa) as [[[]|e] sa1] eqn:Hn.
    + apply IH in Hrun. apply Hnx in Hn. lia.
    + injection Hrun as <- <-. eapply Hnx, Hn.
Qed.

Lemma next_index now steps depth sa r sa' :
  AIAssistant.next now steps depth sa = (r, sa') ->
  (index_of sa <= index_of sa')%nat.
Proof.
  revert sa r sa'. induction depth as [|d IH]; intros sa r sa' Hrun;
    cbn [AIAssistant.next] in Hrun.
  - injection Hrun as <- <-. lia.
  - destruct (steps !! AIAssistant.index (fst sa)) as [m|].
    + apply (run_step_index _ _ _ _ _ _ IH) in Hrun.
      unfold index_of in *. simpl in Hrun. lia.
    + injection Hrun as <- <-. lia.
Qed.

Lemma run_step_agree (n : nat) now nx1 nx2 step sa :
  (forall sa1, (n <= index_of sa1)%nat -> nx1 sa1 = nx2 sa1) ->
  (forall sa1 r1 sa1', nx1 sa1 = (r1, sa1') ->
     (index_of sa1 <= index_of sa1')%nat) ->
  (n <= index_of sa)%nat ->
  AIAssistant.run_step now nx1 step sa = AIAssistant.run_step now nx2 step sa.
Proof.
  intros Hagree Hmono. revert sa.
  induction step as [|e|k IH|v k IH|v k IH|k IH|key value k IH
                     |block IHb handler IHh k IHk|k IH];
    intros sa Hn; cbn [AIAssistant.run_step].
  - reflexivity.
  - reflexivity.
  - apply IH, Hn.
  - apply IH, Hn.
  - apply IH, Hn.
  - destruct (c_thread _); [apply IH, Hn|].
    destruct (AIAssistant.thread_for _ now (snd sa)) as [[t|e] a1];
      [apply IH, Hn|reflexivity].
  - destruct (c_thread _) as [t|]; [|reflexivity].
    destruct (AIAssistant.call_thread t _ (snd sa)) as [[c|e] a1];
      [apply IH, Hn|reflexivity].
  - rewrite <- (IHb sa Hn).
    destruct (AIAssistant.run_step now nx1 block sa) as [[[]|e] sa1] eqn:Hb.
    + apply IHk. apply (run_step_index _ _ _ _ _ _ Hmono) in Hb. lia.
    + apply (run_step_index _ _ _ _ _ _ Hmono) in Hb.
      rewrite <- (IHh e sa1) by lia.
      destruct (AIAssistant.run_step now nx1 (handler e) sa1)
        as [[[]|e'] sa2] eqn:Hh; [|reflexivity].
      apply IHk. apply (run_step_index _ _ _ _ _ _ Hmono) in Hh. lia.
  - rewrite <- (Hagree sa Hn).
    destruct (nx1 sa) as [[[]|e] sa1] eqn:H1; [|reflexivity].
    apply IH. apply Hmono in H1. lia.
Qed.

(** [next] does the same at every depth that covers the steps left, so
    the depth [_executeMiddleware] starts with, the number of steps,
    never cuts the chain short. *)
Lemma next_depth_enough now steps d d' sa :
  (length steps <= index_of sa + d)%nat ->
  (length steps <= index_of sa + d')%nat ->
  AIAssistant.next now steps d sa = AIAssistant.next now steps d' sa.
Proof.
  revert d' sa. induction d as [|d IH]; intros d' sa Hd Hd'.
  - destruct d' as [|d']; [reflexivity|]. cbn [AIAssistant.next].
    unfold index_of in *. rewrite lookup_ge_None_2 by lia. reflexivity.
  - destruct d' as [|d']; cbn [AIAssistant.next].
    + unfold index_of in *. rewrite lookup_ge_None_2 by lia. reflexivity.
    + destruct (steps !! AIAssistant.index (fst sa)) as [m|]; [|reflexivity].
      apply (run_step_agree (S (index_of sa))).
      * intros sa1 Hs1. apply IH; lia.
      * intros sa1 r1 sa1'. apply next_index.
      * unfold index_of. simpl. lia.
Qed.


(** ** Release to the AI *)

Lemma obj_get_refreshed (k : string) (t t' : Thread) (l : list (string * Thread)) :
  obj_get k l = Some t -> chatId t' = k -> obj_get k (refreshed t' l) = Some t'.
Proof.
  intros Hget <-. induction l as [|[k' v'] l IH]; simpl in *; [discriminate|].
  destruct (String.eqb_spec k' (chatId t')) as [->|Hne]; simpl.
  - rewrite String.eqb_refl. reflexivity.
  - destruct (String.eqb_spec k' (chatId t')); [contradiction|]. apply IH, Hget.
Qed.

Lemma call_addContext (t : Thread) (key : string) (v : jsval) (a : assistant) :
  AIAssistant.call_thread t (Thread.addContext key v) a
  = (Return (tt, with_context (map_set key v (_context t)) t),
     set_threads (refreshed (with_context (map_set key v (_context t)) t))
       (set_storage
          <[chatId t := snapshot (with_context (map_set key v (_context t)) t)]> a)).
Proof. reflexivity. Qed.

Lemma createThread_returns (k : string) (now : Z) (a a1 : assistant) (t : Thread) :
  AIAssistant.createThread k now a = (Return t, a1) ->
  map_get k (_threads a1) = Some t /\ chatId t = k.
Proof.
  unfold AIAssistant.createThread, bind.
  destruct (if _ <=? _ then _ else _) as [[[]|e] a2]; [|discriminate].
  destruct (MemoryThreadStorage.getThread k now a2) as [[d|e] a3]; [|discriminate].
  destruct (match d with Some data => ret data | None => _ end a3) as [[d'|e] a4];
    [|discriminate].
  unfold Thread.constructor.
  destruct (Thread.provider_registered a4 _); [|discriminate].
  unfold modify, ret. intros [= <- <-]. simpl.
  split; [apply obj_get_obj_set|reflexivity].
Qed.

Lemma thread_for_returns (k : string) (now : Z) (a a1 : assistant) (t : Thread) :
  AIAssistant.thread_for k now a = (Return t, a1) ->
  map_get k (_threads a1) = Some t /\ _handoffState a1 = _handoffState a.
Proof.
  intros Hrun. split.
  - unfold AIAssistant.thread_for, bind, gets in Hrun.
    destruct (map_get k (_threads a)) as [t0|] eqn:Hget.
    + injection Hrun as <- <-. exact Hget.
    + apply createThread_returns in Hrun. apply Hrun.
  - apply (maintains_thread_for (fun l => l = _handoffState a) k now a _ _ Hrun).
    reflexivity.
Qed.

Lemma releaseToAI_in_human_mode (k summary : string) (metadata : jsval)
    (now : Z) (a a1 : assistant) (t : Thread) :
  AIAssistant.isInHumanMode a k = true ->
  AIAssistant.thread_for k now a = (Return t, a1) ->
  AIAssistant.releaseToAI k summary metadata now a
  = (Return true, released k summary metadata t a1).
Proof.
  intros Hmode Hthread. unfold AIAssistant.releaseToAI. rewrite Hmode.
  cbn [negb]. unfold bind at 1. rewrite Hthread.
  unfold released, bind at 1, modify at 1.
  destruct (truthy (JStr summary)).
  - unfold bind at 1, bind at 1. rewrite call_addContext.
    unfold bind at 1, modify at 1, ret at 1.
    destruct (truthy metadata && _)%bool.
    + unfold bind at 1, bind at 1. rewrite call_addContext.
      unfold ret at 1, bind at 1, saveThread, MemoryThreadStorage.saveThread,
        modify at 1, bind, AIAssistant.notify.
      cbn [snd fst].
      destruct (onRelease _) as [f|]; [destruct (f _ _ _ _)|]; reflexivity.
    + unfold bind at 1, ret at 1, bind at 1, saveThread,
        MemoryThreadStorage.saveThread, modify at 1, bind, AIAssistant.notify.
      cbn [snd fst].
      destruct (onRelease _) as [f|]; [destruct (f _ _ _ _)|]; reflexivity.
  - unfold bind at 1, ret at 1.
    destruct (truthy metadata && _)%bool.
    + unfold bind at 1, bind at 1. rewrite call_addContext.
      unfold ret at 1, bind at 1, saveThread, MemoryThreadStorage.saveThread,
        modify at 1, bind, AIAssistant.notify.
      cbn [snd fst].
      destruct (onRelease _) as [f|]; [destruct (f _ _ _ _)|]; reflexivity.
    + unfold bind at 1, ret at 1, bind at 1, saveThread,
        MemoryThreadStorage.saveThread, modify at 1, bind, AIAssistant.notify.
      cbn [snd fst].
      destruct (onRelease _) as [f|]; [destruct (f _ _ _ _)|]; reflexivity.
Qed.

Lemma releaseToAI_in_ai_mode (k summary : string) (metadata : jsval) (now : Z)
    (a : assistant) :
  AIAssistant.isInHumanMode a k = false ->
  AIAssistant.releaseToAI k summary metadata now a = (Return false, a).
Proof. intros Hmode. unfold AIAssistant.releaseToAI. rewrite Hmode. reflexivity. Qed.

Lemma not_in_human_mode_after_delete (k : string) (a : assistant) :
  map_get k (_handoffState a) = None -> AIAssistant.isInHumanMode a k = false.
Proof.
  intros H. unfold AIAssistant.isInHumanMode, map_has.
  unfold map_get in H. rewrite H. reflexivity.
Qed.

(** C4, as amended.  On a chat in AI mode [releaseToAI] returns false
    and changes nothing.  On a chat in human mode, with the thread of the
    chat at hand (taken from the working set or created), it deletes the
    handoff entry, stores the summary in the thread context and appends
    the system message with the summary when the summary is not empty,
    stores the metadata in the thread context when the metadata has a
    key, persists the thread, and returns true; a further call then
    returns false and changes nothing. *)
Theorem releaseToAI_effect (a : assistant) (k summary : string)
    (metadata : jsval) (now : Z) :
  (AIAssistant.isInHumanMode a k = false ->
   AIAssistant.releaseToAI k summary metadata now a = (Return false, a))
  /\ (AIAssistant.isInHumanMode a k = true ->
      forall (t : Thread) (a1 : assistant),
        AIAssistant.thread_for k now a = (Return t, a1) ->
        chatId t = k ->
        (_history t < length (arrays a1))%nat ->
        exists a' : assistant,
          AIAssistant.releaseToAI k summary metadata now a = (Return true, a')
          /\ _handoffState a' = map_delete k (_handoffState a)
          /\ map_get k (_handoffState a') = None
          /\ array_at a' (_history t)
             = (array_at a1 (_history t)
                ++ if truthy (JStr summary) then [system_message summary]
                   else [])%list
          /\ map_get k (_threads a')
             = Some (with_context
                       (released_context summary metadata (_context t)) t)
          /\ _storage a' !! k
             = Some (snapshot
                       (with_context
                          (released_context summary metadata (_context t)) t))
          /\ (forall summary' metadata' now',
                AIAssistant.releaseToAI k summary' metadata' now' a'
                = (Return false, a'))).
Proof.
  split; [apply releaseToAI_in_ai_mode|].
  intros Hmode t a1 Hthread Hk Halloc.
  destruct (thread_for_returns k now a a1 t Hthread) as [Hget Hhand].
  exists (released k summary metadata t a1).
  split; [apply releaseToAI_in_human_mode; assumption|].
  assert (Hdel : _handoffState (released k summary metadata t a1)
                 = map_delete k (_handoffState a)).
  { rewrite <- Hhand. unfold released.
    destruct (truthy (JStr summary)), (truthy metadata && _)%bool; reflexivity. }
  assert (Hnone : map_get k (_handoffState (released k summary metadata t a1)) = None).
  { rewrite Hdel. apply obj_get_map_delete. }
  split; [exact Hdel|]. split; [exact Hnone|]. split.
  { unfold released.
    destruct (truthy (JStr summary)), (truthy metadata && _)%bool;
      cbn [with_context _history]; unfold array_at at 1; cbn;
      try (rewrite list_lookup_insert_eq by exact Halloc; reflexivity);
      rewrite app_nil_r; reflexivity. }
  split.
  { unfold released, released_context.
    destruct (truthy (JStr summary)), (truthy metadata && _)%bool;
      cbv beta iota zeta; cbn [_threads set_storage set_threads push set_arrays].
    - change (with_context ?c (with_context ?c' t)) with (with_context c t).
      change (_context (with_context ?c t)) with c.
      eapply obj_get_refreshed; [|exact Hk].
      eapply (obj_get_refreshed k t); [exact Hget|exact Hk].
    - eapply obj_get_refreshed; [exact Hget|exact Hk].
    - eapply obj_get_refreshed; [exact Hget|exact Hk].
    - destruct t; exact Hget. }
  split.
  { unfold released, released_context. rewrite <- Hk.
    destruct (truthy (JStr summary)), (truthy metadata && _)%bool;
      cbv beta iota zeta; cbn [_storage set_storage];
      rewrite lookup_insert_eq; reflexivity. }
  intros summary' metadata' now'.
  apply releaseToAI_in_ai_mode, not_in_human_mode_after_delete, Hnone.
Qed.

Lemma releaseToAI_effect_witness :
  (AIAssistant.isInHumanMode fresh_assistant "A" = false
   /\ AIAssistant.releaseToAI "A" "resolved" (JObj [("agent", JStr "kim")])
        3000 fresh_assistant
      = (Return false, fresh_assistant))
  /\ (AIAssistant.isInHumanMode after_handoff "A" = true
      /\ AIAssistant.thread_for "A" 3000 after_handoff
         = (Return thread_A, after_handoff)
      /\ exists a' : assistant,
           AIAssistant.releaseToAI "A" "resolved"
             (JObj [("agent", JStr "kim")]) 3000 after_handoff
           = (Return true, a')
           /\ map_get "A" (_handoffState a') = None
           /\ array_at a' 0%nat = [system_message "resolved"]
           /\ map_get "A" (_threads a')
              = Some (with_context
                        (released_context "resolved"
                           (JObj [("agent", JStr "kim")]) (_context thread_A))
                        thread_A)).
Proof.
  split.
  - split; [reflexivity|].
    apply (proj1 (releaseToAI_effect fresh_assistant "A" "resolved"
                    (JObj [("agent", JStr "kim")]) 3000)).
    reflexivity.
  - split; [vm_compute; reflexivity|]. split; [vm_compute; reflexivity|].
    destruct (proj2 (releaseToAI_effect after_handoff "A" "resolved"
                       (JObj [("agent", JStr "kim")]) 3000)
                (eq_refl : AIAssistant.isInHumanMode after_handoff "A" = true)
                thread_A after_handoff)
      as (a' & Hrun & _ & Hnone & Harr & Hthreads & _).
    + vm_compute. reflexivity.
    + reflexivity.
    + vm_compute. lia.
    + exists a'. split; [exact Hrun|]. split; [exact Hnone|].
      split; [exact Harr|exact Hthreads].
Defined.

(** C4, as stated, fails.  Released with the empty summary (the default
    of the parameter) and metadata without keys, a chat in human mode
    gets no system message in its history, and neither a summary nor
    metadata in its thread context, in memory or in storage. *)
Lemma releaseToAI_empty_summary :
  AIAssistant.isInHumanMode after_handoff "A" = true
  /\ map_get "A" (_threads after_handoff) = Some thread_A
  /\ array_at after_handoff (_history thread_A) = []
  /\ exists a' : assistant,
       AIAssistant.releaseToAI "A" EmptyString (JObj []) 3000 after_handoff
       = (Return true, a')
       /\ map_get "A" (_threads a') = Some thread_A
       /\ array_at a' (_history thread_A) = []
       /\ map_get "humanInteractionSummary" (_context thread_A) = None
       /\ map_get "releaseMetadata" (_context thread_A) = None
       /\ _storage a' !! "A" = Some (snapshot thread_A).
Proof.
  split; [vm_compute; reflexivity|]. split; [vm_compute; reflexivity|].
  split; [vm_compute; reflexivity|].
  exists (snd (AIAssistant.releaseToAI "A" EmptyString (JObj []) 3000 after_handoff)).
  split; [vm_compute; reflexivity|].
  repeat split; vm_compute; reflexivity.
Qed.

(** ** Errors at the dispatcher *)

Lemma handoffToHuman_returns (k reason : string) (metadata : jsval) (now : Z)
    (a a1 : assistant) (t : Thread) :
  AIAssistant.thread_for k now a = (Return t, a1) ->
  AIAssistant.handoffToHuman k reason metadata now a
  = (Return true, handed_over k reason metadata now t a1).
Proof.
  intros Hthread. unfold AIAssistant.handoffToHuman.
  unfold bind at 1. rewrite Hthread.
  unfold bind at 1, modify at 1, bind at 1. rewrite call_addContext.
  unfold bind at 1, saveThread, MemoryThreadStorage.saveThread, modify at 1,
    bind, AIAssistant.notify.
  cbn [snd fst].
  destruct (onHandoff _) as [f|]; [destruct (f _ _ _)|]; reflexivity.
Qed.

Lemma handed_over_state (k reason : string) (metadata : jsval) (now : Z)
    (t : Thread) (a1 : assistant) :
  map_get k (_handoffState (handed_over k reason metadata now t a1))
  = Some (handoff_state reason metadata now t).
Proof. apply obj_get_obj_set. Qed.

(** C8, as amended.  Let the chat be in AI mode, the message carry no
    handoff tag, and the AI path of [processMessage] (the call of [ask]
    and what follows it inside [try]) throw [e].  Without
    [handoffOnError] the error [e] propagates to the caller.  With
    [handoffOnError], and with the thread of the chat at hand for the
    handoff, [processMessage] returns a result of type [handoff] with
    the apology message and the message of [e], and the chat is put in
    human mode with reason [AI processing error]. *)
Theorem processMessage_error (a a1 : assistant) (chatId message : string)
    (options : Options) (now : Z) (e : js_error) :
  AIAssistant.isInHumanMode a chatId = false ->
  has_handoff_tag message = false ->
  AIAssistant.process_with_ai chatId message options now a = (Throw e, a1) ->
  (truthy (handoffOnError options) = false ->
   AIAssistant.processMessage chatId message options now a = (Throw e, a1))
  /\ (truthy (handoffOnError options) = true ->
      forall (t : Thread) (a2 : assistant),
        AIAssistant.thread_for chatId now a1 = (Return t, a2) ->
        exists (a' : assistant) (state : HandoffState),
          AIAssistant.processMessage chatId message options now a
          = (Return (AIAssistant.HandoffResult
                       (JStr AIAssistant.apology_message) (Some state)
                       (Some (message_of e))), a')
          /\ AIAssistant.result_type
               (AIAssistant.HandoffResult
                  (JStr AIAssistant.apology_message) (Some state)
                  (Some (message_of e))) = "handoff"
          /\ map_get chatId (_handoffState a') = Some state
          /\ AIAssistant.isInHumanMode a' chatId = true
          /\ reason state = "AI processing error"
          /\ metadata state = error_metadata e message
          /\ handoffTime state = now).
Proof.
  intros Hmode Htag Hai.
  assert (Hunfold :
    AIAssistant.processMessage chatId message options now a
    = try_catch (AIAssistant.process_with_ai chatId message options now)
        (fun error =>
           if truthy (handoffOnError options) then
             bind (AIAssistant.handoffToHuman chatId "AI processing error"
                     (error_metadata error message) now)
               (fun _ => bind (AIAssistant.current_handoff chatId)
                  (fun state =>
                     ret (AIAssistant.HandoffResult
                            (JStr AIAssistant.apology_message) state
                            (Some (message_of error)))))
           else throw error) a).
  { unfold AIAssistant.processMessage. rewrite Hmode.
    unfold has_handoff_tag in Htag. rewrite Htag. reflexivity. }
  rewrite Hunfold. unfold try_catch. rewrite Hai. split.
  - intros ->. reflexivity.
  - intros -> t a2 Hthread.
    exists (handed_over chatId "AI processing error" (error_metadata e message) now t a2),
           (handoff_state "AI processing error" (error_metadata e message) now t).
    unfold bind at 1.
    rewrite (handoffToHuman_returns _ _ _ _ _ _ _ Hthread).
    unfold bind, AIAssistant.current_handoff, gets, ret.
    rewrite handed_over_state.
    split; [reflexivity|]. split; [reflexivity|].
    split; [reflexivity|]. split; [|repeat split].
    unfold AIAssistant.isInHumanMode, map_has.
    pose proof (handed_over_state chatId "AI processing error"
                  (error_metadata e message) now t a2) as Hst.
    unfold map_get in *. rewrite Hst. reflexivity.
Qed.

Lemma processMessage_error_witness :
  AIAssistant.isInHumanMode failing "A" = false
  /\ has_handoff_tag "hello" = false
  /\ AIAssistant.process_with_ai "A" "hello" no_options 2000 failing
     = (Throw (Error "503 Service Unavailable"), after_failure)
  /\ AIAssistant.processMessage "A" "hello" no_options 2000 failing
     = (Throw (Error "503 Service Unavailable"), after_failure)
  /\ exists (a' : assistant) (state : HandoffState),
       AIAssistant.processMessage "A" "hello" handoff_on_error 2000 failing
       = (Return (AIAssistant.HandoffResult
                    (JStr AIAssistant.apology_message) (Some state)
                    (Some "503 Service Unavailable")), a')
       /\ AIAssistant.isInHumanMode a' "A" = true
       /\ reason state = "AI processing error".
Proof.
  split; [reflexivity|]. split; [vm_compute; reflexivity|].
  assert (H1 : AIAssistant.process_with_ai "A" "hello" no_options 2000 failing
               = (Throw (Error "503 Service Unavailable"), after_failure))
    by (vm_compute; reflexivity).
  assert (H2 : AIAssistant.process_with_ai "A" "hello" handoff_on_error 2000 failing
               = (Throw (Error "503 Service Unavailable"), after_failure))
    by (vm_compute; reflexivity).
  split; [exact H1|]. split.
  - apply (proj1 (processMessage_error failing after_failure "A" "hello"
                    no_options 2000 (Error "503 Service Unavailable")
                    eq_refl eq_refl H1)).
    reflexivity.
  - destruct (proj2 (processMessage_error failing after_failure "A" "hello"
                       handoff_on_error 2000 (Error "503 Service Unavailable")
                       eq_refl eq_refl H2)
                eq_refl failed_thread after_failure)
      as (a' & state & Hrun & _ & _ & Hmode & Hreason & _).
    + vm_compute. reflexivity.
    + exists a', state. split; [exact Hrun|]. split; [exact Hmode|exact Hreason].
Defined.

(** C8, as stated, fails: the reason recorded for the handoff is not
    [processing error]. *)
Lemma error_handoff_reason_differs :
  exists (a' : assistant) (state : HandoffState) (response : jsval)
         (error : option string),
    AIAssistant.processMessage "A" "hello" handoff_on_error 2000 failing
    = (Return (AIAssistant.HandoffResult response (Some state) error), a')
    /\ map_get "A" (_handoffState a') = Some state
    /\ reason state = "AI processing error"
    /\ reason state <> "processing error".
Proof.
  eexists _, _, _, _. split; [vm_compute; reflexivity|].
  split; [vm_compute; reflexivity|]. split; [reflexivity|discriminate].
Qed.

(** ** Eviction and reload *)

Lemma createThread_load (k : string) (now : Z) (a : assistant) :
  AIAssistant.createThread k now a
  = bind (fun a => if memory_maxThreads a <=? map_size (_threads a)
                   then AIAssistant._cleanupOldThreads a else (Return tt, a))
         (fun _ => load k now) a.
Proof. reflexivity. Qed.



Lemma load_hit (k : string) (now : Z) (a : assistant) (d : ThreadData) :
  _storage a !! k = Some d ->
  expired a now (td_lastUsed d) = false ->
  Thread.provider_registered a (config_provider a) = true ->
  load k now a
  = (Return (thread_of k d now), set_threads (map_set k (thread_of k d now)) a).
Proof.
  intros Hget Hfresh Hreg. unfold load, bind at 1.
  unfold MemoryThreadStorage.getThread. rewrite Hget.
  unfold expired in Hfresh. rewrite Hfresh.
  unfold bind at 1, ret at 1, bind at 1, Thread.constructor. rewrite Hreg.
  reflexivity.
Qed.

(** Loading a thread, whether it is found in storage or not, puts it in
    the working set, leaves the other chats' snapshots in storage and
    the arrays that exist as they are. *)
Lemma load_returns (k : string) (now : Z) (a : assistant) :
  Thread.provider_registered a (config_provider a) = true ->
  exists (t : Thread) (a1 : assistant),
    load k now a = (Return t, a1)
    /\ _threads a1 = map_set k t (_threads a)
    /\ (forall k', k' <> k -> _storage a1 !! k' = _storage a !! k')
    /\ arrays_kept a a1
    /\ setup a1 = setup a
    /\ _middleware a1 = _middleware a
    /\ _handoffState a1 = _handoffState a.
Proof.
  intros Hreg.
  assert (Hfresh : forall a0 : assistant,
            Thread.provider_registered a0 (config_provider a0) = true ->
            exists t a1,
              bind (fun a =>
                      match alloc [] a with
                      | (l, a') =>
                          (Return {| td_chatId := k; td_context := [];
                                     td_history := l; td_lastUsed := now |}, a')
                      end)
                   (fun threadData =>
                      bind (Thread.constructor k threadData now) (fun thread =>
                      bind (modify (set_threads (map_set k thread))) (fun _ =>
                      ret thread))) a0 = (Return t, a1)
              /\ _threads a1 = map_set k t (_threads a0)
              /\ _storage a1 = _storage a0
              /\ arrays_kept a0 a1
              /\ setup a1 = setup a0
              /\ _middleware a1 = _middleware a0
              /\ _handoffState a1 = _handoffState a0).
  { intros a0 Hreg0. unfold bind at 1, alloc.
    unfold bind at 1, Thread.constructor.
    change (Thread.provider_registered (set_arrays _ a0) (config_provider (set_arrays _ a0)))
      with (Thread.provider_registered a0 (config_provider a0)).
    rewrite Hreg0. eexists _, _. split; [reflexivity|].
    split; [reflexivity|]. split; [reflexivity|]. split; [|repeat split].
    split.
    - cbn [arrays set_threads set_arrays]. rewrite length_app. lia.
    - intros l Hl. unfold array_at. cbn [arrays set_threads set_arrays].
      rewrite lookup_app_l by exact Hl. reflexivity. }
  unfold load, bind at 1, MemoryThreadStorage.getThread.
  destruct (_storage a !! k) as [d|] eqn:Hget.
  - destruct (negb _ && _)%bool eqn:Hexp.
    + destruct (Hfresh (set_storage (delete k) a) Hreg)
        as (t & a1 & Hrun & Hth & Hst & Harr & Hsetup & Hmw & Hhs).
      exists t, a1. split; [exact Hrun|]. split; [exact Hth|].
      split; [|split; [exact Harr|split; [exact Hsetup|split; assumption]]].
      intros k' Hne. rewrite Hst. cbn [_storage set_storage].
      apply lookup_delete_ne. congruence.
    + exists (thread_of k d now), (set_threads (map_set k (thread_of k d now)) a).
      unfold bind at 1, ret at 1, bind at 1, Thread.constructor. rewrite Hreg.
      split; [reflexivity|]. split; [reflexivity|]. split; [reflexivity|].
      split; [split; [reflexivity|reflexivity]|]. repeat split.
  - destruct (Hfresh a Hreg) as (t & a1 & Hrun & Hth & Hst & Harr & Hsetup & Hmw & Hhs).
    exists t, a1. split; [exact Hrun|]. split; [exact Hth|].
    split; [|split; [exact Harr|split; [exact Hsetup|split; assumption]]].
    intros k' _. rewrite Hst. reflexivity.
Qed.



Lemma length_map_delete_le {A} (k : string) (l : list (string * A)) :
  (length (map_delete k l) <= length l)%nat.
Proof.
  induction l as [|kv l IH]; [reflexivity|].
  rewrite map_delete_cons. destruct (String.eqb _ _); simpl; lia.
Qed.

Lemma length_map_delete_lt {A} (k : string) (l : list (string * A)) :
  In k (map fst l) -> (length (map_delete k l) < length l)%nat.
Proof.
  induction l as [|[k' v] l IH]; simpl; [intros []|].
  rewrite map_delete_cons. simpl.
  destruct (String.eqb_spec k' k) as [->|Hne].
  - intros _. pose proof (length_map_delete_le k l). lia.
  - intros [H|H]; [contradiction|]. simpl. apply IH in H. lia.
Qed.

Lemma length_obj_set_le {A} (k : string) (v : A) (l : list (string * A)) :
  (length (obj_set k v l) <= S (length l))%nat.
Proof.
  induction l as [|[k' v'] l IH]; simpl; [lia|].
  destruct (String.eqb k' k); simpl; lia.
Qed.

Lemma map_delete_absent {A} (k : string) (l : list (string * A)) :
  ~ In k (map fst l) -> map_delete k l = l.
Proof.
  induction l as [|[k' v] l IH]; [reflexivity|].
  rewrite map_delete_cons. simpl. intros Hnotin.
  destruct (String.eqb_spec k' k) as [->|Hne].
  - exfalso. apply Hnotin. left. reflexivity.
  - rewrite IH; [reflexivity|]. intros H. apply Hnotin. right. exact H.
Qed.

Lemma map_delete_app {A} (k : string) (l1 l2 : list (string * A)) :
  map_delete k (l1 ++ l2) = (map_delete k l1 ++ map_delete k l2)%list.
Proof. unfold map_delete. apply filter_app. Qed.

(** The first entry of the sorted working set is the first of the
    entries that were used least recently. *)
Lemma sort_head (l : list (string * Thread)) :
  l <> [] ->
  exists x pre post rest,
    l = (pre ++ x :: post)%list
    /\ AIAssistant.sort_by_lastUsed l = x :: rest
    /\ Forall (fun y : string * Thread => lastUsed (snd x) < lastUsed (snd y)) pre
    /\ Forall (fun y : string * Thread => lastUsed (snd x) <= lastUsed (snd y)) post.
Proof.
  induction l as [|y l IH]; [congruence|]. intros _.
  destruct l as [|z l'].
  - exists y, [], [], []. repeat split; constructor.
  - destruct IH as (x & pre & post & rest & Hl & Hsort & Hpre & Hpost);
      [congruence|].
    unfold AIAssistant.sort_by_lastUsed in *.
    change (foldr AIAssistant.insert_by_lastUsed [] (y :: z :: l'))
      with (AIAssistant.insert_by_lastUsed y
              (foldr AIAssistant.insert_by_lastUsed [] (z :: l'))).
    rewrite Hsort. cbn [AIAssistant.insert_by_lastUsed].
    destruct (lastUsed (snd y) <=? lastUsed (snd x)) eqn:Hle.
    + apply Z.leb_le in Hle.
      exists y, [], (z :: l'), (x :: rest).
      split; [reflexivity|]. split; [reflexivity|]. split; [constructor|].
      rewrite Hl. apply Forall_app. split; [|constructor].
      * eapply Forall_impl; [exact Hpre|]. intros w Hw. simpl in Hw. lia.
      * exact Hle.
      * eapply Forall_impl; [exact Hpost|]. intros w Hw. simpl in Hw. lia.
    + apply Z.leb_gt in Hle.
      exists x, (y :: pre), post, (AIAssistant.insert_by_lastUsed y rest).
      split; [rewrite Hl; reflexivity|]. split; [reflexivity|].
      split; [constructor; [exact Hle|exact Hpre]|exact Hpost].
Qed.

Lemma evict_done (ts : list (string * Thread)) (a : assistant) :
  map_size (_threads a) < memory_maxThreads a ->
  AIAssistant.evict ts a = (Return tt, a).
Proof.
  intros Hroom. apply Z.leb_gt in Hroom.
  destruct ts as [|[k t] ts]; simpl; rewrite Hroom; reflexivity.
Qed.

(** A full working set: [_cleanupOldThreads] persists one thread, the
    first of those used least recently, and takes it away. *)
Lemma cleanup_head (a : assistant) :
  1 <= memory_maxThreads a ->
  map_size (_threads a) = memory_maxThreads a ->
  exists k t pre post,
    _threads a = (pre ++ (k, t) :: post)%list
    /\ Forall (fun y : string * Thread => lastUsed t < lastUsed (snd y)) pre
    /\ Forall (fun y : string * Thread => lastUsed t <= lastUsed (snd y)) post
    /\ AIAssistant._cleanupOldThreads a = (Return tt, evicted k t a).
Proof.
  intros Hmax Hfull.
  destruct (sort_head (_threads a)) as ([k t] & pre & post & rest & Hl & Hsort
                                        & Hpre & Hpost).
  { intros Hnil. rewrite Hnil in Hfull. unfold map_size in Hfull. simpl in Hfull. lia. }
  exists k, t, pre, post. split; [exact Hl|]. split; [exact Hpre|].
  split; [exact Hpost|].
  unfold AIAssistant._cleanupOldThreads. rewrite Hsort.
  cbn [AIAssistant.evict].
  replace (memory_maxThreads a <=? map_size (_threads a)) with true
    by (symmetry; apply Z.leb_le; lia).
  unfold bind at 1, saveThread, MemoryThreadStorage.saveThread, modify at 1,
    bind at 1, modify at 1.
  apply evict_done. unfold evicted.
  cbn [_threads set_threads set_storage memory_maxThreads].
  assert (Hin : In k (map fst (_threads a))).
  { rewrite Hl, map_app. apply in_or_app. right. left. reflexivity. }
  apply length_map_delete_lt in Hin. unfold map_size in *. lia.
Qed.

(** With [maxThreads] at least 1, a working set within that bound and
    the backend of the configuration registered, [createThread] returns
    the thread of the chat, which is then in the working set, and the
    working set is still within the bound. *)
Lemma createThread_room (a : assistant) (k : string) (now : Z) :
  1 <= memory_maxThreads a ->
  map_size (_threads a) <= memory_maxThreads a ->
  Thread.provider_registered a (config_provider a) = true ->
  exists (t : Thread) (a' : assistant),
    AIAssistant.createThread k now a = (Return t, a')
    /\ chatId t = k
    /\ map_get k (_threads a') = Some t
    /\ map_size (_threads a') <= memory_maxThreads a'
    /\ memory_maxThreads a' = memory_maxThreads a.
Proof.
  intros Hmax Hsize Hreg. rewrite createThread_load. unfold bind at 1.
  destruct (memory_maxThreads a <=? map_size (_threads a)) eqn:Htest.
  - apply Z.leb_le in Htest.
    destruct (cleanup_head a Hmax) as (k0 & t0 & pre & post & Hl & _ & _ & Hrun);
      [lia|].
    rewrite Hrun.
    destruct (load_returns k now (evicted k0 t0 a) Hreg)
      as (t & a1 & Hload & Hth & _ & _ & Hsetup & _).
    exists t, a1. split; [exact Hload|].
    assert (Hcreate : AIAssistant.createThread k now a = (Return t, a1)).
    { rewrite createThread_load. unfold bind at 1.
      replace (memory_maxThreads a <=? map_size (_threads a)) with true
        by (symmetry; apply Z.leb_le; lia).
      rewrite Hrun. exact Hload. }
    destruct (createThread_returns _ _ _ _ _ Hcreate) as [Hget Hid].
    split; [exact Hid|]. split; [exact Hget|].
    assert (Hm : memory_maxThreads a1 = memory_maxThreads a).
    { unfold setup in Hsetup. injection Hsetup as _ _ Hm _ _ _.
      exact Hm. }
    split; [|exact Hm]. rewrite Hm, Hth.
    assert (Hin : In k0 (map fst (_threads a))).
    { rewrite Hl, map_app. apply in_or_app. right. left. reflexivity. }
    apply length_map_delete_lt in Hin.
    pose proof (length_obj_set_le k t (_threads (evicted k0 t0 a))) as Hset.
    unfold evicted in Hset. cbn [_threads set_threads set_storage] in Hset.
    unfold evicted. cbn [_threads set_threads set_storage].
    unfold map_size, map_set in *. lia.
  - apply Z.leb_gt in Htest.
    destruct (load_returns k now a Hreg)
      as (t & a1 & Hload & Hth & _ & _ & Hsetup & _).
    exists t, a1. split; [exact Hload|].
    assert (Hcreate : AIAssistant.createThread k now a = (Return t, a1)).
    { rewrite createThread_load. unfold bind at 1.
      replace (memory_maxThreads a <=? map_size (_threads a)) with false
        by (symmetry; apply Z.leb_gt; lia).
      exact Hload. }
    destruct (createThread_returns _ _ _ _ _ Hcreate) as [Hget Hid].
    split; [exact Hid|]. split; [exact Hget|].
    assert (Hm : memory_maxThreads a1 = memory_maxThreads a).
    { unfold setup in Hsetup. injection Hsetup as _ _ Hm _ _ _.
      exact Hm. }
    split; [|exact Hm]. rewrite Hm, Hth.
    pose proof (length_obj_set_le k t (_threads a)) as Hset.
    unfold map_size, map_set in *. lia.
Qed.

(** ** The middleware chain and the threads *)

(** Getting, making and changing a thread leave the rest of the
    assistant alone. *)
Lemma besides_threads_createThread (a0 : assistant) k now :
  maintains (fun x => besides_threads x = besides_threads a0)
    (AIAssistant.createThread k now).
Proof. apply memory_createThread; intros f a H; exact H. Qed.

Lemma besides_threads_thread_for (a0 : assistant) k now :
  maintains (fun x => besides_threads x = besides_threads a0)
    (AIAssistant.thread_for k now).
Proof.
  apply maintains_bind; [apply maintains_gets|].
  intros [t|]; [apply maintains_ret|apply besides_threads_createThread].
Qed.

Lemma besides_threads_addContext (a0 : assistant) t key value :
  maintains (fun x => besides_threads x = besides_threads a0)
    (AIAssistant.call_thread t (Thread.addContext key value)).
Proof. intros a r a' [= <- <-] H. exact H. Qed.

Lemma has_room_besides (a a' : assistant) :
  besides_threads a' = besides_threads a ->
  map_size (_threads a') <= memory_maxThreads a' ->
  has_room a -> has_room a'.
Proof.
  intros Hsame Hsize (Hmax & _ & Hreg).
  assert (Hm : memory_maxThreads a' = memory_maxThreads a)
    by exact (f_equal memory_maxThreads Hsame).
  assert (Hp : providers a' = providers a)
    by exact (f_equal providers Hsame).
  assert (Hc : config_provider a' = config_provider a)
    by exact (f_equal config_provider Hsame).
  split; [lia|]. split; [exact Hsize|].
  unfold Thread.provider_registered in *. rewrite Hp, Hc. exact Hreg.
Qed.

(** Where [createThread] does not fail, getting the thread of a chat
    does not fail, and [createThread] will not fail afterwards. *)
Lemma thread_for_room k now (a : assistant) :
  has_room a ->
  exists t a', AIAssistant.thread_for k now a = (Return t, a')
               /\ has_room a'.
Proof.
  intros Hroom. unfold AIAssistant.thread_for, bind, gets.
  destruct (map_get k (_threads a)) as [t|].
  - exists t, a. split; [reflexivity|exact Hroom].
  - destruct Hroom as (Hmax & Hsize & Hreg).
    destruct (createThread_room a k now Hmax Hsize Hreg)
      as (t & a1 & Hc & _ & _ & Hsize1 & Hmax1).
    exists t, a1. split; [exact Hc|].
    apply (has_room_besides a); [|exact Hsize1|repeat split; assumption].
    eapply besides_threads_createThread; [exact Hc|reflexivity].
Qed.

Lemma has_room_thread_for k now :
  maintains has_room (AIAssistant.thread_for k now).
Proof.
  intros a r a' Hrun Hroom.
  destruct (thread_for_room k now a Hroom) as (t & a1 & Hget & Hroom1).
  rewrite Hget in Hrun. injection Hrun as <- <-. exact Hroom1.
Qed.

Lemma has_room_addContext t key value :
  maintains has_room
    (AIAssistant.call_thread t (Thread.addContext key value)).
Proof.
  intros a r a' [= <- <-] (Hmax & Hsize & Hreg).
  split; [exact Hmax|]. split; [|exact Hreg].
  cbn [_threads set_threads set_storage memory_maxThreads snd].
  unfold map_size in *. rewrite length_map. exact Hsize.
Qed.

Lemma has_room_started i (a : assistant) :
  has_room a -> has_room (middleware_started i a).
Proof. intros H. exact H. Qed.

(** The assistant after the steps [l] have started. *)
Lemma fold_started_frame l (a : assistant) :
  fold_left (fun a i => middleware_started i a) l a
  = {| config_provider := config_provider a; memory_ttl := memory_ttl a;
       memory_maxThreads := memory_maxThreads a; _storage := _storage a;
       _threads := _threads a; _functions := _functions a;
       _middleware := _middleware a; _stats := _stats a;
       _handoffState := _handoffState a; _humanHandlers := _humanHandlers a;
       arrays := arrays a; providers := providers a; backend := backend a;
       backend_calls := backend_calls a;
       middleware_ran := (middleware_ran a ++ l)%list |}.
Proof.
  revert a. induction l as [|i l IH]; intros a; simpl.
  - rewrite app_nil_r. destruct a; reflexivity.
  - rewrite IH. simpl. rewrite <- app_assoc. reflexivity.
Qed.

Lemma with_room_started a0 l i (x : assistant) :
  with_room a0 l x -> with_room a0 (l ++ [i])%list (middleware_started i x).
Proof.
  intros [Hroom Hsame]. split; [exact Hroom|].
  rewrite fold_left_app. cbn [fold_left].
  change (besides_threads (middleware_started i x))
    with (middleware_started i (besides_threads x)).
  rewrite Hsame. reflexivity.
Qed.

Lemma with_room_thread_for a0 l k now :
  maintains (with_room a0 l) (AIAssistant.thread_for k now).
Proof.
  intros a r a' Hrun [Hroom Hsame]. split.
  - eapply has_room_thread_for; [exact Hrun|exact Hroom].
  - rewrite <- Hsame.
    eapply besides_threads_thread_for; [exact Hrun|reflexivity].
Qed.

Lemma with_room_addContext a0 l t key value :
  maintains (with_room a0 l)
    (AIAssistant.call_thread t (Thread.addContext key value)).
Proof.
  intros a r a' Hrun [Hroom Hsame]. split.
  - eapply has_room_addContext; [exact Hrun|exact Hroom].
  - rewrite <- Hsame.
    eapply besides_threads_addContext; [exact Hrun|reflexivity].
Qed.

Lemma only_started_started a0 l i (x : assistant) :
  only_started a0 l x ->
  only_started a0 (l ++ [i])%list (middleware_started i x).
Proof.
  unfold only_started. intros ->. rewrite fold_left_app. reflexivity.
Qed.





Lemma with_room_at_hand a0 l k now (x : assistant) :
  with_room a0 l x ->
  exists t a', AIAssistant.thread_for k now x = (Return t, a').
Proof.
  intros [Hroom _].
  destruct (thread_for_room k now x Hroom) as (t & a1 & Hget & _).
  exists t, a1. exact Hget.
Qed.


Lemma next_passes_all_free (a0 : assistant) now (steps : list middleware) :
  Forall passes_on steps -> Forall thread_free steps ->
  forall j i depth l sa,
    (i + j = length steps)%nat -> (j <= depth)%nat -> index_of sa = i ->
    only_started a0 l (snd sa) ->
    exists sa',
      AIAssistant.next now steps depth sa = (Return tt, sa')
      /\ index_of sa' = length steps
      /\ only_started a0 (l ++ seq i j)%list (snd sa').
Proof.
  intros Hpre Hall.
  apply (next_passes_all (only_started a0) true);
    [apply only_started_started|discriminate|discriminate|discriminate
    |exact Hpre|intros _; exact Hall].
Qed.

Lemma next_passes_all_room (a0 : assistant) now (steps : list middleware) :
  Forall passes_on steps ->
  forall j i depth l sa,
    (i + j = length steps)%nat -> (j <= depth)%nat -> index_of sa = i ->
    with_room a0 l (snd sa) ->
    exists sa',
      AIAssistant.next now steps depth sa = (Return tt, sa')
      /\ index_of sa' = length steps
      /\ with_room a0 (l ++ seq i j)%list (snd sa').
Proof.
  intros Hpre.
  apply (next_passes_all (with_room a0) false);
    [apply with_room_started
    |intros _; apply with_room_thread_for
    |intros _; apply with_room_addContext
    |intros _; apply with_room_at_hand
    |exact Hpre|discriminate].
Qed.





(** The same with steps that use no thread: nothing but the counter of
    requests and the record of the steps has changed. *)
Example short_circuit_without_threads :
  AIAssistant.ask "A" "hi" no_options 1000 filtered
  = (Return (JStr "I can't process that request."),
     answered_by_middleware 2 filtered).
Proof. vm_compute. reflexivity. Qed.








(** A middleware step that uses the thread of the chat does the reload
    itself: [ask] finds the thread in the context, and the backend is
    sent the earlier history followed by the new prompt all the same. *)
Example reload_by_middleware :
  forall a1 : assistant,
    a1 = set_middleware (fun _ => [enrichment_step known_contact "12:00"])
           (snd (AIAssistant.createThread "B" 3000 talked)) ->
    map fst (_threads a1) = ["B"]
    /\ backend_calls (snd (AIAssistant.ask "A" "again" no_options 4000 a1))
       = (backend_calls a1
          ++ [(talked_history ++ [user_message "again"])%list])%list
    /\ map fst (_threads (snd (AIAssistant.ask "A" "again" no_options 4000 a1)))
       = ["A"].
Proof.
  intros a1 ->. split; [vm_compute; reflexivity|].
  split; vm_compute; reflexivity.
Qed.

(** With several threads in the working set the one used longest ago
    goes first, and no more threads go than are needed. *)
Example eviction_oldest_first :
  map fst (_threads (snd (AIAssistant.createThread "B" 4000 two_slots)))
  = ["A"; "B"]
  /\ map fst (map_to_list
               (_storage (snd (AIAssistant.createThread "B" 4000 two_slots))))
     = ["C"].
Proof. split; vm_compute; reflexivity. Qed.

(** ** The dispatcher on tagged messages *)

(** A message with a handoff tag puts the chat in human mode, with the
    text after the tag as the reason. *)
Example processMessage_user_tag :
  exists (a' : assistant) (state : HandoffState),
    AIAssistant.processMessage "A" "#human please help me now" no_options 2000
      fresh_assistant
    = (Return (AIAssistant.HandoffResult (JStr AIAssistant.transfer_message)
                 (Some state) None), a')
    /\ AIAssistant.isInHumanMode a' "A" = true
    /\ reason state = "please help me now".
Proof.
  eexists _, _. split; [vm_compute; reflexivity|].
  split; vm_compute; reflexivity.
Qed.

(** An answer of the backend is taken for a request for a human when it
    contains the tag as a whole, [[handoff]] or [[human needed]]; the
    tag is removed from the answer. *)
Example processMessage_ai_tag :
  exists (a' : assistant) (state : HandoffState),
    AIAssistant.processMessage "A" "my bill is wrong" no_options 2000
      (with_world default_providers
         [Content (JStr "Let me get someone. [handoff]")] fresh_assistant)
    = (Return (AIAssistant.HandoffResult (JStr "Let me get someone.")
                 (Some state) None), a')
    /\ reason state = "AI requested human assistance".
Proof.
  eexists _, _. split; [vm_compute; reflexivity|]. reflexivity.
Qed.

(** * Further properties of the code *)

(** ** The storage adapter *)

(** X1.  Saving a snapshot and reading it back, within the TTL, gives the
    snapshot and leaves the storage as the save left it. *)
Theorem save_then_get (a : assistant) (d : ThreadData) (now : Z) :
  expired a now (td_lastUsed d) = false ->
  MemoryThreadStorage.getThread (td_chatId d) now (stored d a)
  = (Return (Some d), stored d a).
Proof.
  intros Hfresh. unfold MemoryThreadStorage.getThread, stored,
    MemoryThreadStorage.saveThread, modify. cbn [snd _storage set_storage
    memory_ttl].
  rewrite lookup_insert_eq. unfold expired in Hfresh. rewrite Hfresh.
  reflexivity.
Qed.

Lemma save_then_get_witness :
  expired fresh_assistant 6000 (td_lastUsed kept_snapshot) = false
  /\ MemoryThreadStorage.getThread "A" 6000 (stored kept_snapshot fresh_assistant)
     = (Return (Some kept_snapshot), stored kept_snapshot fresh_assistant).
Proof.
  split; [reflexivity|].
  apply (save_then_get fresh_assistant kept_snapshot 6000). reflexivity.
Defined.

(** X2.  Saving is an upsert by chat id: the last snapshot saved for a chat is
    the one kept, and the snapshots of other chats are not touched. *)
Theorem save_is_upsert (a : assistant) (d1 d2 : ThreadData) (k : string) :
  td_chatId d1 = td_chatId d2 ->
  _storage (stored d2 (stored d1 a)) !! td_chatId d1 = Some d2
  /\ stored d2 (stored d1 a) = stored d2 a
  /\ (k <> td_chatId d1 ->
      _storage (stored d2 (stored d1 a)) !! k = _storage a !! k).
Proof.
  intros Hsame. unfold stored, MemoryThreadStorage.saveThread, modify.
  cbn [snd _storage set_storage]. rewrite Hsame. split; [|split].
  - apply lookup_insert_eq.
  - unfold set_storage. cbn. rewrite insert_insert_eq. reflexivity.
  - intros Hne. rewrite !lookup_insert_ne by congruence. reflexivity.
Qed.

Lemma save_is_upsert_witness :
  td_chatId kept_snapshot
  = td_chatId {| td_chatId := "A"; td_context := []; td_history := 0%nat;
                 td_lastUsed := 7000 |}
  /\ _storage (stored {| td_chatId := "A"; td_context := [];
                         td_history := 0%nat; td_lastUsed := 7000 |}
                 (stored kept_snapshot fresh_assistant)) !! "A"
     = Some {| td_chatId := "A"; td_context := []; td_history := 0%nat;
               td_lastUsed := 7000 |}.
Proof.
  split; [reflexivity|].
  apply (save_is_upsert fresh_assistant kept_snapshot
           {| td_chatId := "A"; td_context := []; td_history := 0%nat;
              td_lastUsed := 7000 |} "B").
  reflexivity.
Defined.

(** X3.  Expiry is lazy: reading a snapshot that is older than the TTL reports
    it absent and removes it, so that it stays absent whenever it is read
    again; the snapshots of other chats are not touched. *)
Theorem get_expired_removes (a : assistant) (k : string) (d : ThreadData)
    (now : Z) :
  _storage a !! k = Some d ->
  expired a now (td_lastUsed d) = true ->
  exists a' : assistant,
    MemoryThreadStorage.getThread k now a = (Return None, a')
    /\ _storage a' !! k = None
    /\ (forall k', k' <> k -> _storage a' !! k' = _storage a !! k')
    /\ (forall now', MemoryThreadStorage.getThread k now' a'
                     = (Return None, a')).
Proof.
  intros Hget Hold. exists (set_storage (delete k) a).
  unfold MemoryThreadStorage.getThread. rewrite Hget.
  unfold expired in Hold. rewrite Hold. cbn [_storage set_storage].
  split; [reflexivity|]. split; [apply lookup_delete_eq|]. split.
  - intros k' Hne. apply lookup_delete_ne. congruence.
  - intros now'. rewrite lookup_delete_eq. reflexivity.
Qed.

Lemma get_expired_removes_witness :
  _storage with_snapshot !! "A" = Some kept_snapshot
  /\ expired with_snapshot 3605001 (td_lastUsed kept_snapshot) = true
  /\ exists a' : assistant,
       MemoryThreadStorage.getThread "A" 3605001 with_snapshot
       = (Return None, a')
       /\ _storage a' !! "A" = None.
Proof.
  split; [vm_compute; reflexivity|]. split; [reflexivity|].
  destruct (get_expired_removes with_snapshot "A" kept_snapshot 3605001)
    as (a' & Hrun & Hnone & _).
  - vm_compute. reflexivity.
  - reflexivity.
  - exists a'. split; assumption.
Defined.

(** X4.  [deleteThread] tells whether there was a snapshot, and leaves none;
    the snapshots of other chats are not touched. *)
Theorem delete_then_get (a : assistant) (k : string) (now : Z) :
  fst (MemoryThreadStorage.deleteThread k a)
  = Return (bool_decide (is_Some (_storage a !! k)))
  /\ MemoryThreadStorage.getThread k now
       (snd (MemoryThreadStorage.deleteThread k a))
     = (Return None, snd (MemoryThreadStorage.deleteThread k a))
  /\ fst (MemoryThreadStorage.deleteThread k
            (snd (MemoryThreadStorage.deleteThread k a)))
     = Return false
  /\ (forall k', k' <> k ->
        _storage (snd (MemoryThreadStorage.deleteThread k a)) !! k'
        = _storage a !! k').
Proof.
  unfold MemoryThreadStorage.deleteThread, MemoryThreadStorage.getThread.
  cbn [fst snd _storage set_storage]. rewrite lookup_delete_eq.
  split; [reflexivity|]. split; [reflexivity|]. split.
  - reflexivity.
  - intros k' Hne. apply lookup_delete_ne. congruence.
Qed.

(** ** Threads *)

Lemma obj_get_obj_set_ne {A} (k k' : string) (v : A) (l : list (string * A)) :
  k' <> k -> obj_get k' (obj_set k v l) = obj_get k' l.
Proof.
  intros Hne. induction l as [|[k0 v0] l IH]; simpl.
  - destruct (String.eqb_spec k k'); [congruence|reflexivity].
  - destruct (String.eqb_spec k0 k) as [->|Hk]; simpl.
    + destruct (String.eqb_spec k k'); [congruence|].
      destruct (String.eqb_spec k k'); [congruence|reflexivity].
    + destruct (String.eqb_spec k0 k'); [reflexivity|exact IH].
Qed.

(** X5.  [addContext] sets the key in the context of the thread, leaves the
    other keys as they are, and persists the thread at once: the stored
    snapshot of the chat is the thread as it now is.  The history and
    [lastUsed] are as before. *)
Theorem addContext_then_getContext (t : Thread) (a : assistant)
    (key : string) (value : jsval) :
  exists (t' : Thread) (a' : assistant),
    Thread.addContext key value (t, a) = (Return tt, (t', a'))
    /\ map_get key (Thread.getContext t') = Some value
    /\ (forall k, k <> key ->
          map_get k (Thread.getContext t') = map_get k (Thread.getContext t))
    /\ _storage a' !! chatId t = Some (snapshot t')
    /\ chatId t' = chatId t /\ _history t' = _history t
    /\ lastUsed t' = lastUsed t
    /\ arrays a' = arrays a /\ _threads a' = _threads a.
Proof.
  eexists _, _. split; [reflexivity|]. cbn [Thread.getContext _context].
  split; [apply obj_get_obj_set|]. split.
  - intros k Hne. apply obj_get_obj_set_ne. exact Hne.
  - split; [apply lookup_insert_eq|]. repeat split.
Qed.

(** X6.  A call of a function the backend asks for: a function that is not
    registered makes the call throw, naming the function; a registered
    function never does, for what it throws comes back as a result
    [{error: message}]. *)
Theorem handleFunctionCall_outcomes (a : assistant) (fname arguments : string) :
  (_functions a !! fname = None ->
   Thread._handleFunctionCall a fname arguments
   = Throw (Error ("Function " ++ fname ++ " not found")))
  /\ (forall fn, _functions a !! fname = Some fn ->
        (forall v, fn arguments = Return v ->
           Thread._handleFunctionCall a fname arguments = Return v)
        /\ (forall e, fn arguments = Throw e ->
              Thread._handleFunctionCall a fname arguments
              = Return (JObj [("error", JStr (message_of e))])))
  /\ ((exists e, Thread._handleFunctionCall a fname arguments = Throw e)
      <-> _functions a !! fname = None).
Proof.
  unfold Thread._handleFunctionCall, registered_function.
  match goal with
  | |- context [@lookup ?K ?A ?M ?I fname ?m] =>
      destruct (@lookup K A M I fname m) as [fn|]
  end.
  - split; [intros H; discriminate H|]. split.
    + intros fn' [= <-]. split.
      * intros v ->. reflexivity.
      * intros e ->. reflexivity.
    + split; [|intros H; discriminate H]. intros [e He].
      destruct (fn arguments); discriminate He.
  - split; [reflexivity|]. split.
    + intros fn' H. discriminate H.
    + split; [reflexivity|]. intros _. eexists. reflexivity.
Qed.

Lemma registerFunctions_lookup (m : gmap string registered_function)
    (functions : list (string * registered_function)) (fname : string) :
  fold_left (fun m kv => <[fst kv := snd kv]> m) functions m !! fname
  = match registered_as fname functions with
    | Some fn => Some fn
    | None => m !! fname
    end.
Proof.
  unfold registered_as.
  induction functions as [|[k fn] functions IH] using rev_ind.
  - reflexivity.
  - rewrite fold_left_app, rev_app_distr. cbn [fold_left rev app fst snd obj_get].
    destruct (String.eqb_spec k fname) as [->|Hne].
    + apply lookup_insert_eq.
    + rewrite lookup_insert_ne by exact Hne. exact IH.
Qed.

(** X7.  After [registerFunctions(functions)] a call of a name that is
    among the entries runs the function registered under that name,
    whatever else was registered before it, with it or after it in the
    same call (of two entries with one name the later one counts), and
    gives its result, or [{error: message}] if it throws; a name that
    is not among the entries is handled as it was before. *)
Theorem registerFunctions_then_call (a : assistant)
    (functions : list (string * registered_function))
    (fname arguments : string) :
  Thread._handleFunctionCall
    (snd (AIAssistant.registerFunctions functions a)) fname arguments
  = match registered_as fname functions with
    | Some fn => function_result (fn arguments)
    | None => Thread._handleFunctionCall a fname arguments
    end.
Proof.
  unfold AIAssistant.registerFunctions, modify, Thread._handleFunctionCall.
  cbn [snd _functions set_functions].
  rewrite registerFunctions_lookup.
  destruct (registered_as fname functions) as [fn|]; reflexivity.
Qed.

Example later_registration_wins :
  Thread._handleFunctionCall
    (snd (AIAssistant.registerFunctions
            [("echo", fun _ => Throw (Error "old")); ("echo", echo_function);
             ("other", fun _ => Return JNull)]
            fresh_assistant))
    "echo" "{}"
  = Return (JStr "{}").
Proof. vm_compute. reflexivity. Qed.

Lemma callAI_loop_answers (options : Options) (final : reply)
    (rest : list reply) :
  truthy (fallbackResponse options) = true ->
  asks_for_function final = false ->
  forall (calls : list reply) (messages : list Message) (a : assistant),
    Forall (fun r => asks_for_function r = true) calls ->
    exists a',
      Thread._callAI_loop (calls ++ final :: rest)%list messages options a
      = (Return (if all_registered a calls then
                   match final with
                   | Content c => c
                   | _ => fallbackResponse options
                   end
                 else fallbackResponse options), a')
      /\ _functions a' = _functions a.
Proof.
  intros Hfb Hfinal.
  assert (Hrec : forall e ms b,
             Thread.recover e ms options b
             = (Return (fallbackResponse options), b)).
  { intros e ms b. unfold Thread.recover. rewrite Hfb. reflexivity. }
  induction calls as [|r calls IH]; intros messages a Hcalls.
  - cbn [app Thread._callAI_loop all_registered forallb].
    destruct final as [c|c f x|e]; [|discriminate Hfinal|].
    + eexists. split; reflexivity.
    + rewrite Hrec. eexists. split; reflexivity.
  - apply Forall_cons in Hcalls as [Hr Hcalls].
    destruct r as [c|c f x|e]; [discriminate Hr| |discriminate Hr].
    cbn [app Thread._callAI_loop all_registered forallb].
    unfold Thread._handleFunctionCall. cbn [_functions backend_called].
    match goal with
    | |- context [@lookup ?K ?A ?M ?I f ?m] =>
        destruct (@lookup K A M I f m) as [fn|] eqn:Hfn
    end.
    + rewrite bool_decide_eq_true_2 by (exists fn; exact Hfn).
      cbn [andb].
      destruct (fn x) as [v|e];
        match goal with
        | |- context [Thread._callAI_loop _ ?ms options ?b] =>
            destruct (IH ms b Hcalls) as (a' & Hrun & Hsame)
        end;
        exists a'; (split; [exact Hrun|exact Hsame]).
    + rewrite bool_decide_eq_false_2.
      * cbn [andb]. rewrite Hrec. eexists. split; reflexivity.
      * intros [fn Hsome].
        assert (H0 : Some fn = None) by (rewrite <- Hsome; exact Hfn).
        discriminate H0.
Qed.

(** X8.  With a fallback response in the options, and a backend that
    after finitely many answers that ask for a function gives one that
    asks for none, [_callAI] returns and does not throw: it returns the
    content of that answer if every function asked for on the way is
    registered and the answer is no failure, and the fallback response
    otherwise. *)
Theorem callAI_with_fallback_returns (messages : list Message)
    (options : Options) (a : assistant) (calls rest : list reply)
    (final : reply) :
  truthy (fallbackResponse options) = true ->
  backend a = (calls ++ final :: rest)%list ->
  Forall (fun r => asks_for_function r = true) calls ->
  asks_for_function final = false ->
  exists a',
    Thread._callAI messages options a
    = (Return (if all_registered a calls then
                 match final with
                 | Content c => c
                 | _ => fallbackResponse options
                 end
               else fallbackResponse options), a').
Proof.
  intros Hfb Hscript Hcalls Hfinal. unfold Thread._callAI. rewrite Hscript.
  destruct (callAI_loop_answers options final rest Hfb Hfinal calls messages
              a Hcalls) as (a' & Hrun & _).
  exists a'. exact Hrun.
Qed.

Lemma callAI_with_fallback_returns_witness :
  truthy (fallbackResponse with_fallback) = true
  /\ exists a',
       Thread._callAI [user_message "where is my order?"] with_fallback
         unknown_function_call
       = (Return (JStr "Please try again later."), a').
Proof.
  split; [reflexivity|].
  apply (callAI_with_fallback_returns [user_message "where is my order?"]
           with_fallback unknown_function_call
           [FunctionCall JNull "lookupOrder" "{}"] []
           (Content (JStr "Your order is on its way."))).
  - reflexivity.
  - reflexivity.
  - repeat constructor.
  - reflexivity.
Defined.

(** X9.  A call of [Thread.ask] that throws, on a thread whose history
    is an array of the store: [saveThread] has not run, so every record
    of the storage is the one it was, with the [lastUsed] and the
    context it had; but the thread object has the new [lastUsed], also
    where it sits in the working set, and the prompt has been pushed on
    the history array of the thread, with no answer after it.  A record
    of the storage does not hold the entries of the history but the
    array itself, that of the thread unless [ask] has cut the history
    since: such a record shows the unanswered prompt too. *)
Theorem Thread_ask_throws (prompt : string) (options : Options) (now : Z)
    (this : Thread) (a a' : assistant) (e : js_error) :
  AIAssistant.call_thread this (Thread.ask prompt options now) a
  = (Throw e, a') ->
  (_history this < length (arrays a))%nat ->
  _storage a' = _storage a
  /\ _threads a' = refreshed (touched now this) (_threads a)
  /\ array_at a' (_history this)
     = (array_at a (_history this) ++ [user_message prompt])%list
  /\ (forall d, _storage a' !! chatId this = Some d ->
                td_history d = _history this ->
                array_at a' (td_history d)
                = (array_at a (td_history d) ++ [user_message prompt])%list)
  /\ (forall l, l <> _history this -> array_at a' l = array_at a l).
Proof.
  unfold AIAssistant.call_thread. rewrite Thread_ask_unfold. cbv zeta.
  intros Hrun Halloc.
  destruct (callAI_frame
              (array_at (push (_history this) (user_message prompt) a) (_history this))
              options (push (_history this) (user_message prompt) a))
    as (rest & more & Hframe).
  destruct (Thread._callAI _ options _) as [[r|e0] a2].
  - destruct (Nat.ltb 20 _); discriminate.
  - injection Hrun as <- <-. simpl in Hframe. subst a2.
    assert (Harr : array_at (push (_history this) (user_message prompt) a)
                     (_history this)
                   = (array_at a (_history this) ++ [user_message prompt])%list)
      by apply array_at_push_same, Halloc.
    split; [reflexivity|]. split; [reflexivity|].
    split; [exact Harr|]. split.
    + intros d _ ->. exact Harr.
    + intros l Hl. unfold array_at, push. cbn [arrays set_threads with_backend set_arrays].
      rewrite list_lookup_insert_ne by congruence. reflexivity.
Qed.

Lemma Thread_ask_throws_witness :
  exists a' : assistant,
    AIAssistant.call_thread (fst failing_thread)
      (Thread.ask "again" no_options 2000) (snd failing_thread)
    = (Throw (Error "503 Service Unavailable"), a')
    /\ _storage a' !! "A" = Some (snapshot (fst failing_thread))
    /\ map_get "A" (_threads a') = Some (touched 2000 (fst failing_thread))
    /\ array_at a' (td_history (snapshot (fst failing_thread)))
       = [user_message "hello"; assistant_message (JStr "hi");
          user_message "again"].
Proof.
  assert (Hrun : AIAssistant.call_thread (fst failing_thread)
                   (Thread.ask "again" no_options 2000) (snd failing_thread)
                 = (Throw (Error "503 Service Unavailable"),
                    snd (AIAssistant.call_thread (fst failing_thread)
                           (Thread.ask "again" no_options 2000)
                           (snd failing_thread))))
    by (vm_compute; reflexivity).
  exists (snd (AIAssistant.call_thread (fst failing_thread)
                 (Thread.ask "again" no_options 2000) (snd failing_thread))).
  split; [exact Hrun|].
  destruct (Thread_ask_throws "again" no_options 2000 (fst failing_thread)
              (snd failing_thread) _ (Error "503 Service Unavailable") Hrun)
    as (Hst & Hth & _ & Hshared & _).
  - vm_compute. lia.
  - split; [rewrite Hst; vm_compute; reflexivity|].
    split; [rewrite Hth; vm_compute; reflexivity|].
    rewrite (Hshared (snapshot (fst failing_thread))).
    + vm_compute. reflexivity.
    + rewrite Hst. vm_compute. reflexivity.
    + reflexivity.
Defined.

(** ** Invariants of the assistant *)

(** What the code between the public entry points keeps: an invariant
    that survives a write to the storage, a new or longer array, a call
    of the backend, the start of a middleware step, a method call on a
    thread of the working set and [createThread]. *)
Section Invariant.
Context (I : assistant -> Prop).
Let J : Thread * assistant -> Prop := fun s => I (snd s).

Hypothesis keeps_storage : forall f a, I a -> I (set_storage f a).
Hypothesis keeps_arrays : forall f a, I a -> I (set_arrays f a).
Hypothesis keeps_backend :
  forall rest calls a, I a -> I (with_backend rest calls a).
Hypothesis keeps_started : forall i a, I a -> I (middleware_started i a).
Hypothesis keeps_refreshed :
  forall t a, I a -> I (set_threads (refreshed t) a).
Hypothesis creates :
  forall k now, maintains I (AIAssistant.createThread k now).

Lemma inv_on_assistant {A} (m : M assistant A) :
  maintains I m -> maintains J (Thread.on_assistant m).
Proof.
  intros Hm [t a] r [t' a'] Hrun H. unfold Thread.on_assistant in Hrun.
  simpl in *. destruct (m a) as [r0 a0] eqn:Hma. injection Hrun as <- <- <-.
  eapply Hm; eauto.
Qed.

Lemma inv_modify_this f : maintains J (Thread.modify_this f).
Proof. intros [t a] r s' [= <- <-] H. exact H. Qed.

Lemma inv_saveThread t : maintains I (saveThread t).
Proof. apply maintains_modify. intros a H. apply keeps_storage, H. Qed.

Lemma inv_saveChanges : maintains J Thread._saveChanges.
Proof.
  apply maintains_bind; [apply maintains_gets|].
  intros t. apply inv_on_assistant, inv_saveThread.
Qed.

Lemma inv_addContext k v : maintains J (Thread.addContext k v).
Proof.
  apply maintains_bind; [apply inv_modify_this|].
  intros _. apply inv_saveChanges.
Qed.

Lemma inv_callAI ms o : maintains I (Thread._callAI ms o).
Proof.
  intros a r a' Hrun H.
  destruct (callAI_frame ms o a) as (rest & more & Hf).
  rewrite Hrun in Hf. simpl in Hf. subst a'. apply keeps_backend, H.
Qed.

Lemma inv_push l m : maintains I (modify (push l m)).
Proof. apply maintains_modify. intros a H. apply keeps_arrays, H. Qed.

Lemma inv_Thread_ask p o now : maintains J (Thread.ask p o now).
Proof.
  unfold Thread.ask.
  apply maintains_bind; [apply inv_modify_this|]. intros _.
  apply maintains_bind; [apply maintains_gets|]. intros this.
  apply maintains_bind; [apply inv_on_assistant, inv_push|].
  intros _. apply maintains_bind; [apply maintains_gets|]. intros ms.
  apply maintains_bind; [apply inv_on_assistant, inv_callAI|].
  intros response. apply maintains_bind; [apply inv_on_assistant, inv_push|].
  intros _. apply maintains_bind; [apply maintains_gets|]. intros h.
  apply maintains_bind.
  { apply maintains_if; [|apply maintains_ret].
    apply maintains_bind; [|intros l; apply inv_modify_this].
    apply inv_on_assistant. intros a r a' [= <- <-] H. apply keeps_arrays, H. }
  intros _. apply maintains_bind; [apply inv_saveChanges|].
  intros _. apply maintains_ret.
Qed.

Lemma inv_call_thread {A} t (m : M (Thread * assistant) A) :
  maintains J m -> maintains I (AIAssistant.call_thread t m).
Proof.
  intros Hm a r a' Hrun H. unfold AIAssistant.call_thread in Hrun.
  destruct (m (t, a)) as [r0 [t' a0]] eqn:Hma.
  assert (I a0) by (eapply (Hm (t, a) r0 (t', a0)); eauto).
  destruct r0; injection Hrun as <- <-; apply (keeps_refreshed t'); assumption.
Qed.

Lemma inv_thread_for k now : maintains I (AIAssistant.thread_for k now).
Proof.
  apply maintains_bind; [apply maintains_gets|].
  intros [t|]; [apply maintains_ret|apply creates].
Qed.

Lemma inv_executeMiddleware c now :
  maintains I (AIAssistant._executeMiddleware c now).
Proof.
  intros a r a' Hrun H.
  eapply (chain_executeMiddleware I false);
    [exact keeps_started| | |discriminate|exact Hrun|exact H].
  - intros _ k now0. apply inv_thread_for.
  - intros _ t key value. apply inv_call_thread, inv_addContext.
Qed.

Lemma inv_notify call : maintains I (AIAssistant.notify call).
Proof.
  intros a r a' Hrun H. unfold AIAssistant.notify in Hrun.
  destruct (call _) as [[|]|]; injection Hrun as <- <-; exact H.
Qed.

Hypothesis keeps_stats : forall f a, I a -> I (set_stats f a).

Lemma inv_ask k p o now : maintains I (AIAssistant.ask k p o now).
Proof.
  unfold AIAssistant.ask.
  apply (maintains_cond I
           (fun a => (AIAssistant.isInHumanMode a k
                      && negb (truthy (ignoreHandoffState o)))%bool)).
  { apply maintains_throw. }
  apply maintains_bind.
  { apply maintains_modify. intros a H. apply keeps_stats, H. }
  intros _. apply maintains_try_catch.
  - apply maintains_bind; [apply inv_executeMiddleware|]. intros c.
    apply maintains_if; [apply maintains_ret|].
    apply maintains_bind; [apply maintains_gets|]. intros known.
    apply maintains_bind.
    { destruct (c_thread c); [apply maintains_ret|].
      destruct known; [apply maintains_ret|apply creates]. }
    intros t. apply maintains_bind.
    { apply inv_call_thread, inv_Thread_ask. }
    intros ans. apply maintains_bind; [|intros _; apply maintains_ret].
    apply maintains_modify. intros a H. apply keeps_stats, H.
  - intros e. apply maintains_bind.
    { apply maintains_modify. intros a H. apply keeps_stats, H. }
    intros _. apply maintains_if; [apply maintains_ret|apply maintains_throw].
Qed.

Hypothesis asks : forall k p o now, maintains I (AIAssistant.ask k p o now).

(** The chats whose handoff entry the invariant lets change. *)
Context (K : string -> Prop).
Hypothesis keeps_handoff_set :
  forall k st a, K k -> I a -> I (set_handoffState (map_set k st) a).
Hypothesis keeps_handoff_delete :
  forall k a, K k -> I a -> I (set_handoffState (map_delete k) a).

Lemma inv_handoffToHuman k reason md now :
  K k -> maintains I (AIAssistant.handoffToHuman k reason md now).
Proof.
  intros Hk. unfold AIAssistant.handoffToHuman.
  apply maintains_bind; [apply inv_thread_for|]. intros t.
  apply maintains_bind.
  { apply maintains_modify. intros a H. apply keeps_handoff_set; assumption. }
  intros _. apply maintains_bind.
  { apply inv_call_thread, inv_addContext. }
  intros c. apply maintains_bind; [apply inv_saveThread|].
  intros _. apply maintains_bind; [apply inv_notify|].
  intros _. apply maintains_ret.
Qed.

Lemma inv_releaseToAI k summary md now :
  K k -> maintains I (AIAssistant.releaseToAI k summary md now).
Proof.
  intros Hk. unfold AIAssistant.releaseToAI.
  apply (maintains_cond _ (fun a => negb (AIAssistant.isInHumanMode a k))).
  { apply maintains_ret. }
  apply maintains_bind; [apply inv_thread_for|]. intros t.
  apply maintains_bind.
  { apply maintains_modify. intros a H. apply keeps_handoff_delete; assumption. }
  intros _. apply maintains_bind.
  { apply maintains_if; [|apply maintains_ret].
    apply maintains_bind; [apply inv_call_thread, inv_addContext|].
    intros c. apply maintains_bind; [|intros _; apply maintains_ret].
    apply inv_push. }
  intros t'. apply maintains_bind.
  { apply maintains_if; [|apply maintains_ret].
    apply maintains_bind; [apply inv_call_thread, inv_addContext|].
    intros c. apply maintains_ret. }
  intros t''. apply maintains_bind; [apply inv_saveThread|].
  intros _. apply maintains_bind; [apply inv_notify|].
  intros _. apply maintains_ret.
Qed.

Lemma inv_process_with_ai k m o now :
  K k -> maintains I (AIAssistant.process_with_ai k m o now).
Proof.
  intros Hk. unfold AIAssistant.process_with_ai.
  apply maintains_bind; [apply asks|]. intros response.
  destruct response; try apply maintains_throw.
  apply maintains_if; [|apply maintains_ret].
  apply maintains_bind; [apply inv_handoffToHuman, Hk|]. intros _.
  apply maintains_bind; [apply maintains_gets|]. intros st. apply maintains_ret.
Qed.

Lemma inv_processMessage k m o now :
  K k -> maintains I (AIAssistant.processMessage k m o now).
Proof.
  intros Hk. unfold AIAssistant.processMessage.
  apply (maintains_cond _ (fun a => AIAssistant.isInHumanMode a k)).
  { intros a r a' Hrun H.
    destruct (onMessage _) as [h|]; [|injection Hrun as <- <-; exact H].
    destruct (h _ _ _); injection Hrun as <- <-; exact H. }
  apply (maintains_cond _ (fun _ =>
           (includes (toLowerCase m) "#handoff"
            || includes (toLowerCase m) "#human"
            || includes (toLowerCase m) "#agent")%bool)).
  - apply maintains_bind; [apply inv_handoffToHuman, Hk|]. intros _.
    apply maintains_bind; [apply maintains_gets|]. intros st. apply maintains_ret.
  - apply maintains_try_catch; [apply inv_process_with_ai, Hk|].
    intros e. apply maintains_if; [|apply maintains_throw].
    apply maintains_bind; [apply inv_handoffToHuman, Hk|]. intros _.
    apply maintains_bind; [apply maintains_gets|]. intros st. apply maintains_ret.
Qed.

Hypothesis keeps_functions : forall f a, I a -> I (set_functions f a).
Hypothesis keeps_middleware : forall f a, I a -> I (set_middleware f a).
Hypothesis keeps_handlers : forall f a, I a -> I (set_humanHandlers f a).
Hypothesis keeps_world :
  forall registry answers a, I a -> I (with_world registry answers a).
Hypothesis every_chat : forall k, K k.

Lemma inv_perform op a : I a -> I (perform op a).
Proof.
  intros H. destruct op; simpl.
  - apply keeps_middleware, H.
  - apply keeps_functions, H.
  - apply keeps_handlers, H.
  - apply maintains_snd; [apply asks|exact H].
  - apply maintains_snd; [apply creates|exact H].
  - apply keeps_storage, H.
  - unfold on_thread. destruct (map_get _ _); [|exact H].
    apply maintains_snd; [|exact H].
    apply inv_call_thread, inv_Thread_ask.
  - unfold on_thread. destruct (map_get _ _); [|exact H].
    apply maintains_snd; [|exact H].
    apply inv_call_thread, inv_addContext.
  - apply maintains_snd; [apply inv_handoffToHuman, every_chat|exact H].
  - apply maintains_snd; [apply inv_releaseToAI, every_chat|exact H].
  - apply maintains_snd; [apply inv_processMessage, every_chat|exact H].
  - apply keeps_world, H.
Qed.

Hypothesis starts :
  forall options now registry answers,
    I (AIAssistant.constructor options now registry answers).

Lemma inv_reachable a : reachable a -> I a.
Proof.
  induction 1 as [options now registry answers|op a Ha IH].
  - apply starts.
  - apply inv_perform, IH.
Qed.

End Invariant.

(** ** The statistics *)

Lemma stats_executeMiddleware (s : Stats) c now :
  maintains (fun a => _stats a = s) (AIAssistant._executeMiddleware c now).
Proof.
  apply inv_executeMiddleware; try (intros; assumption).
  intros k now0. apply memory_createThread; intros; assumption.
Qed.

(** The three ways a call of [ask] that passes the guard leaves the
    counters: a middleware step answered; the thread answered; the call
    failed. *)
Lemma ask_stats (a a' : assistant) (k p : string) (o : Options) (now : Z)
    (r : outcome jsval) :
  guarded a k o = false ->
  AIAssistant.ask k p o now a = (r, a') ->
  let s := AIAssistant.requests_incremented (_stats a) in
  (_stats a' = s /\ exists v, r = Return v)
  \/ (_stats a' = AIAssistant.time_recorded 0 s /\ exists v, r = Return v)
  \/ (_stats a' = AIAssistant.errors_incremented s
      /\ if truthy (fallbackResponse o) then r = Return (fallbackResponse o)
         else exists e, r = Throw e).
Proof.
  intros Hguard. unfold guarded in Hguard. unfold AIAssistant.ask.
  rewrite Hguard. unfold bind at 1, modify at 1, try_catch, bind at 1.
  set (a0 := set_stats AIAssistant.requests_incremented a).
  set (s := AIAssistant.requests_incremented (_stats a)).
  assert (H0 : _stats a0 = s) by reflexivity. clearbody a0 s.
  destruct (AIAssistant._executeMiddleware _ now a0) as [[ctx|e] am] eqn:Hmw.
  - assert (Hm : _stats am = s).
    { eapply stats_executeMiddleware; [exact Hmw|exact H0]. }
    destruct (truthy (c_response ctx)).
    { intros [= <- <-]. left. split; [exact Hm|eexists; reflexivity]. }
    unfold bind at 1, gets at 1.
    set (known := map_get k (_threads am)). clearbody known.
    unfold bind at 1.
    destruct ((match c_thread ctx, known with
               | Some thread, _ => ret thread
               | None, Some thread => ret thread
               | None, None => AIAssistant.createThread k now
               end) am) as [[t|e] a2] eqn:Hth.
    + assert (H2 : _stats a2 = s).
      { destruct (c_thread ctx) as [t0|].
        - unfold ret in Hth. injection Hth as <- <-. exact Hm.
        - destruct known as [t0|].
          + unfold ret in Hth. injection Hth as <- <-. exact Hm.
          + eapply (memory_createThread (fun a => _stats a = s));
              [intros; assumption..|exact Hth|exact Hm]. }
      unfold bind at 1.
      destruct (AIAssistant.call_thread t _ a2) as [[ans|e] a3] eqn:Hcall.
      * assert (H3 : _stats a3 = s).
        { eapply (inv_call_thread (fun a => _stats a = s));
            [intros; assumption| |exact Hcall|exact H2].
          apply (inv_Thread_ask (fun a => _stats a = s)); intros; assumption. }
        unfold bind, modify, ret. intros [= <- <-]. right. left.
        cbn [_stats set_stats]. rewrite H3. split; [reflexivity|].
        eexists; reflexivity.
      * assert (H3 : _stats a3 = s).
        { eapply (inv_call_thread (fun a => _stats a = s));
            [intros; assumption| |exact Hcall|exact H2].
          apply (inv_Thread_ask (fun a => _stats a = s)); intros; assumption. }
        unfold bind, modify. right. right.
        destruct (truthy (fallbackResponse o)); injection H as <- <-;
          cbn [_stats set_stats]; rewrite H3;
          (split; [reflexivity|]); [reflexivity|eexists; reflexivity].
    + assert (H2 : _stats a2 = s).
      { destruct (c_thread ctx) as [t0|]; [discriminate Hth|].
        destruct known as [t0|]; [discriminate Hth|].
        eapply (memory_createThread (fun a => _stats a = s));
          [intros; assumption..|exact Hth|exact Hm]. }
      unfold bind, modify. right. right.
      destruct (truthy (fallbackResponse o)); injection H as <- <-;
        cbn [_stats set_stats]; rewrite H2;
        (split; [reflexivity|]); [reflexivity|eexists; reflexivity].
  - assert (Hm : _stats am = s).
    { eapply stats_executeMiddleware; [exact Hmw|exact H0]. }
    unfold bind, modify. right. right.
    destruct (truthy (fallbackResponse o)); injection H as <- <-;
      cbn [_stats set_stats]; rewrite Hm;
      (split; [reflexivity|]); [reflexivity|eexists; reflexivity].
Qed.

Lemma tail_length {A} (l : list A) : length (tail l) = pred (length l).
Proof. destruct l; reflexivity. Qed.

(** X10.  A call of [ask] that passes the human-mode guard counts as one
    request, whatever its outcome.  It counts as an error when it
    fails, also when the fallback response hides the failure from the
    caller; a call that throws has always been counted as an error, and
    a failed call records no request time.  No more than 100 request
    times are kept. *)
Theorem ask_counts (a a' : assistant) (k p : string) (o : Options) (now : Z)
    (r : outcome jsval) :
  guarded a k o = false ->
  AIAssistant.ask k p o now a = (r, a') ->
  requests (_stats a') = requests (_stats a) + 1
  /\ startTime (_stats a') = startTime (_stats a)
  /\ (errors (_stats a') = errors (_stats a)
      \/ errors (_stats a') = errors (_stats a) + 1)
  /\ (forall e, r = Throw e -> errors (_stats a') = errors (_stats a) + 1)
  /\ (errors (_stats a') = errors (_stats a) + 1 ->
      requestTimes (_stats a') = requestTimes (_stats a)
      /\ if truthy (fallbackResponse o) then r = Return (fallbackResponse o)
         else exists e, r = Throw e)
  /\ ((length (requestTimes (_stats a)) <= 100)%nat ->
      (length (requestTimes (_stats a')) <= 100)%nat).
Proof.
  intros Hguard Hrun.
  destruct (ask_stats a a' k p o now r Hguard Hrun)
    as [[Hs [v ->]]|[[Hs [v ->]]|[Hs Hr]]]; rewrite Hs;
    cbn [requests errors startTime requestTimes AIAssistant.requests_incremented
         AIAssistant.errors_incremented AIAssistant.time_recorded].
  - split; [reflexivity|]. split; [reflexivity|]. split; [left; reflexivity|].
    split; [discriminate|]. split; [lia|]. intros H; exact H.
  - split; [reflexivity|]. split; [reflexivity|]. split; [left; reflexivity|].
    split; [discriminate|]. split; [lia|]. intros Hlen.
    destruct (Nat.ltb 100 _) eqn:Hlt.
    + rewrite tail_length, length_app. simpl. lia.
    + apply Nat.ltb_ge in Hlt. exact Hlt.
  - split; [reflexivity|]. split; [reflexivity|]. split; [right; reflexivity|].
    split; [reflexivity|]. split; [|intros H; exact H].
    intros _. split; [reflexivity|exact Hr].
Qed.

Lemma ask_counts_witness :
  guarded failing "A" no_options = false
  /\ fst (AIAssistant.ask "A" "hello" no_options 2000 failing)
     = Throw (Error "503 Service Unavailable")
  /\ requests (_stats (snd (AIAssistant.ask "A" "hello" no_options 2000 failing)))
     = requests (_stats failing) + 1
  /\ errors (_stats (snd (AIAssistant.ask "A" "hello" no_options 2000 failing)))
     = errors (_stats failing) + 1.
Proof.
  split; [reflexivity|]. split; [vm_compute; reflexivity|].
  destruct (ask_counts failing
              (snd (AIAssistant.ask "A" "hello" no_options 2000 failing))
              "A" "hello" no_options 2000
              (fst (AIAssistant.ask "A" "hello" no_options 2000 failing)))
    as (Hreq & _ & _ & Herr & _).
  - reflexivity.
  - destruct (AIAssistant.ask "A" "hello" no_options 2000 failing); reflexivity.
  - split; [exact Hreq|].
    apply (Herr (Error "503 Service Unavailable")). vm_compute. reflexivity.
Defined.

Lemma stats_ok_ask k p o now :
  maintains (fun a => stats_ok (_stats a)) (AIAssistant.ask k p o now).
Proof.
  intros a r a' Hrun Hok.
  destruct (guarded a k o) eqn:Hguard.
  - unfold guarded in Hguard. unfold AIAssistant.ask in Hrun.
    rewrite Hguard in Hrun. injection Hrun as <- <-. exact Hok.
  - destruct Hok as (H0 & Hsum & Hlen).
    destruct (ask_stats a a' k p o now r Hguard Hrun)
      as [[Hs _]|[[Hs _]|[Hs _]]]; rewrite Hs; unfold stats_ok;
      cbn [requests errors startTime requestTimes
           AIAssistant.requests_incremented AIAssistant.errors_incremented
           AIAssistant.time_recorded].
    + repeat split; lia.
    + destruct (Nat.ltb 100 _) eqn:Hlt.
      * rewrite tail_length, length_app. simpl. repeat split; lia.
      * apply Nat.ltb_ge in Hlt. rewrite length_app in *. simpl in *.
        repeat split; lia.
    + repeat split; lia.
Qed.

(** X11.  In every state the assistant can reach, the errors counted and the
    request times kept together do not exceed the requests counted (so
    the error rate [getStats] reports is at most 1), and at most 100
    request times are kept. *)
Theorem stats_invariant (a : assistant) :
  reachable a ->
  0 <= errors (_stats a) <= requests (_stats a)
  /\ errors (_stats a) + Z.of_nat (length (requestTimes (_stats a)))
     <= requests (_stats a)
  /\ (length (requestTimes (_stats a)) <= 100)%nat.
Proof.
  intros Hreach.
  assert (Hok : stats_ok (_stats a)).
  { revert a Hreach.
    apply inv_reachable
      with (I := fun a => stats_ok (_stats a)) (K := fun _ => True);
      try (intros; assumption); try (intros; exact Logic.I).
    - intros k now. apply memory_createThread; intros; assumption.
    - apply stats_ok_ask.
    - intros options now registry answers. unfold stats_ok. simpl. lia. }
  destruct Hok as (H0 & Hsum & Hlen). repeat split; try assumption; lia.
Qed.

Lemma stats_invariant_witness :
  reachable three_asks
  /\ requests (_stats three_asks) = 2
  /\ errors (_stats three_asks) = 1
  /\ errors (_stats three_asks)
     + Z.of_nat (length (requestTimes (_stats three_asks)))
     <= requests (_stats three_asks).
Proof.
  assert (Hreach : reachable three_asks).
  { repeat apply reachable_perform. apply reachable_new. }
  split; [exact Hreach|]. split; [vm_compute; reflexivity|].
  split; [vm_compute; reflexivity|].
  apply (stats_invariant three_asks Hreach).
Defined.

(** ** The working set *)

Lemma fst_refreshed (t : Thread) (l : list (string * Thread)) :
  map fst (refreshed t l) = map fst l.
Proof.
  unfold refreshed. rewrite map_map. apply map_ext.
  intros [k v]. simpl. destruct (String.eqb k (chatId t)); reflexivity.
Qed.

Lemma working_set_ok_refreshed (t : Thread) (a : assistant) :
  working_set_ok a -> working_set_ok (set_threads (refreshed t) a).
Proof.
  intros (Hsize & Hnd & Hall). unfold working_set_ok.
  cbn [_threads set_threads memory_maxThreads]. split; [|split].
  - unfold map_size, refreshed in *. rewrite length_map. exact Hsize.
  - rewrite fst_refreshed. exact Hnd.
  - unfold refreshed. rewrite List.Forall_forall in *.
    intros kv Hin. apply in_map_iff in Hin as ([k v] & <- & Hin).
    simpl. destruct (String.eqb_spec k (chatId t)) as [->|Hne]; simpl.
    + reflexivity.
    + apply (Hall _ Hin).
Qed.

(** The loop of [_cleanupOldThreads] only takes threads away, and when
    it ends without an error there is room for one more. *)
Lemma evict_post (ts : list (string * Thread)) (a a' : assistant)
    (r : outcome unit) :
  AIAssistant.evict ts a = (r, a') ->
  memory_maxThreads a' = memory_maxThreads a
  /\ (map_size (_threads a') <= map_size (_threads a))
  /\ (NoDup (map fst (_threads a)) -> NoDup (map fst (_threads a')))
  /\ (forall P, Forall P (_threads a) -> Forall P (_threads a'))
  /\ (r = Return tt -> map_size (_threads a') < memory_maxThreads a').
Proof.
  revert a. induction ts as [|[k t] ts IH]; intros a; simpl.
  - destruct (_ <=? _) eqn:Htest; intros [= <- <-].
    + repeat split; try lia; auto. discriminate.
    + apply Z.leb_gt in Htest. repeat split; try lia; auto.
  - destruct (_ <=? _) eqn:Htest.
    + unfold bind at 1, saveThread, MemoryThreadStorage.saveThread, modify at 1,
        bind at 1, modify at 1.
      intros Hrun. apply IH in Hrun as (Hmax & Hsize & Hnd & Hall & Hret).
      cbn [memory_maxThreads _threads set_threads set_storage] in *.
      split; [exact Hmax|]. split.
      { pose proof (length_map_delete_le k (_threads a)).
        unfold map_size in *. lia. }
      split; [intros H; apply Hnd, NoDup_map_delete, H|].
      split; [intros P H; apply Hall, Forall_map_delete, H|exact Hret].
    + apply Z.leb_gt in Htest. intros [= <- <-].
      repeat split; try lia; auto.
Qed.

Lemma working_set_ok_createThread k now :
  maintains working_set_ok (AIAssistant.createThread k now).
Proof.
  intros a r a' Hrun (Hsize & Hnd & Hall).
  rewrite createThread_load in Hrun. unfold bind at 1 in Hrun.
  destruct (if memory_maxThreads a <=? map_size (_threads a)
            then AIAssistant._cleanupOldThreads a else (Return tt, a))
    as [[[]|e] a1] eqn:Hclean.
  - assert (H1 : memory_maxThreads a1 = memory_maxThreads a
                 /\ map_size (_threads a1) < memory_maxThreads a1
                 /\ NoDup (map fst (_threads a1))
                 /\ Forall (fun kv : string * Thread => chatId (snd kv) = fst kv)
                      (_threads a1)).
    { destruct (_ <=? _) eqn:Htest.
      - apply evict_post in Hclean as (Hmax & _ & Hnd' & Hall' & Hret).
        split; [exact Hmax|]. split; [apply Hret; reflexivity|].
        split; [apply Hnd', Hnd|apply Hall', Hall].
      - injection Hclean as <-. apply Z.leb_gt in Htest. auto. }
    destruct H1 as (Hmax & Hroom & Hnd1 & Hall1). clear Hclean.
    unfold load, bind at 1 in Hrun.
    destruct (MemoryThreadStorage.getThread k now a1) as [[d|e] a2] eqn:Hget.
    2:{ unfold MemoryThreadStorage.getThread in Hget.
        destruct (_storage a1 !! k); [destruct (_ && _)%bool|]; discriminate. }
    assert (H2 : memory_maxThreads a2 = memory_maxThreads a1
                 /\ _threads a2 = _threads a1).
    { unfold MemoryThreadStorage.getThread in Hget.
      destruct (_storage a1 !! k); [destruct (_ && _)%bool|];
        injection Hget as <- <-; split; reflexivity. }
    destruct H2 as (Hmax2 & Hth2). clear Hget.
    unfold bind at 1 in Hrun.
    destruct ((match d with Some data => ret data | None => _ end) a2)
      as [[d'|e] a3] eqn:Hdata.
    2:{ destruct d; discriminate. }
    assert (H3 : memory_maxThreads a3 = memory_maxThreads a2
                 /\ _threads a3 = _threads a2).
    { destruct d; injection Hdata as <- <-; split; reflexivity. }
    destruct H3 as (Hmax3 & Hth3). clear Hdata.
    unfold bind at 1, Thread.constructor in Hrun.
    destruct (Thread.provider_registered a3 _).
    + unfold bind, modify, ret in Hrun. injection Hrun as <- <-.
      unfold working_set_ok. cbn [_threads set_threads memory_maxThreads].
      rewrite Hth3, Hth2, Hmax3, Hmax2. split; [|split].
      * pose proof (length_obj_set_le k
          {| chatId := k; _context := td_context d';
             _history := td_history d';
             lastUsed := if td_lastUsed d' =? 0 then now else td_lastUsed d' |}
          (_threads a1)).
        unfold map_size, map_set in *. lia.
      * apply NoDup_obj_set, Hnd1.
      * apply Forall_obj_set; [reflexivity|exact Hall1].
    + injection Hrun as <- <-. unfold working_set_ok.
      rewrite Hth3, Hth2, Hmax3, Hmax2. split; [lia|]. split; assumption.
  - injection Hrun as <- <-.
    destruct (_ <=? _) eqn:Htest; [|discriminate].
    apply evict_post in Hclean as (Hmax & Hsize' & Hnd' & Hall' & _).
    unfold working_set_ok. rewrite Hmax.
    split; [lia|]. split; [apply Hnd', Hnd|apply Hall', Hall].
Qed.

Lemma reachable_working_set_ok (a : assistant) :
  reachable a -> working_set_ok a.
Proof.
  revert a. apply inv_reachable with (I := working_set_ok) (K := fun _ => True);
    try (intros; assumption); try (intros; exact Logic.I).
  - apply working_set_ok_refreshed.
  - apply working_set_ok_createThread.
  - intros k p o now. apply inv_ask; try (intros; assumption).
    + apply working_set_ok_refreshed.
    + apply working_set_ok_createThread.
  - intros options now registry answers. unfold working_set_ok.
    cbn [_threads AIAssistant.constructor map_size length map].
    split; [apply Z.le_max_l|]. split; constructor.
Qed.

(** X12.  In every state the assistant can reach, the working set holds at
    most [maxThreads] threads, at most one for a chat, and the thread it
    gives for a chat has the id of that chat. *)
Theorem working_set_invariant (a : assistant) :
  reachable a ->
  map_size (_threads a) <= Z.max 0 (memory_maxThreads a)
  /\ NoDup (map fst (_threads a))
  /\ (forall k t, map_get k (_threads a) = Some t -> chatId t = k).
Proof.
  intros Hreach.
  destruct (reachable_working_set_ok a Hreach) as (Hsize & Hnd & Hall).
  split; [exact Hsize|]. split; [exact Hnd|].
  intros k t Hget. apply obj_get_In in Hget.
  rewrite List.Forall_forall in Hall. apply (Hall _ Hget).
Qed.

Lemma working_set_invariant_witness :
  reachable three_chats
  /\ map fst (_threads three_chats) = ["B"; "C"]
  /\ map_size (_threads three_chats)
     <= Z.max 0 (memory_maxThreads three_chats).
Proof.
  assert (Hreach : reachable three_chats).
  { repeat apply reachable_perform. apply reachable_new. }
  split; [exact Hreach|]. split; [vm_compute; reflexivity|].
  apply (working_set_invariant three_chats Hreach).
Defined.

(** X13.  Eviction is least-recently-used.  When the working set is full,
    [_cleanupOldThreads] evicts one thread and no more: the thread used
    least recently, and of several such the one that entered the working
    set first.  It persists that thread before it drops it, and the other
    threads stay in the working set in their order. *)
Theorem eviction_least_recently_used (a : assistant) :
  1 <= memory_maxThreads a ->
  map_size (_threads a) = memory_maxThreads a ->
  NoDup (map fst (_threads a)) ->
  exists (k : string) (t : Thread) (pre post : list (string * Thread))
         (a' : assistant),
    AIAssistant._cleanupOldThreads a = (Return tt, a')
    /\ _threads a = (pre ++ (k, t) :: post)%list
    /\ Forall (fun y : string * Thread => lastUsed t < lastUsed (snd y)) pre
    /\ Forall (fun y : string * Thread => lastUsed t <= lastUsed (snd y)) post
    /\ _threads a' = (pre ++ post)%list
    /\ _storage a' = <[chatId t := snapshot t]> (_storage a).
Proof.
  intros Hmax Hfull Hnd.
  destruct (cleanup_head a Hmax Hfull) as (k & t & pre & post & Hl & Hpre
                                           & Hpost & Hrun).
  exists k, t, pre, post, (evicted k t a).
  split; [exact Hrun|]. split; [exact Hl|]. split; [exact Hpre|].
  split; [exact Hpost|]. split; [|reflexivity].
  unfold evicted. cbn [_threads set_threads set_storage].
  rewrite Hl in Hnd |- *. rewrite map_app in Hnd. simpl in Hnd.
  apply NoDup_app in Hnd as (Hnd1 & Hdis & Hnd2).
  apply NoDup_cons in Hnd2 as (Hnotin & _).
  rewrite map_delete_app, map_delete_cons. simpl. rewrite String.eqb_refl.
  rewrite !map_delete_absent; [reflexivity| |].
  - rewrite <- list_elem_of_In. exact Hnotin.
  - intros Hin. apply (Hdis k); [rewrite list_elem_of_In; exact Hin|].
    left.
Qed.

Lemma eviction_least_recently_used_witness :
  exists (a' : assistant),
    AIAssistant._cleanupOldThreads two_slots = (Return tt, a')
    /\ map fst (_threads a') = ["A"]
    /\ is_Some (_storage a' !! "C").
Proof.
  destruct (eviction_least_recently_used two_slots)
    as (k & t & pre & post & a' & Hrun & _).
  - vm_compute. discriminate.
  - reflexivity.
  - apply (bool_decide_unpack _). vm_compute. exact Logic.I.
  - exists a'. split; [exact Hrun|].
    vm_compute in Hrun. injection Hrun as <-.
    split; [reflexivity|]. vm_compute. eexists. reflexivity.
Defined.

(** X14.  [createThread] makes room and never fails for lack of it: with
    [maxThreads] at least 1, a working set within that bound and the
    backend of the configuration registered, it returns the thread of
    the chat, which is then in the working set, and the working set is
    still within the bound. *)
Theorem createThread_makes_room (a : assistant) (k : string) (now : Z) :
  1 <= memory_maxThreads a ->
  map_size (_threads a) <= memory_maxThreads a ->
  Thread.provider_registered a (config_provider a) = true ->
  exists (t : Thread) (a' : assistant),
    AIAssistant.createThread k now a = (Return t, a')
    /\ chatId t = k
    /\ map_get k (_threads a') = Some t
    /\ map_size (_threads a') <= memory_maxThreads a'
    /\ memory_maxThreads a' = memory_maxThreads a.
Proof. apply createThread_room. Qed.

Lemma createThread_makes_room_witness :
  1 <= memory_maxThreads two_slots
  /\ map_size (_threads two_slots) <= memory_maxThreads two_slots
  /\ exists (t : Thread) (a' : assistant),
       AIAssistant.createThread "B" 4000 two_slots = (Return t, a')
       /\ map_get "B" (_threads a') = Some t
       /\ map_size (_threads a') <= memory_maxThreads a'.
Proof.
  split; [vm_compute; discriminate|]. split; [vm_compute; discriminate|].
  destruct (createThread_makes_room two_slots "B" 4000)
    as (t & a' & Hrun & _ & Hget & Hsize & _).
  - vm_compute. discriminate.
  - vm_compute. discriminate.
  - reflexivity.
  - exists t, a'. split; [exact Hrun|]. split; [exact Hget|exact Hsize].
Defined.

(** X15.  A negative [maxThreads] leaves no room at all: in every state such
    an assistant can reach the working set is empty and [createThread]
    throws the [TypeError] of the eviction loop, which finds nothing to
    evict; it changes nothing. *)
Theorem negative_maxThreads_no_thread (a : assistant) (k : string) (now : Z) :
  reachable a ->
  memory_maxThreads a < 0 ->
  _threads a = []
  /\ AIAssistant.createThread k now a
     = (Throw (TypeError "undefined is not iterable"), a).
Proof.
  intros Hreach Hneg.
  destruct (reachable_working_set_ok a Hreach) as (Hsize & _ & _).
  assert (Hnil : _threads a = []).
  { destruct (_threads a) as [|x l]; [reflexivity|].
    unfold map_size in Hsize. simpl in Hsize. lia. }
  split; [exact Hnil|].
  rewrite createThread_load. unfold bind at 1.
  unfold AIAssistant._cleanupOldThreads. rewrite Hnil.
  cbn [AIAssistant.sort_by_lastUsed foldr AIAssistant.evict].
  rewrite Hnil. change (@map_size Thread []) with 0.
  replace (memory_maxThreads a <=? 0) with true
    by (symmetry; apply Z.leb_le; lia).
  reflexivity.
Qed.

Lemma negative_maxThreads_no_thread_witness :
  reachable no_room
  /\ memory_maxThreads no_room < 0
  /\ AIAssistant.createThread "A" 2000 no_room
     = (Throw (TypeError "undefined is not iterable"), no_room).
Proof.
  assert (Hreach : reachable no_room) by apply reachable_new.
  split; [exact Hreach|]. split; [reflexivity|].
  apply (negative_maxThreads_no_thread no_room "A" 2000 Hreach). reflexivity.
Defined.

(** ** Handoff and release *)

Lemma isInHumanMode_handed_over (k why : string) (md : jsval) (now : Z)
    (t : Thread) (a1 : assistant) :
  AIAssistant.isInHumanMode (handed_over k why md now t a1) k = true.
Proof.
  unfold AIAssistant.isInHumanMode, map_has.
  pose proof (handed_over_state k why md now t a1) as Hst.
  unfold map_get in *. rewrite Hst. reflexivity.
Qed.

Lemma handed_over_other (k k' why : string) (md : jsval) (now : Z)
    (t : Thread) (a1 : assistant) :
  k' <> k ->
  map_get k' (_handoffState (handed_over k why md now t a1))
  = map_get k' (_handoffState a1).
Proof. intros Hne. apply obj_get_obj_set_ne. exact Hne. Qed.

(** The two ways [handoffToHuman] ends. *)
Lemma handoffToHuman_cases (k why : string) (md : jsval) (now : Z)
    (a : assistant) :
  (exists t a1,
     AIAssistant.thread_for k now a = (Return t, a1)
     /\ _handoffState a1 = _handoffState a
     /\ AIAssistant.handoffToHuman k why md now a
        = (Return true, handed_over k why md now t a1))
  \/ (exists e a1,
        AIAssistant.thread_for k now a = (Throw e, a1)
        /\ _handoffState a1 = _handoffState a
        /\ AIAssistant.handoffToHuman k why md now a = (Throw e, a1)).
Proof.
  destruct (AIAssistant.thread_for k now a) as [[t|e] a1] eqn:Hth.
  - left. exists t, a1. split; [reflexivity|].
    split; [apply (thread_for_returns _ _ _ _ _ Hth)|].
    apply handoffToHuman_returns, Hth.
  - right. exists e, a1. split; [reflexivity|]. split.
    + apply (maintains_thread_for (fun l => l = _handoffState a) k now a _ _ Hth).
      reflexivity.
    + unfold AIAssistant.handoffToHuman, bind at 1. rewrite Hth. reflexivity.
Qed.

(** X16.  [handoffToHuman] never returns [false].  Either it returns [true],
    and then the chat is in human mode with the reason, the metadata and
    the time of this call on record, whatever the [onHandoff] handler
    does; or it throws, which it does exactly when the thread of the
    chat cannot be had, and then the handoff map is as it was: the chat
    is not handed off.  In both cases the entries of the other chats are
    untouched. *)
Theorem handoffToHuman_effect (a a' : assistant) (k why : string) (md : jsval)
    (now : Z) (r : outcome bool) :
  AIAssistant.handoffToHuman k why md now a = (r, a') ->
  ((r = Return true
    /\ AIAssistant.isInHumanMode a' k = true
    /\ exists st,
         map_get k (_handoffState a') = Some st
         /\ isHumanMode st = true /\ handoffTime st = now
         /\ reason st = why /\ metadata st = md)
   \/ (exists e,
         r = Throw e
         /\ AIAssistant.thread_for k now a = (Throw e, a')
         /\ _handoffState a' = _handoffState a))
  /\ (forall k', k' <> k ->
        map_get k' (_handoffState a') = map_get k' (_handoffState a)).
Proof.
  intros Hrun.
  destruct (handoffToHuman_cases k why md now a)
    as [(t & a1 & Hth & Hhs & Heq)|(e & a1 & Hth & Hhs & Heq)];
    rewrite Heq in Hrun; injection Hrun as <- <-.
  - split.
    + left. split; [reflexivity|]. split; [apply isInHumanMode_handed_over|].
      eexists. split; [apply handed_over_state|]. repeat split.
    + intros k' Hne. rewrite handed_over_other by exact Hne.
      rewrite Hhs. reflexivity.
  - split.
    + right. exists e. split; [reflexivity|]. split; [exact Hth|exact Hhs].
    + intros k' _. rewrite Hhs. reflexivity.
Qed.

Lemma handoffToHuman_effect_witness :
  fst (AIAssistant.handoffToHuman "A" "billing" (JObj []) 2000 with_pager)
  = Return true
  /\ AIAssistant.isInHumanMode
       (snd (AIAssistant.handoffToHuman "A" "billing" (JObj []) 2000 with_pager))
       "A" = true
  /\ AIAssistant.isInHumanMode
       (snd (AIAssistant.handoffToHuman "A" "billing" (JObj []) 2000 no_backend))
       "A" = false.
Proof.
  destruct (handoffToHuman_effect with_pager
              (snd (AIAssistant.handoffToHuman "A" "billing" (JObj []) 2000
                      with_pager))
              "A" "billing" (JObj []) 2000
              (fst (AIAssistant.handoffToHuman "A" "billing" (JObj []) 2000
                      with_pager)))
    as [[(Hr & Hmode & _)|(e & Hr & _)] _].
  - destruct (AIAssistant.handoffToHuman "A" "billing" (JObj []) 2000 with_pager);
      reflexivity.
  - split; [exact Hr|]. split; [exact Hmode|]. vm_compute. reflexivity.
  - vm_compute in Hr. discriminate Hr.
Defined.

Lemma map_delete_obj_set {A} (k : string) (v : A) (l : list (string * A)) :
  map_delete k (obj_set k v l) = map_delete k l.
Proof.
  induction l as [|[k' v'] l IH]; simpl.
  - rewrite map_delete_cons. simpl. rewrite String.eqb_refl. reflexivity.
  - destruct (String.eqb_spec k' k) as [->|Hne].
    + rewrite !map_delete_cons. simpl. rewrite String.eqb_refl. reflexivity.
    + rewrite !map_delete_cons. simpl.
      destruct (String.eqb_spec k' k); [contradiction|]. rewrite IH. reflexivity.
Qed.

Lemma obj_get_map_delete_ne {A} (k k' : string) (l : list (string * A)) :
  k' <> k -> obj_get k' (map_delete k l) = obj_get k' l.
Proof.
  intros Hne. induction l as [|[k0 v0] l IH]; [reflexivity|].
  rewrite map_delete_cons. simpl.
  destruct (String.eqb_spec k0 k) as [->|Hk].
  - destruct (String.eqb_spec k k'); [congruence|exact IH].
  - simpl. destruct (String.eqb k0 k'); [reflexivity|exact IH].
Qed.

Lemma obj_get_refreshed_some (k : string) (t t' : Thread)
    (l : list (string * Thread)) :
  obj_get k l = Some t -> is_Some (obj_get k (refreshed t' l)).
Proof.
  intros Hget. apply obj_get_keys. rewrite fst_refreshed.
  apply obj_get_keys. eexists. exact Hget.
Qed.

Lemma released_handoff (k summary : string) (md : jsval) (t : Thread)
    (a : assistant) :
  _handoffState (released k summary md t a) = map_delete k (_handoffState a).
Proof.
  unfold released.
  destruct (truthy (JStr summary)), (truthy md && _)%bool; reflexivity.
Qed.

(** X17.  A handoff that succeeded can always be undone.  After
    [handoffToHuman] has returned, [releaseToAI] for the chat returns
    [true] without any further precondition (the thread of the chat is
    in the working set), the chat is in AI mode again, the entries of
    the other chats are as they were before the handoff, and if the
    chat had no entry before the handoff the whole handoff map is as it
    was. *)
Theorem handoff_then_release (a a2 : assistant) (k why summary : string)
    (md md' : jsval) (now now' : Z) :
  AIAssistant.handoffToHuman k why md now a = (Return true, a2) ->
  exists a3 : assistant,
    AIAssistant.releaseToAI k summary md' now' a2 = (Return true, a3)
    /\ AIAssistant.isInHumanMode a3 k = false
    /\ _handoffState a3 = map_delete k (_handoffState a)
    /\ (forall k', k' <> k ->
          map_get k' (_handoffState a3) = map_get k' (_handoffState a))
    /\ (map_get k (_handoffState a) = None ->
        _handoffState a3 = _handoffState a).
Proof.
  intros Hrun.
  destruct (handoffToHuman_cases k why md now a)
    as [(t & a1 & Hth & Hhs & Heq)|(e & a1 & Hth & Hhs & Heq)];
    rewrite Heq in Hrun; [|discriminate Hrun].
  injection Hrun as <-.
  destruct (thread_for_returns _ _ _ _ _ Hth) as [Hget _].
  destruct (obj_get_refreshed_some k t
              (with_context
                 (map_set "handoffState"
                    (JObj (handoff_object (handoff_state why md now t)))
                    (_context t)) t)
              (_threads a1) Hget) as [t2 Hget2].
  assert (Hth2 : AIAssistant.thread_for k now'
                   (handed_over k why md now t a1)
                 = (Return t2, handed_over k why md now t a1)).
  { assert (Hget3 : map_get k (_threads (handed_over k why md now t a1))
                     = Some t2) by exact Hget2.
    unfold AIAssistant.thread_for, bind, gets. rewrite Hget3. reflexivity. }
  exists (released k summary md' t2 (handed_over k why md now t a1)).
  split.
  { apply releaseToAI_in_human_mode;
      [apply isInHumanMode_handed_over|exact Hth2]. }
  assert (Hdel : _handoffState
                   (released k summary md' t2 (handed_over k why md now t a1))
                 = map_delete k (_handoffState a)).
  { rewrite released_handoff. unfold handed_over.
    cbn [_handoffState set_storage set_threads set_handoffState].
    unfold map_set. rewrite map_delete_obj_set, Hhs. reflexivity. }
  split.
  { apply not_in_human_mode_after_delete. rewrite Hdel.
    apply obj_get_map_delete. }
  split; [exact Hdel|]. split.
  - intros k' Hne. rewrite Hdel. apply obj_get_map_delete_ne, Hne.
  - intros Hnone. rewrite Hdel. apply map_delete_absent.
    intros Hin. apply obj_get_keys in Hin as [x Hx].
    unfold map_get in Hnone. congruence.
Qed.

Lemma handoff_then_release_witness :
  exists a2 a3 : assistant,
    AIAssistant.handoffToHuman "A" "billing" (JObj []) 2000 with_pager
    = (Return true, a2)
    /\ AIAssistant.releaseToAI "A" "refund issued" (JObj []) 3000 a2
       = (Return true, a3)
    /\ _handoffState a3 = _handoffState with_pager.
Proof.
  assert (Hrun : AIAssistant.handoffToHuman "A" "billing" (JObj []) 2000
                   with_pager
                 = (Return true,
                    snd (AIAssistant.handoffToHuman "A" "billing" (JObj [])
                           2000 with_pager)))
    by (vm_compute; reflexivity).
  destruct (handoff_then_release with_pager _ "A" "billing" "refund issued"
              (JObj []) (JObj []) 2000 3000 Hrun)
    as (a3 & Hrel & _ & _ & _ & Hsame).
  eexists _, a3. split; [exact Hrun|]. split; [exact Hrel|].
  apply Hsame. reflexivity.
Defined.

(** ** The dispatcher *)

Lemma isInHumanMode_same (a a' : assistant) (k : string) :
  map_get k (_handoffState a') = map_get k (_handoffState a) ->
  AIAssistant.isInHumanMode a' k = AIAssistant.isInHumanMode a k.
Proof.
  intros H. unfold AIAssistant.isInHumanMode, map_has, map_get in *.
  rewrite H. reflexivity.
Qed.

Section OtherChats.
Context (k k' : string) (Hne : k' <> k) (v : option HandoffState).
Let I : assistant -> Prop := fun a => map_get k' (_handoffState a) = v.
Let K : string -> Prop := fun c => c = k.

Lemma other_createThread c now : maintains I (AIAssistant.createThread c now).
Proof. apply memory_createThread; intros; assumption. Qed.

Lemma other_ask c p o now : maintains I (AIAssistant.ask c p o now).
Proof.
  apply inv_ask; try (intros; assumption). apply other_createThread.
Qed.

Lemma other_set c st a :
  K c -> I a -> I (set_handoffState (map_set c st) a).
Proof.
  unfold K, I. intros -> H. cbn [_handoffState set_handoffState].
  unfold map_get, map_set in *. rewrite obj_get_obj_set_ne by exact Hne.
  exact H.
Qed.

Lemma other_delete c a :
  K c -> I a -> I (set_handoffState (map_delete c) a).
Proof.
  unfold K, I. intros -> H. cbn [_handoffState set_handoffState].
  unfold map_get in *. rewrite obj_get_map_delete_ne by exact Hne.
  exact H.
Qed.

Lemma other_releaseToAI summary md now :
  maintains I (AIAssistant.releaseToAI k summary md now).
Proof.
  apply inv_releaseToAI with (K := K); try (intros; assumption).
  - apply other_createThread.
  - apply other_delete.
  - reflexivity.
Qed.

Lemma other_processMessage m o now :
  maintains I (AIAssistant.processMessage k m o now).
Proof.
  apply inv_processMessage with (K := K); try (intros; assumption).
  - apply other_createThread.
  - apply other_ask.
  - apply other_set.
  - reflexivity.
Qed.

End OtherChats.

(** X18.  Chats do not interfere.  Whatever [ask], [releaseToAI] and
    [processMessage] do for one chat, and however they end, every other
    chat stays in the mode it was in, with the handoff state it had. *)
Theorem other_chats_keep_their_mode (a : assistant) (k k' : string)
    (text : string) (o : Options) (md : jsval) (now : Z) :
  k' <> k ->
  let after_ask := snd (AIAssistant.ask k text o now a) in
  let after_release := snd (AIAssistant.releaseToAI k text md now a) in
  let after_message := snd (AIAssistant.processMessage k text o now a) in
  (map_get k' (_handoffState after_ask) = map_get k' (_handoffState a)
   /\ AIAssistant.isInHumanMode after_ask k' = AIAssistant.isInHumanMode a k')
  /\ (map_get k' (_handoffState after_release) = map_get k' (_handoffState a)
      /\ AIAssistant.isInHumanMode after_release k'
         = AIAssistant.isInHumanMode a k')
  /\ (map_get k' (_handoffState after_message) = map_get k' (_handoffState a)
      /\ AIAssistant.isInHumanMode after_message k'
         = AIAssistant.isInHumanMode a k').
Proof.
  intros Hne after_ask after_release after_message.
  assert (H1 : map_get k' (_handoffState after_ask)
               = map_get k' (_handoffState a)).
  { apply (maintains_snd _ _ a (other_ask k' _ k text o now)). reflexivity. }
  assert (H2 : map_get k' (_handoffState after_release)
               = map_get k' (_handoffState a)).
  { apply (maintains_snd _ _ a (other_releaseToAI k k' Hne _ text md now)).
    reflexivity. }
  assert (H3 : map_get k' (_handoffState after_message)
               = map_get k' (_handoffState a)).
  { apply (maintains_snd _ _ a (other_processMessage k k' Hne _ text o now)).
    reflexivity. }
  repeat split; try assumption; apply isInHumanMode_same; assumption.
Qed.

Lemma other_chats_keep_their_mode_witness :
  AIAssistant.isInHumanMode two_chats "A" = true
  /\ AIAssistant.isInHumanMode
       (snd (AIAssistant.processMessage "B" "#agent please" no_options 3000
               two_chats)) "B" = true
  /\ AIAssistant.isInHumanMode
       (snd (AIAssistant.processMessage "B" "#agent please" no_options 3000
               two_chats)) "A" = true.
Proof.
  split; [vm_compute; reflexivity|]. split; [vm_compute; reflexivity|].
  destruct (other_chats_keep_their_mode two_chats "B" "A" "#agent please"
              no_options (JObj []) 3000) as (_ & _ & _ & Hmode).
  - discriminate.
  - rewrite Hmode. vm_compute. reflexivity.
Defined.

Lemma handoffToHuman_returns_mode (k why : string) (md : jsval) (now : Z)
    (a a' : assistant) (b : bool) :
  AIAssistant.handoffToHuman k why md now a = (Return b, a') ->
  AIAssistant.isInHumanMode a' k = true
  /\ exists t, map_get k (_handoffState a') = Some (handoff_state why md now t).
Proof.
  intros Hrun.
  destruct (handoffToHuman_cases k why md now a)
    as [(t & a1 & Hth & Hhs & Heq)|(e & a1 & Hth & Hhs & Heq)];
    rewrite Heq in Hrun; [|discriminate Hrun].
  injection Hrun as <- <-. split; [apply isInHumanMode_handed_over|].
  exists t. apply handed_over_state.
Qed.

(** A handoff followed by the result the dispatcher makes of it. *)
Lemma handoff_result (k why : string) (md : jsval) (now : Z)
    (response : jsval) (error : option string) (a a' : assistant)
    (res : AIAssistant.ProcessResult) :
  bind (AIAssistant.handoffToHuman k why md now) (fun _ =>
    bind (AIAssistant.current_handoff k) (fun state =>
      ret (AIAssistant.HandoffResult response state error))) a
  = (Return res, a') ->
  AIAssistant.isInHumanMode a' k = true
  /\ exists t,
       res = AIAssistant.HandoffResult response
               (Some (handoff_state why md now t)) error.
Proof.
  unfold bind at 1.
  destruct (AIAssistant.handoffToHuman k why md now a) as [[b|e] a1] eqn:Hh;
    [|discriminate].
  apply handoffToHuman_returns_mode in Hh as (Hmode & t & Hst).
  unfold bind, AIAssistant.current_handoff, gets, ret. rewrite Hst.
  intros [= <- <-]. split; [exact Hmode|]. exists t. reflexivity.
Qed.

Lemma process_with_ai_result (k m : string) (o : Options) (now : Z)
    (a a' : assistant) (res : AIAssistant.ProcessResult) :
  AIAssistant.process_with_ai k m o now a = (Return res, a') ->
  (AIAssistant.result_type res = "ai"
   /\ AIAssistant.isInHumanMode a' k = AIAssistant.isInHumanMode a k)
  \/ (AIAssistant.result_type res = "handoff"
      /\ AIAssistant.isInHumanMode a' k = true).
Proof.
  unfold AIAssistant.process_with_ai, bind at 1.
  destruct (AIAssistant.ask k m o now a) as [[response|e] a1] eqn:Hask;
    [|discriminate].
  assert (Hhs : _handoffState a1 = _handoffState a).
  { apply (maintains_ask (fun l => l = _handoffState a) k m o now a _ _ Hask).
    reflexivity. }
  destruct response; try discriminate.
  destruct (_ || _)%bool.
  - intros Hrun. apply handoff_result in Hrun as (Hmode & t & ->).
    right. split; [reflexivity|exact Hmode].
  - intros [= <- <-]. left. split; [reflexivity|].
    apply isInHumanMode_same. rewrite Hhs. reflexivity.
Qed.

(** X19.  The [type] of the result tells who has the chat once
    [processMessage] has returned: the AI after a result of type [ai],
    a human after a result of type [handoff] or [human].  The type is
    [human] exactly when the chat was in human mode already, and then
    nothing has changed. *)
Theorem processMessage_result_type (a a' : assistant) (k m : string)
    (o : Options) (now : Z) (res : AIAssistant.ProcessResult) :
  AIAssistant.processMessage k m o now a = (Return res, a') ->
  (AIAssistant.result_type res = "ai"
   \/ AIAssistant.result_type res = "handoff"
   \/ AIAssistant.result_type res = "human")
  /\ (AIAssistant.result_type res = "ai" ->
      AIAssistant.isInHumanMode a' k = false)
  /\ (AIAssistant.result_type res <> "ai" ->
      AIAssistant.isInHumanMode a' k = true)
  /\ (AIAssistant.result_type res = "human" <->
      AIAssistant.isInHumanMode a k = true)
  /\ (AIAssistant.result_type res = "human" -> a' = a).
Proof.
  unfold AIAssistant.processMessage.
  destruct (AIAssistant.isInHumanMode a k) eqn:Hmode.
  - intros Hrun.
    assert (Hres : AIAssistant.result_type res = "human" /\ a' = a).
    { destruct (onMessage _) as [h|];
        [destruct (h _ _ _)|]; injection Hrun as <- <-; split; reflexivity. }
    destruct Hres as [Hres ->]. rewrite Hres.
    split; [right; right; reflexivity|]. split; [discriminate|].
    split; [intros _; exact Hmode|]. split; [|reflexivity].
    split; reflexivity.
  - destruct (_ || _)%bool.
    + intros Hrun. apply handoff_result in Hrun as (Hmode' & t & ->).
      cbn [AIAssistant.result_type].
      split; [right; left; reflexivity|]. split; [discriminate|].
      split; [intros _; exact Hmode'|]. split; [|discriminate].
      split; discriminate.
    + unfold try_catch.
      destruct (AIAssistant.process_with_ai k m o now a)
        as [[res0|e] a1] eqn:Hp.
      * intros [= <- <-].
        destruct (process_with_ai_result _ _ _ _ _ _ _ Hp)
          as [[Hres Hsame]|[Hres Hmode']]; rewrite Hres.
        -- split; [left; reflexivity|]. rewrite Hsame, Hmode.
           split; [reflexivity|]. split; [congruence|].
           split; [|discriminate]. split; discriminate.
        -- split; [right; left; reflexivity|]. split; [discriminate|].
           split; [intros _; exact Hmode'|]. split; [|discriminate].
           split; discriminate.
      * destruct (truthy (handoffOnError o)); [|discriminate].
        intros Hrun. apply handoff_result in Hrun as (Hmode' & t & ->).
        cbn [AIAssistant.result_type].
        split; [right; left; reflexivity|]. split; [discriminate|].
        split; [intros _; exact Hmode'|]. split; [|discriminate].
        split; discriminate.
Qed.

Lemma processMessage_result_type_witness :
  exists (res : AIAssistant.ProcessResult) (a' : assistant),
    AIAssistant.processMessage "B" "#agent please" no_options 3000 two_chats
    = (Return res, a')
    /\ AIAssistant.result_type res = "handoff"
    /\ AIAssistant.isInHumanMode a' "B" = true.
Proof.
  destruct (AIAssistant.processMessage "B" "#agent please" no_options 3000
              two_chats) as [[res|e] a'] eqn:Hrun;
    [|vm_compute in Hrun; discriminate Hrun].
  exists res, a'. split; [reflexivity|].
  assert (Htype : AIAssistant.result_type res = "handoff").
  { vm_compute in Hrun. injection Hrun as <- _. reflexivity. }
  split; [exact Htype|].
  destruct (processMessage_result_type two_chats a' "B" "#agent please"
              no_options 3000 res Hrun) as (_ & _ & Hmode & _).
  apply Hmode. rewrite Htype. discriminate.
Defined.

Lemma handoffToHuman_ai_activity v k why md now :
  maintains (fun x => ai_activity x = v)
    (AIAssistant.handoffToHuman k why md now).
Proof.
  apply inv_handoffToHuman with (K := fun _ => True);
    try (intros; assumption); try exact Logic.I.
  intros c t0. apply memory_createThread; intros; assumption.
Qed.

(** X20.  A message that carries a handoff tag, on a chat in AI mode, is
    never shown to the AI: no request is counted, no middleware step
    runs and the backend is not called, whatever the options.  When the
    call returns, the result is of type [handoff] with the transfer
    message, and the chat is in human mode for the reason that follows
    the tag, or for the default reason when nothing follows it. *)
Theorem processMessage_tag_skips_ai (a a' : assistant) (k m : string)
    (o : Options) (now : Z) (r : outcome AIAssistant.ProcessResult) :
  AIAssistant.isInHumanMode a k = false ->
  has_handoff_tag m = true ->
  AIAssistant.processMessage k m o now a = (r, a') ->
  ai_activity a' = ai_activity a
  /\ (forall res, r = Return res ->
        AIAssistant.isInHumanMode a' k = true
        /\ exists st,
             res = AIAssistant.HandoffResult
                     (JStr AIAssistant.transfer_message) (Some st) None
             /\ map_get k (_handoffState a') = Some st
             /\ reason st = user_reason m
             /\ metadata st = JObj [("triggerMessage", JStr m);
                                    ("automatic", JBool false)]).
Proof.
  intros Hmode Htag. unfold AIAssistant.processMessage. rewrite Hmode.
  unfold has_handoff_tag in Htag. rewrite Htag.
  fold (user_reason m). intros Hrun. split.
  - unfold bind at 1 in Hrun.
    destruct (AIAssistant.handoffToHuman k (user_reason m) _ now a)
      as [[b|e] a1] eqn:Hh.
    + unfold bind, AIAssistant.current_handoff, gets, ret in Hrun.
      injection Hrun as _ <-.
      apply (handoffToHuman_ai_activity _ _ _ _ _ _ _ _ Hh). reflexivity.
    + injection Hrun as _ <-.
      apply (handoffToHuman_ai_activity _ _ _ _ _ _ _ _ Hh). reflexivity.
  - intros res ->. 
    unfold bind at 1 in Hrun.
    destruct (AIAssistant.handoffToHuman k (user_reason m) _ now a)
      as [[b|e] a1] eqn:Hh; [|discriminate Hrun].
    apply handoffToHuman_returns_mode in Hh as (Hmode' & t & Hst).
    unfold bind, AIAssistant.current_handoff, gets, ret in Hrun.
    rewrite Hst in Hrun. injection Hrun as <- <-.
    split; [exact Hmode'|]. eexists. split; [reflexivity|].
    split; [exact Hst|]. split; reflexivity.
Qed.

Lemma processMessage_tag_skips_ai_witness :
  AIAssistant.isInHumanMode two_chats "B" = false
  /\ has_handoff_tag "#agent please" = true
  /\ ai_activity
       (snd (AIAssistant.processMessage "B" "#agent please" no_options 3000
               two_chats))
     = ai_activity two_chats
  /\ user_reason "#agent please" = "please".
Proof.
  split; [vm_compute; reflexivity|]. split; [vm_compute; reflexivity|].
  split; [|vm_compute; reflexivity].
  apply (processMessage_tag_skips_ai two_chats _ "B" "#agent please"
           no_options 3000
           (fst (AIAssistant.processMessage "B" "#agent please" no_options
                   3000 two_chats))).
  - vm_compute. reflexivity.
  - vm_compute. reflexivity.
  - destruct (AIAssistant.processMessage "B" "#agent please" no_options 3000
                two_chats); reflexivity.
Defined.

(** X21.  A message on a chat in human mode never reaches the AI and never
    fails: [processMessage] returns a result of type [human] that
    carries the handoff state of the chat, and changes nothing.  What
    the [onMessage] handler returns decides [response] and [handled];
    without a handler, or when the handler throws, the result says that
    the message is not handled. *)
Theorem processMessage_in_human_mode (a : assistant) (k m : string)
    (o : Options) (now : Z) :
  AIAssistant.isInHumanMode a k = true ->
  exists (response handled : jsval) (st : HandoffState),
    map_get k (_handoffState a) = Some st
    /\ AIAssistant.processMessage k m o now a
       = (Return (AIAssistant.HumanResult response handled (Some st)), a)
    /\ (onMessage (_humanHandlers a) = None ->
        response = JNull /\ handled = JBool false)
    /\ (forall h, onMessage (_humanHandlers a) = Some h ->
          match h k m (Some st) with
          | Throw _ => response = JNull /\ handled = JBool false
          | Return result =>
              response = AIAssistant.optional_prop "response" result
              /\ handled = or_else (AIAssistant.optional_prop "handled" result)
                                   (JBool false)
          end).
Proof.
  intros Hmode. unfold AIAssistant.processMessage. rewrite Hmode.
  assert (Hst : exists st, map_get k (_handoffState a) = Some st).
  { unfold AIAssistant.isInHumanMode, map_has, map_get in *.
    destruct (obj_get k (_handoffState a)) as [st|]; [|discriminate Hmode].
    exists st. reflexivity. }
  destruct Hst as [st Hst]. rewrite Hst.
  destruct (onMessage (_humanHandlers a)) as [h|] eqn:Hh.
  - destruct (h k m (Some st)) as [result|e] eqn:Hcall.
    + eexists _, _, st. split; [reflexivity|]. split; [reflexivity|].
      split; [discriminate|]. intros h' [= <-]. rewrite Hcall.
      split; reflexivity.
    + eexists _, _, st. split; [reflexivity|]. split; [reflexivity|].
      split; [discriminate|]. intros h' [= <-]. rewrite Hcall.
      split; reflexivity.
  - eexists _, _, st. split; [reflexivity|]. split; [reflexivity|].
    split; [intros _; split; reflexivity|]. intros h' H. discriminate H.
Qed.

Lemma processMessage_in_human_mode_witness :
  AIAssistant.isInHumanMode two_chats "A" = true
  /\ exists st : HandoffState,
       AIAssistant.processMessage "A" "any news?" no_options 3000 two_chats
       = (Return (AIAssistant.HumanResult JNull (JBool false) (Some st)),
          two_chats).
Proof.
  assert (Hmode : AIAssistant.isInHumanMode two_chats "A" = true)
    by (vm_compute; reflexivity).
  split; [exact Hmode|].
  destruct (processMessage_in_human_mode two_chats "A" "any news?" no_options
              3000 Hmode) as (response & handled & st & _ & Hrun & _ & Hh).
  exists st.
  specialize (Hh (fun _ _ _ => Throw (Error "pager is down")) eq_refl).
  cbv beta iota in Hh. destruct Hh as [-> ->]. exact Hrun.
Defined.

(** ** Middleware steps that pass on, and steps that throw *)

(** X22.  When every registered step passes control on ([passes_on]: it
    awaits [next()] once, outside of any [try] block; before that it
    may read and assign the context, get or create the thread of the
    chat, and run [try] blocks without [next()] whose handlers come to
    their end; after it, it only reads the context and assigns
    [context.error]), and the assistant is one in which [createThread]
    does not fail if a step uses the thread, [_executeMiddleware] starts
    every step once, in the order of registration, and returns; steps
    that use no thread leave all of the assistant but this record as it
    was. *)
Theorem executeMiddleware_runs_all_in_order (a : assistant) (c : Context)
    (now : Z) :
  Forall passes_on (_middleware a) ->
  has_room a \/ Forall thread_free (_middleware a) ->
  exists (ctx : Context) (a' : assistant),
    AIAssistant._executeMiddleware c now a = (Return ctx, a')
    /\ middleware_ran a'
       = (middleware_ran a ++ seq 0 (length (_middleware a)))%list
    /\ (Forall thread_free (_middleware a) ->
        a' = fold_left (fun a i => middleware_started i a)
               (seq 0 (length (_middleware a))) a).
Proof.
  intros Hall Hcase. unfold AIAssistant._executeMiddleware.
  set (sa0 := ({| AIAssistant.index := 0; AIAssistant.context := c |}, a)).
  assert (Hfree : Forall thread_free (_middleware a) ->
            exists sa',
              AIAssistant.next now (_middleware a) (length (_middleware a)) sa0
              = (Return tt, sa')
              /\ snd sa' = fold_left (fun a i => middleware_started i a)
                             (seq 0 (length (_middleware a))) a).
  { intros Hfree.
    destruct (next_passes_all_free a now (_middleware a) Hall Hfree
                (length (_middleware a)) 0%nat (length (_middleware a)) [] sa0)
      as (sa' & Hrun & _ & Hstate);
      [lia|lia|reflexivity|reflexivity|].
    exists sa'. split; [exact Hrun|exact Hstate]. }
  destruct Hcase as [Hroom|Hfree'].
  - destruct (next_passes_all_room a now (_middleware a) Hall
                (length (_middleware a)) 0%nat (length (_middleware a)) [] sa0)
      as ([s a'] & Hrun & _ & [_ Hstate]);
      [lia|lia|reflexivity|split; [exact Hroom|reflexivity]|].
    rewrite Hrun. exists (AIAssistant.context s), a'.
    split; [reflexivity|]. split.
    + cbn [snd app] in Hstate.
      change (middleware_ran a') with (middleware_ran (besides_threads a')).
      rewrite Hstate, fold_started_frame. reflexivity.
    + intros Hfree'. destruct (Hfree Hfree') as (sa2 & Hrun' & Hstate').
      rewrite Hrun in Hrun'. injection Hrun' as <-. exact Hstate'.
  - destruct (Hfree Hfree') as ([s a'] & Hrun & Hstate).
    rewrite Hrun. exists (AIAssistant.context s), a'.
    split; [reflexivity|]. cbn [snd] in Hstate. split.
    + rewrite Hstate, fold_started_frame. reflexivity.
    + intros _. exact Hstate.
Qed.

Lemma executeMiddleware_runs_all_in_order_witness :
  Forall passes_on
    [logging_step; enrichment_step known_contact "12:00"; logging_step]
  /\ exists (ctx : Context) (a' : assistant),
       AIAssistant._executeMiddleware (first_context "A" "hi" no_options) 1000
         (with_steps [logging_step; enrichment_step known_contact "12:00";
                      logging_step])
       = (Return ctx, a')
       /\ middleware_ran a' = [0%nat; 1%nat; 2%nat].
Proof.
  assert (Hall : Forall passes_on
                   (_middleware
                      (with_steps [logging_step;
                                   enrichment_step known_contact "12:00";
                                   logging_step]))).
  { repeat constructor. }
  split; [exact Hall|].
  destruct (executeMiddleware_runs_all_in_order
              (with_steps [logging_step; enrichment_step known_contact "12:00";
                           logging_step])
              (first_context "A" "hi" no_options) 1000 Hall)
    as (ctx & a' & Hrun & Hran & _).
  - left. split; [vm_compute; discriminate|].
    split; [vm_compute; discriminate|reflexivity].
  - exists ctx, a'. split; [exact Hrun|exact Hran].
Defined.



(** A step that awaits [next()] inside a [try] block catches what a
    later step throws: the request is not aborted, and [ask] goes on
    to the thread. *)
Example caught_error_goes_on :
  fst (AIAssistant.ask "A" "hi" no_options 1000
         (with_steps [MwTry (MwNext MwReturn) (fun _ => MwReturn) MwReturn;
                      rejecting_step]))
  = Return (JStr "hello").
Proof. vm_compute. reflexivity. Qed.

(** ** A thread that answers, and a thread that comes back *)

(** X24.  A call of [Thread.ask] that returns.  The backend was sent the
    history followed by the prompt; the thread has the same chat and
    context and is marked used at the time of the call; the prompt and
    the answer are the last two entries of its history, which is cut to
    its last 20 entries; and the thread as it now is has been persisted.
    A history that needs no cut is extended in place; a history that is
    cut is a new array, and the array it was cut from keeps every
    entry. *)
Theorem Thread_ask_persists (prompt : string) (options : Options) (now : Z)
    (this this' : Thread) (a a' : assistant) (response : jsval) :
  Thread.ask prompt options now (this, a) = (Return response, (this', a')) ->
  (_history this < length (arrays a))%nat ->
  let old := array_at a (_history this) in
  let new := (old ++ [user_message prompt; assistant_message response])%list in
  chatId this' = chatId this /\ _context this' = _context this
  /\ lastUsed this' = now
  /\ _storage a' = <[chatId this := snapshot this']> (_storage a)
  /\ array_at a' (_history this') = slice_last 20 new
  /\ array_at a' (_history this) = new
  /\ _history this'
     = (if Nat.ltb 20 (length new) then length (arrays a) else _history this)
  /\ exists more,
       backend_calls a'
       = (backend_calls a ++ (old ++ [user_message prompt]) :: more)%list.
Proof.
  rewrite Thread_ask_unfold. cbv zeta. intros Hrun Hl.
  destruct (callAI_frame
              (array_at (push (_history this) (user_message prompt) a)
                 (_history this))
              options (push (_history this) (user_message prompt) a))
    as (rest & more & Hframe).
  destruct (Thread._callAI _ options _) as [[r|e] a2]; [|discriminate].
  simpl in Hframe. subst a2.
  set (a1 := push (_history this) (user_message prompt) a) in *.
  set (a2 := with_backend rest _ a1) in *.
  set (a3 := push (_history this) (assistant_message r) a2) in *.
  assert (Hlen3 : length (arrays a3) = length (arrays a)).
  { unfold a3. rewrite arrays_push_length. unfold a2, a1.
    cbn [arrays with_backend]. apply arrays_push_length. }
  assert (Hcontent : array_at a3 (_history this)
            = (array_at a (_history this)
               ++ [user_message prompt; assistant_message r])%list).
  { unfold a3. rewrite array_at_push_same.
    - unfold a2. rewrite array_at_with_backend. unfold a1.
      rewrite array_at_push_same by exact Hl. rewrite <- app_assoc. reflexivity.
    - unfold a2, a1. cbn [arrays with_backend]. rewrite arrays_push_length.
      exact Hl. }
  assert (Hcalls : backend_calls a3
            = (backend_calls a
               ++ (array_at a (_history this) ++ [user_message prompt])
                  :: more)%list).
  { unfold a3, a2. cbn [backend_calls push set_arrays with_backend].
    unfold a1. rewrite array_at_push_same by exact Hl. reflexivity. }
  assert (Hstore : _storage a3 = _storage a) by reflexivity.
  rewrite Hcontent in Hrun. clearbody a3. clear a1 a2.
  destruct (Nat.ltb 20 _) eqn:Hlong.
  - injection Hrun as <- <- <-. rewrite Hlong.
    unfold saveThread, MemoryThreadStorage.saveThread, modify.
    cbn [snd chatId _context lastUsed _history _storage set_storage set_arrays
         backend_calls snapshot].
    split; [reflexivity|]. split; [reflexivity|]. split; [reflexivity|].
    split; [rewrite Hstore; reflexivity|]. split.
    { unfold array_at. cbn [arrays set_storage set_arrays].
      rewrite lookup_app_r by lia. rewrite Nat.sub_diag. reflexivity. }
    split.
    { unfold array_at in *. cbn [arrays set_storage set_arrays].
      rewrite lookup_app_l by lia. exact Hcontent. }
    split; [exact Hlen3|]. exists more. exact Hcalls.
  - injection Hrun as <- <- <-. rewrite Hlong.
    unfold saveThread, MemoryThreadStorage.saveThread, modify.
    cbn [snd touched chatId _context lastUsed _history _storage set_storage
         backend_calls snapshot].
    split; [reflexivity|]. split; [reflexivity|]. split; [reflexivity|].
    split; [rewrite Hstore; reflexivity|].
    change (array_at (set_storage _ a3) (_history this))
      with (array_at a3 (_history this)).
    apply Nat.ltb_ge in Hlong.
    split; [rewrite Hcontent; symmetry; apply slice_last_short, Hlong|].
    split; [exact Hcontent|]. split; [reflexivity|].
    exists more. exact Hcalls.
Qed.

Lemma Thread_ask_persists_witness :
  exists (this' : Thread) (a' : assistant),
    Thread.ask "first" no_options 2000 chatty
    = (Return (JStr "one"), (this', a'))
    /\ length (array_at a' (_history this')) = 20%nat
    /\ length (array_at a' (_history (fst chatty))) = 21%nat
    /\ _history this' = 1%nat
    /\ _storage a' !! "A" = Some (snapshot this').
Proof.
  assert (Hrun : Thread.ask "first" no_options 2000 chatty
                 = (Return (JStr "one"),
                    snd (Thread.ask "first" no_options 2000 chatty)))
    by (vm_compute; reflexivity).
  destruct (snd (Thread.ask "first" no_options 2000 chatty))
    as [this' a'] eqn:Hsnd.
  exists this', a'. split; [exact Hrun|].
  destruct (Thread_ask_persists "first" no_options 2000 (fst chatty) this'
              (snd chatty) a' (JStr "one"))
    as (_ & _ & _ & Hst & Hnew & Hold & Haddr & _).
  - exact Hrun.
  - vm_compute. lia.
  - rewrite Hnew, Hold, Haddr, Hst.
    split; [vm_compute; reflexivity|]. split; [vm_compute; reflexivity|].
    split; [vm_compute; reflexivity|]. apply lookup_insert_eq.
Defined.

(** X25.  Persist and reload.  A thread that was saved comes back from
    [createThread] as it was, with the context, the history array and
    the time of last use it was saved with, when there is room in the
    working set, the snapshot is not older than the TTL and the backend
    of the configuration is registered.  The one exception the
    constructor makes: a thread saved with a time of last use of 0 comes
    back as used now. *)
Theorem saveThread_then_createThread (a : assistant) (t : Thread) (now : Z) :
  map_size (_threads a) < memory_maxThreads a ->
  expired a now (lastUsed t) = false ->
  Thread.provider_registered a (config_provider a) = true ->
  let saved := snd (saveThread t a) in
  let t' := if lastUsed t =? 0 then touched now t else t in
  AIAssistant.createThread (chatId t) now saved
  = (Return t', set_threads (map_set (chatId t) t') saved).
Proof.
  intros Hroom Hfresh Hreg saved t'.
  rewrite createThread_load. unfold bind at 1.
  replace (memory_maxThreads saved <=? map_size (_threads saved)) with false
    by (symmetry; apply Z.leb_gt; exact Hroom).
  assert (Hthread : thread_of (chatId t) (snapshot t) now = t').
  { unfold thread_of, t', touched. cbn [snapshot td_context td_history
      td_lastUsed]. destruct (lastUsed t =? 0); destruct t; reflexivity. }
  rewrite <- Hthread. apply load_hit.
  - unfold saved, saveThread, MemoryThreadStorage.saveThread, modify.
    cbn [snd _storage set_storage td_chatId]. apply lookup_insert_eq.
  - exact Hfresh.
  - exact Hreg.
Qed.

Lemma saveThread_then_createThread_witness :
  map_size (_threads fresh_assistant) < memory_maxThreads fresh_assistant
  /\ expired fresh_assistant 3000 (lastUsed talked_thread) = false
  /\ fst (AIAssistant.createThread "A" 3000
            (snd (saveThread talked_thread fresh_assistant)))
     = Return talked_thread.
Proof.
  split; [reflexivity|]. split; [reflexivity|].
  exact (f_equal fst
           (saveThread_then_createThread fresh_assistant talked_thread 3000
              eq_refl eq_refl eq_refl)).
Defined.

(** ** Templates made from examples *)

Section Generated.
Import TemplateParser.

Lemma In_add_property (key : string) (def : FieldDef)
    (l : list (string * FieldDef)) (x : string * FieldDef) :
  In x (add_property key def l) <-> x = (key, def) \/ In x l.
Proof.
  induction l as [|[k' d'] l IH]; simpl.
  - intuition.
  - destruct (listed_before key k'); simpl; [intuition|]. rewrite IH. intuition.
Qed.

Lemma NoDup_add_property (key : string) (def : FieldDef)
    (l : list (string * FieldDef)) :
  ~ In key (map fst l) -> NoDup (map fst l) ->
  NoDup (map fst (add_property key def l)).
Proof.
  induction l as [|[k' d'] l IH]; simpl; intros Hnotin Hnd.
  - apply NoDup_cons. split; [apply not_elem_of_nil|constructor].
  - destruct (listed_before key k'); simpl.
    + apply NoDup_cons. split; [|exact Hnd].
      rewrite list_elem_of_In. exact Hnotin.
    + apply NoDup_cons in Hnd as [Hk' Hnd].
      apply NoDup_cons. split; [|apply IH; [tauto|exact Hnd]].
      rewrite list_elem_of_In, in_map_iff. intros ([k0 d0] & Hk0 & Hin).
      simpl in Hk0. subst k0. apply In_add_property in Hin as [Heq|Hin].
      * injection Heq as -> _. tauto.
      * apply Hk'. rewrite list_elem_of_In, in_map_iff.
        exists (k', d0). split; [reflexivity|exact Hin].
Qed.

Lemma obj_get_add_property_ne {A} (key k : string) (def : A)
    (l : list (string * A)) :
  k <> key -> obj_get k (add_property key def l) = obj_get k l.
Proof.
  intros Hne. induction l as [|[k' d'] l IH]; simpl.
  - destruct (String.eqb_spec key k); [congruence|reflexivity].
  - destruct (listed_before key k'); simpl.
    + destruct (String.eqb_spec key k); [congruence|reflexivity].
    + destruct (String.eqb k' k); [reflexivity|exact IH].
Qed.

Lemma lacks_absent (l : list (string * FieldDef)) (key : string) :
  lacks l key = true ->
  obj_get key l = None /\ ~ In key (map fst l) /\ ~ In key inherited.
Proof.
  unfold lacks. destruct (obj_get key l) eqn:Hget; [discriminate|].
  intros Hinh. split; [reflexivity|]. split.
  - intros Hin. apply obj_get_keys in Hin as [x Hx]. congruence.
  - intros Hin. apply negb_true_iff in Hinh.
    assert (existsb (String.eqb key) inherited = true); [|congruence].
    apply existsb_exists. exists key. split; [exact Hin|apply String.eqb_refl].
Qed.

Lemma guess_type_cases (v : string) :
  In (Some (guess_type v)) [Some "string"; Some "number"; Some "boolean"].
Proof.
  unfold guess_type. destruct (Number v); simpl; [tauto| |tauto].
  destruct (_ || _)%bool; simpl; tauto.
Qed.

Lemma generated_add (l : list (string * FieldDef)) (key : string)
    (def : FieldDef) :
  generated l -> lacks l key = true -> generated_field (key, def) ->
  generated (add_property key def l).
Proof.
  intros [Hall Hnd] Hlacks Hdef.
  destruct (lacks_absent l key Hlacks) as (_ & Hnotin & _). split.
  - rewrite List.Forall_forall in *. intros x Hx.
    apply In_add_property in Hx as [->|Hx]; [exact Hdef|apply Hall, Hx].
  - apply NoDup_add_property; assumption.
Qed.

Lemma generated_pair (l : list (string * FieldDef)) (pair : string) :
  generated l -> generated (generate_pair l pair).
Proof.
  intros Hl. unfold generate_pair.
  destruct (split ":" pair) as [|key [|value rest]]; try exact Hl.
  destruct (_ && _)%bool; [|exact Hl]. cbv zeta.
  destruct (lacks l (trim key)) eqn:Hlacks; [|exact Hl].
  apply generated_add; [exact Hl|exact Hlacks|].
  destruct (lacks_absent l (trim key) Hlacks) as (_ & _ & Hinh).
  split; [reflexivity|]. split; [apply guess_type_cases|].
  split; [discriminate|exact Hinh].
Qed.

Lemma generated_pairs (pairs : list string) (l : list (string * FieldDef)) :
  generated l -> generated (fold_left generate_pair pairs l).
Proof.
  revert l. induction pairs as [|p pairs IH]; intros l Hl; simpl;
    [exact Hl|]. apply IH, generated_pair, Hl.
Qed.

Lemma generated_example (l : list (string * FieldDef)) (example : string) :
  generated l -> generated (generate_example l example).
Proof.
  intros Hl. unfold generate_example. apply generated_pairs.
  destruct (exec commandPattern example); [|exact Hl].
  destruct (lacks l "command") eqn:Hlacks; [|exact Hl].
  apply generated_add; [exact Hl|exact Hlacks|].
  destruct (lacks_absent l "command" Hlacks) as (_ & _ & Hinh).
  split; [reflexivity|]. split; [simpl; tauto|].
  split; [intros _; split; reflexivity|exact Hinh].
Qed.

Lemma generated_examples (exs : list string) (l : list (string * FieldDef)) :
  generated l -> generated (fold_left generate_example exs l).
Proof.
  revert l. induction exs as [|e exs IH]; intros l Hl; simpl; [exact Hl|].
  apply IH, generated_example, Hl.
Qed.

(** X26.  Whatever the examples are, a generated template names every field
    once, gives every field one of the types [string], [number] and
    [boolean] and no pattern, requires no field but a [command] of type
    [string], and has no field named like a property that every object
    inherits ([constructor], [toString], ...), since for such a name the
    test [!fields[key]] fails.  The examples are returned with it. *)
Theorem generateTemplate_fields (exs : list string) :
  Forall generated_field (fields (generateTemplate exs))
  /\ NoDup (map fst (fields (generateTemplate exs)))
  /\ examples (generateTemplate exs) = exs.
Proof.
  destruct (generated_examples exs []) as [Hall Hnd].
  { split; constructor. }
  split; [exact Hall|]. split; [exact Hnd|reflexivity].
Qed.

Lemma kept_pair (l : list (string * FieldDef)) (pair k : string)
    (d : FieldDef) :
  obj_get k l = Some d -> obj_get k (generate_pair l pair) = Some d.
Proof.
  intros Hget. unfold generate_pair.
  destruct (split ":" pair) as [|key [|value rest]]; try exact Hget.
  destruct (_ && _)%bool; [|exact Hget]. cbv zeta.
  destruct (lacks l (trim key)) eqn:Hlacks; [|exact Hget].
  rewrite obj_get_add_property_ne; [exact Hget|].
  intros ->. apply lacks_absent in Hlacks as (Hnone & _). congruence.
Qed.

Lemma kept_pairs (pairs : list string) (l : list (string * FieldDef))
    (k : string) (d : FieldDef) :
  obj_get k l = Some d -> obj_get k (fold_left generate_pair pairs l) = Some d.
Proof.
  revert l. induction pairs as [|p pairs IH]; intros l Hl; simpl;
    [exact Hl|]. apply IH, kept_pair, Hl.
Qed.

Lemma kept_example (l : list (string * FieldDef)) (example k : string)
    (d : FieldDef) :
  obj_get k l = Some d -> obj_get k (generate_example l example) = Some d.
Proof.
  intros Hget. unfold generate_example. apply kept_pairs.
  destruct (exec commandPattern example); [|exact Hget].
  destruct (lacks l "command") eqn:Hlacks; [|exact Hget].
  rewrite obj_get_add_property_ne; [exact Hget|].
  intros ->. apply lacks_absent in Hlacks as (Hnone & _). congruence.
Qed.

Lemma kept_examples (exs : list string) (l : list (string * FieldDef))
    (k : string) (d : FieldDef) :
  obj_get k l = Some d ->
  obj_get k (fold_left generate_example exs l) = Some d.
Proof.
  revert l. induction exs as [|e exs IH]; intros l Hl; simpl; [exact Hl|].
  apply IH, kept_example, Hl.
Qed.

(** X27.  The first example that has a field decides it: the definition of a
    field, once made, is the one the template ends with, whatever the
    later examples hold for that field. *)
Theorem first_example_decides (exs more : list string) (k : string)
    (d : FieldDef) :
  obj_get k (fields (generateTemplate exs)) = Some d ->
  obj_get k (fields (generateTemplate (exs ++ more))) = Some d.
Proof.
  intros Hget. unfold generateTemplate in *. cbn [fields] in *.
  rewrite fold_left_app. apply kept_examples, Hget.
Qed.

Lemma first_example_decides_witness :
  obj_get "quantity" (fields (generateTemplate (take 1 order_examples)))
  = Some {| type := Some "number"; required := false; pattern := None |}
  /\ obj_get "quantity" (fields (generateTemplate order_examples))
     = Some {| type := Some "number"; required := false; pattern := None |}
  /\ obj_get "size" (fields (generateTemplate order_examples))
     = Some {| type := Some "string"; required := false; pattern := None |}.
Proof.
  split; [vm_compute; reflexivity|]. split; [|vm_compute; reflexivity].
  apply (first_example_decides (take 1 order_examples) (drop 1 order_examples)
           "quantity").
  vm_compute. reflexivity.
Defined.

End Generated.

(** ** Helpers that ask on the chat [system] *)

Lemma chars_str (l : list ascii) : chars (str l) = l.
Proof. apply list_ascii_of_string_of_list_ascii. Qed.

Lemma str_chars (s : string) : str (chars s) = s.
Proof. apply string_of_list_ascii_of_string. Qed.

Lemma trimStart_black (l : list ascii) : starts_black (trimStart_chars l).
Proof.
  induction l as [|c l IH]; simpl; [exact Logic.I|].
  destruct (is_space c) eqn:Hc; [exact IH|exact Hc].
Qed.

Lemma trimStart_fix (l : list ascii) :
  starts_black l -> trimStart_chars l = l.
Proof. destruct l as [|c l]; simpl; [reflexivity|]. intros ->. reflexivity. Qed.

Lemma trimStart_suffix (l : list ascii) :
  exists pre, l = (pre ++ trimStart_chars l)%list.
Proof.
  induction l as [|c l [pre IH]]; simpl.
  - exists []. reflexivity.
  - destruct (is_space c).
    + exists (c :: pre). simpl. rewrite <- IH. reflexivity.
    + exists []. reflexivity.
Qed.

(** Cutting white space from the end of a list that does not begin with
    white space leaves a list that does not begin with it. *)
Lemma trimEnd_black (l : list ascii) :
  starts_black l -> starts_black (rev (trimStart_chars (rev l))).
Proof.
  intros Hl. destruct (trimStart_suffix (rev l)) as [pre Hpre].
  assert (Hl' : l = (rev (trimStart_chars (rev l)) ++ rev pre)%list).
  { rewrite <- rev_app_distr, <- Hpre, rev_involutive. reflexivity. }
  destruct (rev (trimStart_chars (rev l))) as [|c l0]; [exact Logic.I|].
  rewrite Hl' in Hl. exact Hl.
Qed.

Lemma trim_chars_fix (l : list ascii) :
  rev (trimStart_chars (rev (trimStart_chars
        (rev (trimStart_chars (rev (trimStart_chars l)))))))
  = rev (trimStart_chars (rev (trimStart_chars l))).
Proof.
  set (l1 := trimStart_chars l).
  assert (H1 : starts_black l1) by apply trimStart_black.
  set (l2 := trimStart_chars (rev l1)).
  assert (H2 : starts_black l2) by apply trimStart_black.
  assert (H3 : starts_black (rev l2)) by (apply trimEnd_black, H1).
  rewrite (trimStart_fix (rev l2)) by exact H3.
  rewrite rev_involutive, (trimStart_fix l2) by exact H2. reflexivity.
Qed.

Lemma trim_trim (s : string) : trim (trim s) = trim s.
Proof. unfold trim. rewrite chars_str, trim_chars_fix. reflexivity. Qed.

Lemma lower_char_space (c : ascii) : is_space (lower_char c) = is_space c.
Proof.
  destruct c as [[] [] [] [] [] [] [] []]; vm_compute; reflexivity.
Qed.

Lemma lower_char_lower (c : ascii) : lower_char (lower_char c) = lower_char c.
Proof.
  destruct c as [[] [] [] [] [] [] [] []]; vm_compute; reflexivity.
Qed.

Lemma trimStart_lower (l : list ascii) :
  trimStart_chars (map lower_char l) = map lower_char (trimStart_chars l).
Proof.
  induction l as [|c l IH]; simpl; [reflexivity|].
  rewrite lower_char_space. destruct (is_space c); [exact IH|reflexivity].
Qed.

Lemma trim_toLowerCase (s : string) :
  trim (toLowerCase s) = toLowerCase (trim s).
Proof.
  unfold trim, toLowerCase. rewrite !chars_str.
  rewrite trimStart_lower, <- map_rev, trimStart_lower, <- map_rev.
  reflexivity.
Qed.

Lemma toLowerCase_lower (s : string) :
  toLowerCase (toLowerCase s) = toLowerCase s.
Proof.
  unfold toLowerCase. rewrite chars_str, map_map. f_equal.
  apply map_ext. intros c. apply lower_char_lower.
Qed.

Lemma string_method_returns (response : jsval) (source method s : string)
    (a a' : assistant) :
  AIAssistant.string_method response source method a = (Return s, a') ->
  response = JStr s /\ a' = a.
Proof.
  destruct response; try discriminate. intros [= <- <-]. split; reflexivity.
Qed.

(** X28.  What the helpers hand back is normalised, whatever the backend
    wrote.  The suggestions of [getSmartReplies] are the lines of the
    answer with the white space around them removed, and no suggestion
    is empty; the code that [detectLanguage] returns is trimmed and in
    lower case; the text that [translate] returns is trimmed. *)
Theorem helpers_normalise (a : assistant) (text lang : string)
    (maxSuggestions : jsval) (now : Z) :
  (forall replies a',
     AIAssistant.getSmartReplies text maxSuggestions now a
     = (Return replies, a') ->
     Forall (fun r => r <> EmptyString /\ trimmed r) replies)
  /\ (forall code a',
        AIAssistant.detectLanguage text now a = (Return code, a') ->
        trimmed code /\ toLowerCase code = code)
  /\ (forall translation a',
        AIAssistant.translate text lang now a = (Return translation, a') ->
        trimmed translation).
Proof.
  split; [|split].
  - intros replies a'. unfold AIAssistant.getSmartReplies. cbv zeta.
    unfold bind at 1. destruct (AIAssistant.ask _ _ _ _ a) as [[v|e] a1];
      [|discriminate].
    unfold bind at 1.
    destruct (AIAssistant.string_method v _ _ a1) as [[s|e] a2];
      [|discriminate].
    intros [= <- <-]. rewrite List.Forall_forall. intros r Hr.
    apply filter_In in Hr as [Hin Hne]. split.
    + intros ->. discriminate Hne.
    + apply in_map_iff in Hin as (x & <- & _). apply trim_trim.
  - intros code a'. unfold AIAssistant.detectLanguage. cbv zeta.
    unfold bind at 1. destruct (AIAssistant.ask _ _ _ _ a) as [[v|e] a1];
      [|discriminate].
    unfold bind at 1.
    destruct (AIAssistant.string_method v _ _ a1) as [[s|e] a2];
      [|discriminate].
    intros [= <- <-]. split.
    + unfold trimmed. rewrite trim_toLowerCase, trim_trim. reflexivity.
    + apply toLowerCase_lower.
  - intros translation a'. unfold AIAssistant.translate. cbv zeta.
    unfold bind at 1. destruct (AIAssistant.ask _ _ _ _ a) as [[v|e] a1];
      [|discriminate].
    unfold bind at 1.
    destruct (AIAssistant.string_method v _ _ a1) as [[s|e] a2];
      [|discriminate].
    intros [= <- <-]. apply trim_trim.
Qed.

Lemma helpers_normalise_witness :
  fst (AIAssistant.getSmartReplies "hello" JUndefined 2000 three_lines)
  = Return ["Sure!"; "On my way"]
  /\ Forall (fun r => r <> EmptyString /\ trimmed r) ["Sure!"; "On my way"].
Proof.
  assert (Hrun : AIAssistant.getSmartReplies "hello" JUndefined 2000 three_lines
                 = (Return ["Sure!"; "On my way"],
                    snd (AIAssistant.getSmartReplies "hello" JUndefined 2000
                           three_lines)))
    by (vm_compute; reflexivity).
  split; [rewrite Hrun; reflexivity|].
  destruct (helpers_normalise three_lines "hello" "fr" JUndefined 2000)
    as (Hreplies & _).
  exact (Hreplies _ _ Hrun).
Defined.

(** ** What a regular expression matches *)

(** The matcher is sound: when [rmatch] succeeds, it has consumed a text
    that the expression spells, and the result is that of the
    continuation at the end of this text. *)
Lemma rmatch_sound {R : Type} (r : regex) :
  forall (pos : nat) (s : list ascii) (caps : captures)
         (k : nat -> list ascii -> captures -> option R) (x : R),
    rmatch r pos s caps k = Some x ->
    exists w s' caps',
      s = (w ++ s')%list /\ spells r w
      /\ k (pos + length w)%nat s' caps' = Some x.
Proof.
  induction r as [| |p|r1 IH1 r2 IH2|r1 IH1 r2 IH2|r1 IH1|i r1 IH1];
    intros pos s caps k x Hrun; simpl in Hrun.
  - exists [], s, caps. rewrite Nat.add_0_r. repeat split;
      [constructor|exact Hrun].
  - destruct (Nat.eqb pos 0); [|discriminate].
    exists [], s, caps. rewrite Nat.add_0_r. repeat split;
      [constructor|exact Hrun].
  - destruct s as [|c s']; [discriminate|].
    destruct (p c) eqn:Hp; [|discriminate].
    exists [c], s', caps. rewrite Nat.add_1_r. repeat split;
      [constructor; exact Hp|exact Hrun].
  - apply IH1 in Hrun as (w1 & s1 & caps1 & -> & Hw1 & Hrun).
    apply IH2 in Hrun as (w2 & s2 & caps2 & -> & Hw2 & Hrun).
    exists (w1 ++ w2)%list, s2, caps2.
    rewrite length_app, Nat.add_assoc, <- app_assoc.
    repeat split; [constructor; assumption|exact Hrun].
  - destruct (rmatch r1 pos s caps k) as [y|] eqn:H1.
    + injection Hrun as ->.
      apply IH1 in H1 as (w & s' & caps' & -> & Hw & Hk).
      exists w, s', caps'. repeat split; [apply spells_alt_l, Hw|exact Hk].
    + apply IH2 in Hrun as (w & s' & caps' & -> & Hw & Hk).
      exists w, s', caps'. repeat split; [apply spells_alt_r, Hw|exact Hk].
  - revert Hrun. generalize (length s) as fuel. intros fuel.
    revert pos s caps. induction fuel as [|fuel IHf]; intros pos s caps Hrun.
    + exists [], s, caps. rewrite Nat.add_0_r. repeat split;
        [constructor|exact Hrun].
    + match type of Hrun with
      | match ?m with Some _ => _ | None => _ end = _ =>
          destruct m as [y|] eqn:H1
      end.
      * injection Hrun as ->.
        apply IH1 in H1 as (w1 & s1 & caps1 & -> & Hw1 & Hk).
        destruct (Nat.ltb pos (pos + length w1)); [|discriminate].
        apply IHf in Hk as (w2 & s2 & caps2 & -> & Hw2 & Hk).
        exists (w1 ++ w2)%list, s2, caps2.
        rewrite length_app, Nat.add_assoc, <- app_assoc.
        repeat split; [constructor; assumption|exact Hk].
      * exists [], s, caps. rewrite Nat.add_0_r. repeat split;
          [constructor|exact Hrun].
  - apply IH1 in Hrun as (w & s' & caps' & -> & Hw & Hk).
    exists w, s', ((i, (pos, (pos + length w)%nat)) :: caps').
    repeat split; [constructor; exact Hw|exact Hk].
Qed.

Lemma match_at_sound (r : regex) (pos : nat) (s : list ascii) (e : nat)
    (caps : captures) :
  match_at r pos s = Some (e, caps) ->
  exists w s', s = (w ++ s')%list /\ spells r w /\ e = (pos + length w)%nat.
Proof.
  unfold match_at. intros Hrun.
  apply rmatch_sound in Hrun as (w & s' & caps' & -> & Hw & [= <- _]).
  exists w, s'. repeat split. exact Hw.
Qed.

(** Every match that [scan] finds is a stretch of the input that the
    expression spells. *)
Lemma scan_sound (r : regex) (s : list ascii) :
  forall (pos skip : nat) (m : found),
    In m (scan r pos s skip) ->
    exists pre w s',
      s = (pre ++ w ++ s')%list /\ spells r w
      /\ fst (fst m) = (pos + length pre)%nat
      /\ snd (fst m) = (pos + length pre + length w)%nat.
Proof.
  induction s as [|c s IH]; intros pos skip m Hin.
  - destruct skip as [|skip]; simpl in Hin; [|contradiction].
    destruct (match_at r pos []) as [[e caps]|] eqn:Hm; [|contradiction].
    destruct Hin as [<-|[]].
    apply match_at_sound in Hm as (w & s' & Hs & Hw & ->).
    exists [], w, s'. simpl. rewrite Nat.add_0_r. repeat split; assumption.
  - assert (Hrest : forall skip',
              In m (scan r (S pos) s skip') ->
              exists pre w s',
                c :: s = (pre ++ w ++ s')%list /\ spells r w
                /\ fst (fst m) = (pos + length pre)%nat
                /\ snd (fst m) = (pos + length pre + length w)%nat).
    { intros skip' H. apply IH in H as (pre & w & s' & -> & Hw & Hb & He).
      exists (c :: pre), w, s'. simpl. rewrite Hb, He.
      repeat split; [exact Hw|lia|lia]. }
    destruct skip as [|skip]; simpl in Hin; [|apply (Hrest _ Hin)].
    destruct (match_at r pos (c :: s)) as [[e caps]|] eqn:Hm;
      [|apply (Hrest _ Hin)].
    destruct Hin as [<-|Hin]; [|apply (Hrest _ Hin)].
    apply match_at_sound in Hm as (w & s' & Hs & Hw & ->).
    exists [], w, s'. simpl. rewrite Nat.add_0_r. repeat split; assumption.
Qed.

Lemma match_g_sound (r : regex) (s text : string) :
  In text (match_g r s) -> exists w, text = str w /\ spells r w.
Proof.
  unfold match_g, matches. intros Hin.
  apply in_map_iff in Hin as (m & <- & Hin).
  apply scan_sound in Hin as (pre & w & s' & Hs & Hw & Hb & He).
  exists w. split; [|exact Hw]. f_equal.
  unfold substring. rewrite Hs, Hb, He. simpl.
  rewrite drop_app_length.
  replace (length pre + length w - length pre)%nat with (length w) by lia.
  apply take_app_length.
Qed.

(** ** The pairs the parser finds *)

Section Pairs.
Import TemplateParser.

Lemma spells_star_chr (p : ascii -> bool) (w : list ascii) :
  spells (Star (Chr p)) w -> Forall (fun c => p c = true) w.
Proof.
  remember (Star (Chr p)) as r eqn:Hr. intros H.
  induction H as [| | | | | | |r0 w1 w2 H1 _ H2 IH2|]; try discriminate Hr.
  - constructor.
  - injection Hr as ->. inversion H1; subst.
    constructor; [assumption|]. apply IH2. reflexivity.
Qed.

Lemma spells_plus_chr (p : ascii -> bool) (w : list ascii) :
  spells (Plus (Chr p)) w -> w <> [] /\ Forall (fun c => p c = true) w.
Proof.
  unfold Plus. intros H. inversion H as [| | |r1 r2 w1 w2 H1 H2| | | | |]; subst.
  inversion H1; subst. apply spells_star_chr in H2.
  split; [discriminate|]. constructor; assumption.
Qed.

Lemma spells_keyValuePattern (w : list ascii) :
  spells keyValuePattern w ->
  exists k v,
    w = (k ++ ":"%char :: v)%list /\ k <> [] /\ v <> []
    /\ Forall (fun c => is_word c = true) k
    /\ Forall (fun c => (is_word c || is_space c)%bool = true) v.
Proof.
  unfold keyValuePattern. intros H.
  inversion H as [| | |r1 r2 w1 w23 H1 H23| | | | |]; subst.
  inversion H1 as [| | | | | | | |i r w' Hk]; subst.
  inversion H23 as [| | |r1 r2 w2 w3 H2 H3| | | | |]; subst.
  inversion H2 as [| |p c Hc| | | | | |]; subst.
  inversion H3 as [| | | | | | | |i r w' Hv]; subst.
  apply spells_plus_chr in Hk as [Hk1 Hk2].
  apply spells_plus_chr in Hv as [Hv1 Hv2].
  apply Ascii.eqb_eq in Hc. subst c.
  exists w1, w3. repeat split; assumption.
Qed.

Lemma str_app (l1 l2 : list ascii) : str (l1 ++ l2) = str l1 ++ str l2.
Proof.
  induction l1 as [|c l1 IH]; simpl; [reflexivity|].
  unfold str in *. simpl. rewrite IH. reflexivity.
Qed.

Lemma chars_app (s1 s2 : string) : chars (s1 ++ s2) = (chars s1 ++ chars s2)%list.
Proof.
  induction s1 as [|c s1 IH]; simpl; [reflexivity|].
  unfold chars in *. simpl. rewrite IH. reflexivity.
Qed.

Lemma str_nil (l : list ascii) : str l = EmptyString -> l = [].
Proof. destruct l; [reflexivity|discriminate]. Qed.

(** Every pair the parser finds in a message is a key made of word
    characters, a colon, and a value. *)
Lemma pairs_key_value (message pair : string) :
  In pair (match_g keyValuePattern message) ->
  exists key value, key_value pair key value.
Proof.
  intros Hin. apply match_g_sound in Hin as (w & -> & Hw).
  apply spells_keyValuePattern in Hw as (k & v & -> & Hk & Hv & Hkw & Hvw).
  exists (str k), (str v). unfold key_value.
  rewrite !chars_str. split; [|split; [|split; [|split; assumption]]].
  - rewrite str_app. reflexivity.
  - intros H. apply str_nil in H. contradiction.
  - intros H. apply str_nil in H. contradiction.
Qed.

Lemma word_not_colon (c : ascii) :
  (is_word c || is_space c)%bool = true -> Ascii.eqb c ":" = false.
Proof.
  destruct (Ascii.eqb_spec c ":") as [->|]; [|reflexivity].
  vm_compute. discriminate.
Qed.

Lemma word_not_space (c : ascii) : is_word c = true -> is_space c = false.
Proof.
  destruct c as [[] [] [] [] [] [] [] []]; vm_compute; congruence.
Qed.

Lemma split_chars_plain (sep : ascii) (l cur : list ascii) :
  Forall (fun c => Ascii.eqb c sep = false) l ->
  split_chars sep cur l = [(rev cur ++ l)%list].
Proof.
  revert cur. induction l as [|c l IH]; intros cur Hl; simpl.
  - rewrite app_nil_r. reflexivity.
  - apply Forall_cons in Hl as [Hc Hl]. rewrite Hc, IH by exact Hl.
    simpl. rewrite <- app_assoc. reflexivity.
Qed.

Lemma split_chars_at (sep : ascii) (l rest cur : list ascii) :
  Forall (fun c => Ascii.eqb c sep = false) l ->
  split_chars sep cur (l ++ sep :: rest)
  = (rev cur ++ l)%list :: split_chars sep [] rest.
Proof.
  revert cur. induction l as [|c l IH]; intros cur Hl; simpl.
  - rewrite Ascii.eqb_refl, app_nil_r. reflexivity.
  - apply Forall_cons in Hl as [Hc Hl]. rewrite Hc, IH by exact Hl.
    simpl. rewrite <- app_assoc. reflexivity.
Qed.

Lemma split_key_value (pair key value : string) :
  key_value pair key value -> split ":" pair = [key; value].
Proof.
  intros (-> & _ & _ & Hk & Hv). unfold split.
  rewrite chars_app. change (chars (":" ++ value)) with (":"%char :: chars value).
  rewrite split_chars_at, split_chars_plain; simpl.
  - rewrite !str_chars. reflexivity.
  - eapply Forall_impl; [exact Hv|]. intros c Hc. apply word_not_colon, Hc.
  - eapply Forall_impl; [exact Hk|]. intros c Hc. apply word_not_colon.
    rewrite Hc. reflexivity.
Qed.

Lemma trim_word (key : string) :
  Forall (fun c => is_word c = true) (chars key) -> trim key = key.
Proof.
  intros Hk. unfold trim.
  assert (Hfix : forall l, Forall (fun c => is_word c = true) l ->
                           trimStart_chars l = l).
  { intros [|c l] Hl; [reflexivity|]. apply Forall_cons in Hl as [Hc _].
    simpl. rewrite (word_not_space c Hc). reflexivity. }
  rewrite (Hfix _ Hk), Hfix, rev_involutive; [apply str_chars|].
  apply Forall_rev, Hk.
Qed.

(** What the loop of [parseMessage] does with a pair: it always sets
    the field named by the key, to the value converted as the template
    says for that key. *)
Lemma parse_pair_key_value (template : MessageTemplate)
    (result : ParsedMessage) (pair key value : string) :
  key_value pair key value ->
  parse_pair template result pair
  = set_property key
      (_convertValueType (trim value) (field_type template key)) result.
Proof.
  intros Hkv. unfold parse_pair. rewrite (split_key_value _ _ _ Hkv).
  destruct Hkv as (_ & Hk & Hv & Hkw & _).
  rewrite (trim_word key Hkw).
  assert (Ht : forall s, s <> EmptyString -> truthy (JStr s) = true).
  { intros [|c s] H; [congruence|reflexivity]. }
  rewrite (Ht key Hk), (Ht value Hv). reflexivity.
Qed.

End Pairs.

(** ** What the parser makes of a message *)

Section Parsed.
Import TemplateParser.

Lemma parse_with_parsed (message : string) (template : MessageTemplate) :
  parse_with message template
  = validateParsedMessage (parsed message template) template.
Proof. reflexivity. Qed.

Lemma key_value_key (pair k v k' v' : string) :
  key_value pair k v -> key_value pair k' v' -> k = k' /\ v = v'.
Proof.
  intros H H'. apply split_key_value in H, H'. rewrite H in H'.
  injection H' as -> ->. split; reflexivity.
Qed.

Lemma obj_get_add_property {A} (key : string) (v : A)
    (l : list (string * A)) :
  obj_get key l = None -> obj_get key (add_property key v l) = Some v.
Proof.
  induction l as [|[k' v'] l IH]; simpl; intros Hnone.
  - rewrite String.eqb_refl. reflexivity.
  - destruct (String.eqb_spec k' key) as [->|Hne]; [discriminate|].
    destruct (listed_before key k'); simpl.
    + rewrite String.eqb_refl. reflexivity.
    + destruct (String.eqb_spec k' key); [congruence|apply IH, Hnone].
Qed.

Lemma obj_get_set_property (key : string) (v : jsval) (o : ParsedMessage) :
  key <> "__proto__" -> obj_get key (set_property key v o) = Some v.
Proof.
  intros Hkey. unfold set_property.
  destruct (String.eqb_spec key "__proto__"); [contradiction|].
  destruct (obj_get key o) eqn:Hget.
  - apply obj_get_obj_set.
  - apply obj_get_add_property, Hget.
Qed.

Lemma obj_get_set_property_ne (k k' : string) (v : jsval) (o : ParsedMessage) :
  k' <> k -> obj_get k' (set_property k v o) = obj_get k' o.
Proof.
  intros Hne. unfold set_property.
  destruct (String.eqb k "__proto__"); [reflexivity|].
  destruct (obj_get k o).
  - apply obj_get_obj_set_ne, Hne.
  - apply obj_get_add_property_ne, Hne.
Qed.

(** The fields of the parsed object after the loop over the pairs: a
    key that some pair has holds the converted value of a pair with
    that key; any other property is as it was before the loop.  (The
    name [__proto__] is none of the keys meant: a pair with that key
    sets nothing.) *)
Lemma fold_parse_pair (template : MessageTemplate) (pairs : list string) :
  Forall (fun pair => exists k v, key_value pair k v) pairs ->
  forall (result : ParsedMessage) (key : string),
    key <> "__proto__" ->
    (obj_get key (fold_left (parse_pair template) pairs result)
     = obj_get key result
     /\ forall pair v, In pair pairs -> ~ key_value pair key v)
    \/ (exists pair v,
          In pair pairs /\ key_value pair key v
          /\ obj_get key (fold_left (parse_pair template) pairs result)
             = Some (_convertValueType (trim v) (field_type template key))).
Proof.
  induction 1 as [|pair pairs (k & v & Hkv) Hall IH]; intros result key Hkey.
  - left. split; [reflexivity|]. intros pair v [].
  - cbn [fold_left]. rewrite (parse_pair_key_value _ _ _ _ _ Hkv).
    destruct (IH (set_property k (_convertValueType (trim v)
                                    (field_type template k)) result)
                 key Hkey)
      as [[Hsame Hnone]|(p & v' & Hin & Hp & Hget)].
    + destruct (String.eqb_spec k key) as [->|Hne].
      * right. exists pair, v. split; [left; reflexivity|].
        split; [exact Hkv|]. rewrite Hsame.
        apply obj_get_set_property, Hkey.
      * left. split.
        -- rewrite Hsame. apply obj_get_set_property_ne. congruence.
        -- intros p v' [<-|Hin] Hp; [|apply (Hnone _ _ Hin Hp)].
           destruct (key_value_key _ _ _ _ _ Hkv Hp) as [-> _]. congruence.
    + right. exists p, v'. split; [right; exact Hin|]. split; assumption.
Qed.

Lemma pairs_of_message (message : string) :
  Forall (fun pair => exists k v, key_value pair k v)
         (match_g keyValuePattern message).
Proof.
  rewrite List.Forall_forall. intros pair Hin.
  apply (pairs_key_value message pair Hin).
Qed.

(** A value converted to a declared type passes the check of that type,
    whatever the text it was converted from. *)
Lemma converted_passes (parsed : ParsedMessage) (field raw : string)
    (def : FieldDef) :
  obj_get field parsed = Some (_convertValueType raw (type def)) ->
  field_errors parsed field def = field_errors parsed field (without_type def).
Proof.
  intros Hget. unfold field_errors, get_property. rewrite Hget.
  cbn [without_type type required pattern].
  do 2 f_equal.
  destruct (type def) as [s|]; [|reflexivity].
  destruct (no_type (Some s)) eqn:Hno.
  { unfold _convertValueType. rewrite Hno. reflexivity. }
  unfold _convertValueType. rewrite Hno.
  repeat (destruct s as [|[[] [] [] [] [] [] [] []] s]; try reflexivity).
Qed.

End Parsed.

Section TypesNeverFail.
Import TemplateParser.

Lemma obj_get_NoDup_In {A} (k : string) (v : A) (l : list (string * A)) :
  NoDup (map fst l) -> In (k, v) l -> obj_get k l = Some v.
Proof.
  induction l as [|[k' v'] l IH]; simpl; intros Hnd Hin; [contradiction|].
  apply NoDup_cons in Hnd as [Hnotin Hnd].
  destruct Hin as [[= -> ->]|Hin].
  - rewrite String.eqb_refl. reflexivity.
  - destruct (String.eqb_spec k' k) as [->|Hne]; [|apply IH; assumption].
    exfalso. apply Hnotin. rewrite list_elem_of_In, in_map_iff.
    exists (k, v). split; [reflexivity|exact Hin].
Qed.

Lemma not_inherited (key : string) :
  ~ In key inherited ->
  inherited_value key = JUndefined /\ key <> "__proto__".
Proof.
  intros Hkey. unfold inherited_value.
  destruct (String.eqb_spec key "__proto__") as [->|Hproto].
  { exfalso. apply Hkey. simpl. tauto. }
  destruct (String.eqb_spec key "constructor") as [->|_].
  { exfalso. apply Hkey. simpl. tauto. }
  destruct (existsb (String.eqb key) inherited) eqn:Hex.
  { exfalso. apply existsb_exists in Hex as (x & Hin & Heq).
    apply String.eqb_eq in Heq. subst x. exact (Hkey Hin). }
  split; [reflexivity|exact Hproto].
Qed.

Lemma absent_passes (result : ParsedMessage) (field : string) (def : FieldDef) :
  obj_get field result = None -> ~ In field inherited ->
  field_errors result field def = field_errors result field (without_type def).
Proof.
  intros Hget Hfield. unfold field_errors, get_property. rewrite Hget.
  destruct (not_inherited field Hfield) as [-> _]. reflexivity.
Qed.

Lemma unreserved_start (message key : string) :
  ~ In key reserved ->
  obj_get key
    (match exec commandPattern message with
     | Some commandMatch =>
         obj_set "command" (group message commandMatch 1)
           [("isValid", JBool true); ("errors", JArr [])]
     | None => [("isValid", JBool true); ("errors", JArr [])]
     end) = None.
Proof.
  intros Hkey.
  assert (H1 : String.eqb "isValid" key = false).
  { apply String.eqb_neq. intros <-. apply Hkey. simpl. tauto. }
  assert (H2 : String.eqb "errors" key = false).
  { apply String.eqb_neq. intros <-. apply Hkey. simpl. tauto. }
  assert (H3 : key <> "command").
  { intros ->. apply Hkey. simpl. tauto. }
  assert (Hbase : obj_get key [("isValid", JBool true); ("errors", JArr [])]
                  = None).
  { cbn [obj_get]. rewrite H1, H2. reflexivity. }
  destruct (exec commandPattern message); [|exact Hbase].
  rewrite obj_get_obj_set_ne by exact H3. exact Hbase.
Qed.

(** X29.  A declared type never makes a message invalid.  Every value that
    [parseMessage] finds for a field has been converted to the type the
    template declares for it, and a converted value passes the check of
    its type: text that is no number becomes [NaN], which is a number;
    text that is not [true] becomes [false].  So, for a template whose
    fields bear neither one of the names [parseMessage] uses itself
    nor the name of a property that every object inherits, the result
    is the same as if the converted fields were validated against the
    template without its types: the only errors there can be are
    missing required fields and patterns that do not match.  (A field
    named like an inherited property is read through the prototype when
    the message does not have it: [inherited_name_fails] below.) *)
Theorem declared_types_never_fail (message : string)
    (template : MessageTemplate) :
  NoDup (map fst (fields template)) ->
  (forall key, In key (map fst (fields template)) ->
               ~ In key reserved /\ ~ In key inherited) ->
  parse_with message template
  = validateParsedMessage (parsed message template) (without_types template).
Proof.
  intros Hnd Hfree.
  rewrite parse_with_parsed. unfold validateParsedMessage.
  assert (Herrors :
    flat_map (fun fd : string * FieldDef =>
                field_errors (parsed message template) (fst fd) (snd fd))
             (fields template)
    = flat_map (fun fd : string * FieldDef =>
                  field_errors (parsed message template) (fst fd) (snd fd))
               (fields (without_types template))).
  { unfold without_types. cbn [fields].
    rewrite flat_map_concat_map, flat_map_concat_map, map_map. f_equal.
    apply map_ext_in. intros [k d] Hin. cbn [fst snd].
    assert (Hk : ~ In k reserved /\ ~ In k inherited).
    { apply Hfree. apply in_map_iff. exists (k, d). split; [reflexivity|exact Hin]. }
    destruct Hk as [Hk Hown].
    destruct (fold_parse_pair template (match_g keyValuePattern message)
                (pairs_of_message message)
                (match exec commandPattern message with
                 | Some commandMatch =>
                     obj_set "command" (group message commandMatch 1)
                       [("isValid", JBool true); ("errors", JArr [])]
                 | None => [("isValid", JBool true); ("errors", JArr [])]
                 end) k (proj2 (not_inherited k Hown)))
      as [[Hsame _]|(p & v & _ & _ & Hget)].
    - apply absent_passes; [|exact Hown]. unfold parsed. rewrite Hsame.
      apply unreserved_start, Hk.
    - apply (converted_passes _ _ (trim v)). unfold parsed. rewrite Hget.
      unfold field_type. rewrite (obj_get_NoDup_In k d _ Hnd Hin).
      reflexivity. }
  rewrite Herrors. reflexivity.
Qed.

Lemma declared_types_never_fail_witness :
  NoDup (map fst (fields typed_template))
  /\ prop "quantity"
       (parse_with "quantity:lots, urgent:maybe, tags:a" typed_template)
     = JNum NaN
  /\ parse_with "quantity:lots, urgent:maybe, tags:a" typed_template
     = validateParsedMessage
         (parsed "quantity:lots, urgent:maybe, tags:a" typed_template)
         (without_types typed_template)
  /\ prop "isValid"
       (parse_with "quantity:lots, urgent:maybe, tags:a" typed_template)
     = JBool true.
Proof.
  assert (Hnd : NoDup (map fst (fields typed_template))).
  { apply (bool_decide_unpack _). vm_compute. exact Logic.I. }
  split; [exact Hnd|]. split; [vm_compute; reflexivity|].
  split; [|vm_compute; reflexivity].
  apply (declared_types_never_fail "quantity:lots, urgent:maybe, tags:a"
           typed_template Hnd).
  intros key Hin. simpl in Hin.
  destruct Hin as [<-|[<-|[<-|[]]]];
    (split; intros Hres; simpl in Hres;
     repeat (destruct Hres as [H|Hres]; [discriminate H|]);
     exact Hres).
Defined.

(** A field named like a property that every object inherits: a
    message that does not have it is still told that the field has the
    wrong type, for the check reads the inherited function. *)
Example inherited_name_fails :
  parse_with "size:large"
    {| fields := [("toString", {| type := Some "number"; required := false;
                                  pattern := None |})];
       examples := [] |}
  = [("isValid", JBool false);
     ("errors", JArr [JStr ("Field " ++ dquote ++ "toString" ++ dquote
                            ++ " should be a number")]);
     ("size", JStr "large")].
Proof. vm_compute. reflexivity. Qed.

End TypesNeverFail.

(** ** Examples against the template made from them *)

Section Accepted.
Import TemplateParser.

Lemma scan_found (r : regex) (s : list ascii) :
  forall (pos skip : nat) (m : found),
    In m (scan r pos s skip) ->
    exists pos' s', match_at r pos' s' = Some (snd (fst m), snd m).
Proof.
  induction s as [|c s IH]; intros pos skip m Hin.
  - destruct skip as [|skip]; simpl in Hin; [|contradiction].
    destruct (match_at r pos []) as [[e caps]|] eqn:Hm; [|contradiction].
    destruct Hin as [<-|[]]. exists pos, []. exact Hm.
  - destruct skip as [|skip]; simpl in Hin; [|apply (IH _ _ _ Hin)].
    destruct (match_at r pos (c :: s)) as [[e caps]|] eqn:Hm;
      [|apply (IH _ _ _ Hin)].
    destruct Hin as [<-|Hin]; [|apply (IH _ _ _ Hin)].
    exists pos, (c :: s). exact Hm.
Qed.

(** A match of the command pattern has the name of the command in its
    first group. *)
Lemma command_group (message : string) (m : found) :
  exec commandPattern message = Some m ->
  exists name, group message m 1 = JStr name.
Proof.
  unfold exec, matches. intros Hhead.
  assert (Hin : In m (scan commandPattern 0 (chars message) 0)).
  { destruct (scan commandPattern 0 (chars message) 0) as [|m0 l];
      [discriminate|]. injection Hhead as ->. left. reflexivity. }
  apply scan_found in Hin as (pos & s & Hm).
  assert (Hcaps : exists b e, snd m = (1%nat, (b, e)) :: [] \/
                              exists rest, snd m = (1%nat, (b, e)) :: rest).
  { revert Hm. unfold match_at, commandPattern, char. cbn [rmatch].
    destruct (Nat.eqb pos 0); [|discriminate].
    destruct s as [|c s]; [discriminate|].
    destruct (Ascii.eqb "!" c); [|discriminate].
    intros H. apply rmatch_sound in H as (w & s' & caps' & _ & _ & H).
    injection H as _ H. eexists _, _. right. eexists. symmetry. exact H. }
  destruct Hcaps as (b & e & [H|[rest H]]); unfold group; rewrite H;
    eexists; reflexivity.
Qed.

Lemma from_examples_more (exs : list string) (ex : string)
    (field : string * FieldDef) :
  from_examples exs field -> from_examples (exs ++ [ex]) field.
Proof.
  intros [(Hk & Hr & ex0 & Hin & Hc)|(Hr & ex0 & p & v & Hin & Hp & Hkv)].
  - left. split; [exact Hk|]. split; [exact Hr|]. exists ex0.
    split; [apply in_or_app; left; exact Hin|exact Hc].
  - right. split; [exact Hr|]. exists ex0, p, v.
    split; [apply in_or_app; left; exact Hin|]. split; assumption.
Qed.

Lemma from_examples_pair (exs : list string) (ex pair : string)
    (l : list (string * FieldDef)) :
  In ex exs -> In pair (match_g keyValuePattern ex) ->
  Forall (from_examples exs) l ->
  Forall (from_examples exs) (generate_pair l pair).
Proof.
  intros Hex Hpair Hl.
  destruct (pairs_key_value ex pair Hpair) as (key & value & Hkv).
  unfold generate_pair. rewrite (split_key_value _ _ _ Hkv).
  destruct (_ && _)%bool; [|exact Hl]. cbv zeta.
  destruct (lacks l (trim key)); [|exact Hl].
  rewrite List.Forall_forall in *. intros x Hx.
  apply In_add_property in Hx as [->|Hx]; [|apply Hl, Hx].
  right. split; [reflexivity|]. exists ex, pair, value.
  split; [exact Hex|]. split; [exact Hpair|].
  cbn [fst]. destruct Hkv as (Hp & Hk & Hv & Hkw & Hvw).
  rewrite (trim_word key Hkw). repeat split; assumption.
Qed.

Lemma from_examples_pairs (exs : list string) (ex : string)
    (pairs : list string) :
  In ex exs ->
  (forall pair, In pair pairs -> In pair (match_g keyValuePattern ex)) ->
  forall l, Forall (from_examples exs) l ->
            Forall (from_examples exs) (fold_left generate_pair pairs l).
Proof.
  intros Hex. induction pairs as [|p pairs IH]; intros Hsub l Hl; simpl;
    [exact Hl|].
  apply IH; [intros q Hq; apply Hsub; right; exact Hq|].
  apply (from_examples_pair exs ex); [exact Hex| |exact Hl].
  apply Hsub. left. reflexivity.
Qed.

Lemma from_examples_example (exs : list string) (ex : string)
    (l : list (string * FieldDef)) :
  In ex exs -> Forall (from_examples exs) l ->
  Forall (from_examples exs) (generate_example l ex).
Proof.
  intros Hex Hl. unfold generate_example.
  apply (from_examples_pairs exs ex); [exact Hex|auto|].
  destruct (exec commandPattern ex) as [m|] eqn:Hm; [|exact Hl].
  destruct (lacks l "command"); [|exact Hl].
  rewrite List.Forall_forall in *. intros x Hx.
  apply In_add_property in Hx as [->|Hx]; [|apply Hl, Hx].
  left. split; [reflexivity|]. split; [reflexivity|].
  exists ex. split; [exact Hex|]. rewrite Hm. eexists. reflexivity.
Qed.

Lemma from_examples_all (exs : list string) :
  Forall (from_examples exs) (fields (generateTemplate exs)).
Proof.
  unfold generateTemplate. cbn [fields].
  assert (H : forall done todo l,
            exs = (done ++ todo)%list -> Forall (from_examples exs) l ->
            Forall (from_examples exs) (fold_left generate_example todo l)).
  { intros done todo. revert done.
    induction todo as [|ex todo IH]; intros done l Hexs Hl; simpl;
      [exact Hl|].
    apply (IH (done ++ [ex])%list).
    - rewrite <- app_assoc. exact Hexs.
    - apply from_examples_example; [|exact Hl].
      rewrite Hexs. apply in_or_app. right. left. reflexivity. }
  apply (H [] exs); [reflexivity|constructor].
Qed.

(** A field without a type, not required and without a pattern has no
    error. *)
Lemma optional_untyped (result : ParsedMessage) (field : string)
    (def : FieldDef) :
  required def = false -> pattern def = None ->
  field_errors result field (without_type def) = [].
Proof.
  intros Hr Hp. unfold field_errors.
  cbn [without_type type required pattern]. rewrite Hr, Hp.
  cbn [andb no_type negb]. rewrite andb_false_r.
  destruct (negb _); reflexivity.
Qed.

(** X30.  A generated template accepts the examples it was made from.  Let
    no pair of the examples have one of the keys [isValid], [errors]
    and [command].  Then every example that begins with a command is
    valid against the generated template, whatever the values of its
    fields are and whatever types the other examples gave them; and if
    no example begins with a command, every example is valid. *)
Theorem generated_template_accepts (exs : list string) (e : string) :
  In e exs ->
  plain_keys exs ->
  is_Some (exec commandPattern e)
  \/ (forall ex, In ex exs -> exec commandPattern ex = None) ->
  prop "isValid" (parse_with e (generateTemplate exs)) = JBool true
  /\ prop "errors" (parse_with e (generateTemplate exs)) = JArr [].
Proof.
  intros He Hplain Hcommand.
  set (T := generateTemplate exs).
  destruct (generated_examples exs []) as [Hshape Hnd];
    [split; constructor|].
  change (fold_left generate_example exs []) with (fields T) in Hshape, Hnd.
  pose proof (from_examples_all exs) as Horigin.
  change (generateTemplate exs) with T in Horigin.
  assert (Herrors :
    flat_map (fun fd : string * FieldDef =>
                field_errors (parsed e T) (fst fd) (snd fd)) (fields T) = []).
  { rewrite flat_map_concat_map. apply concat_nil_Forall.
    rewrite Forall_map. rewrite List.Forall_forall in *.
    intros [k d] Hin. cbn [fst snd].
    destruct (Hshape _ Hin) as (Hpat & _ & Hreq & Hown).
    cbn [fst snd] in Hpat, Hreq, Hown.
    destruct (not_inherited k Hown) as [_ Hproto].
    pose proof (fold_parse_pair T (match_g keyValuePattern e)
                  (pairs_of_message e)) as Hfold.
    destruct (Horigin _ Hin)
      as [(Hk & Hr & ex & Hex & Hc)|(Hr & ex & p & v & Hex & Hp & Hkv)];
      cbn [fst snd] in *.
    - subst k. destruct (Hreq Hr) as [_ Htype].
      assert (Hm : is_Some (exec commandPattern e)).
      { destruct Hcommand as [H|H]; [exact H|].
        rewrite (H ex Hex) in Hc. destruct Hc as [x Hx]. discriminate Hx. }
      destruct Hm as [m Hm].
      destruct (command_group e m Hm) as [name Hname].
      assert (Hget : exists text, obj_get "command" (parsed e T)
                                  = Some (JStr text)).
      { unfold parsed. rewrite Hm.
        destruct (Hfold (obj_set "command" (group e m 1)
                           [("isValid", JBool true); ("errors", JArr [])])
                        "command" Hproto)
          as [[Hsame _]|(p & v & _ & _ & Hget)].
        - rewrite Hsame, obj_get_obj_set, Hname. eexists. reflexivity.
        - rewrite Hget. unfold field_type.
          rewrite (obj_get_NoDup_In "command" d _ Hnd Hin), Htype.
          eexists. reflexivity. }
      destruct Hget as [text Hget].
      unfold field_errors, get_property.
      rewrite Hget, Htype, Hpat, Hr. reflexivity.
    - assert (Hk : ~ In k reserved) by apply (Hplain _ _ _ _ Hex Hp Hkv).
      assert (Hsame : field_errors (parsed e T) k d
                      = field_errors (parsed e T) k (without_type d)).
      { unfold parsed.
        destruct (Hfold (match exec commandPattern e with
                         | Some commandMatch =>
                             obj_set "command" (group e commandMatch 1)
                               [("isValid", JBool true); ("errors", JArr [])]
                         | None => [("isValid", JBool true); ("errors", JArr [])]
                         end) k Hproto)
          as [[Hsame _]|(p' & v' & _ & _ & Hget)].
        - apply absent_passes; [|exact Hown]. rewrite Hsame.
          apply unreserved_start, Hk.
        - apply (converted_passes _ _ (trim v')). rewrite Hget.
          unfold field_type. rewrite (obj_get_NoDup_In k d _ Hnd Hin).
          reflexivity. }
      rewrite Hsame. apply optional_untyped; assumption. }
  rewrite parse_with_parsed. unfold validateParsedMessage. rewrite Herrors. cbn [map length Nat.eqb].
  unfold prop. split.
  - rewrite obj_get_obj_set. reflexivity.
  - rewrite obj_get_obj_set_ne by discriminate.
    rewrite obj_get_obj_set. reflexivity.
Qed.

Lemma generated_template_accepts_witness :
  prop "quantity" (parse_with "!order quantity:many" (generateTemplate orders))
  = JNum NaN
  /\ prop "isValid" (parse_with "!order quantity:many" (generateTemplate orders))
     = JBool true.
Proof.
  split; [vm_compute; reflexivity|].
  apply (generated_template_accepts orders "!order quantity:many").
  - simpl. tauto.
  - intros ex pair key value Hex Hpair Hkv Hres.
    assert (Hkeys : In key ["item"; "quantity"; "gift"]).
    { apply split_key_value in Hkv.
      simpl in Hex. destruct Hex as [<-|[<-|[<-|[]]]];
        vm_compute in Hpair;
        repeat (destruct Hpair as [<-|Hpair];
                [vm_compute in Hkv; injection Hkv as <- _; simpl; tauto|]);
        destruct Hpair. }
    simpl in Hkeys, Hres.
    destruct Hkeys as [<-|[<-|[<-|[]]]];
      destruct Hres as [H|[H|[H|[]]]]; discriminate H.
  - left. vm_compute. eexists. reflexivity.
Defined.

End Accepted.
